(** * Verification of the N-API C++ wrapper layer (src/napi-inl.h)

    The wrapper classes of [napi-inl.h] are embedded as state-passing
    functions over a model of the host runtime.  C++ exceptions of type
    [Napi::Error] are an explicit outcome, destructors are run explicitly
    on both the normal and the exceptional path, and every call of a host
    ABI entry point is recorded in a log kept in the state. *)

From stdpp Require Import gmap strings list.
From Stdlib Require Import ZArith.

Local Open Scope Z_scope.

(** ** Pointers and opaque ABI types *)

(** Pointers and the opaque handle types of the ABI are addresses; the
    names are abbreviations, so that map lemmas see one key type. *)
Abbreviation ptr := nat (only parsing).
Abbreviation napi_env := nat (only parsing).
Abbreviation napi_value := nat (only parsing).
Abbreviation napi_ref := nat (only parsing).
Abbreviation napi_handle_scope := nat (only parsing).
Abbreviation napi_work := nat (only parsing).
(** Address of a user-supplied native function. *)
Abbreviation fnptr := nat (only parsing).

Definition nullptr : nat := 0%nat.

(** Modelled from the spec: the status codes of the host ABI (spec 6, 7,
    8); the enumeration is declared in the host's C header, which is not
    part of the repository's sources. *)
Inductive napi_status :=
| napi_ok
| napi_invalid_arg
| napi_object_expected
| napi_string_expected
| napi_function_expected
| napi_number_expected
| napi_boolean_expected
| napi_generic_failure
| napi_pending_exception
| napi_status_last.

#[global] Instance napi_status_eq_dec : EqDecision napi_status.
Proof. solve_decision. Defined.

Inductive napi_valuetype :=
| napi_undefined
| napi_null
| napi_boolean
| napi_number
| napi_string
| napi_symbol
| napi_object
| napi_function.

#[global] Instance napi_valuetype_eq_dec : EqDecision napi_valuetype.
Proof. solve_decision. Defined.

Record napi_extended_error_info := mk_error_info {
  error_message : option string;
  error_code : napi_status
}.

(** The trampolines of [napi-inl.h] that are handed to the host as C
    function pointers. *)
Inductive napi_callback :=
| VoidFunctionCallbackWrapper_entry
| FunctionCallbackWrapper_entry
| ConstructorCallbackWrapper_entry
| InstanceVoidMethodCallbackWrapper_entry
| InstanceMethodCallbackWrapper_entry.

(** Finalizers handed to the host. *)
Inductive napi_finalize :=
| FinalizeCallback_entry.

(** [napi_property_descriptor], with the fields the class registration
    functions fill in. *)
Record napi_property_descriptor := mk_descriptor {
  desc_utf8name : string;
  desc_method : option napi_callback;
  desc_value : napi_value;
  desc_attributes : Z;
  desc_data : ptr
}.

(** What the host passes to a trampoline together with [env]. *)
Record napi_callback_info := mk_callback_info {
  cb_this : napi_value;
  cb_args : list napi_value;
  cb_data : ptr;
  cb_is_construct_call : bool
}.

(** ** Wrapper objects (the data members of the C++ classes) *)

Module Value.
(** [Napi::Value] and the classes derived from it without adding
    members ([Object], [Function], [String]): [As<T>()] only retypes. *)
Record t := mk { _env : napi_env; _value : napi_value }.
End Value.

Module Error.
Record t := mk { _env : napi_env; _value : napi_value; _message : string }.
End Error.

Module Reference.
Record t := mk {
  _env : napi_env;
  _ref : napi_ref;
  _suppressDestruct : bool
}.
End Reference.

Module HandleScope.
(** Also the members of [EscapableHandleScope]. *)
Record t := mk { _env : napi_env; _scope : napi_handle_scope }.
End HandleScope.

(** Where [CallbackInfo::_argv] points. *)
Inductive argv_location :=
| argv_unset
| argv_static
| argv_dynamic.

Module CallbackInfo.
(** [_staticArgs] holds the slots of the fixed-size member array that
    have been written; [_dynamicArgs] is the address of the heap array
    or [nullptr]. *)
Record t := mk {
  _env : napi_env;
  _this : napi_value;
  _argc : Z;
  _argv : argv_location;
  _staticArgs : list napi_value;
  _dynamicArgs : ptr;
  _data : ptr
}.
End CallbackInfo.

Module AsyncWorker.
Record t := mk {
  _env : napi_env;
  _work : napi_work;
  _callback : Reference.t;
  _persistent : Reference.t;
  _errmsg : string
}.
End AsyncWorker.

(** ** The host runtime *)

Inductive error_kind := generic_error | type_error | range_error.

Inductive js_value :=
| JsUndefined
| JsNull
| JsGlobal
| JsString (s : string)
| JsObject
| JsError (kind : error_kind) (message : napi_value)
| JsScriptFunction
| JsNativeFunction (cb : napi_callback) (data : ptr)
| JsClass (ctor : napi_callback) (data : ptr)
          (props : list napi_property_descriptor).

(** Objects of the native heap ([new] / [delete]). *)
Inductive native_obj :=
| NCallbackData (callback : fnptr) (data : ptr)
| NInstance (base : Reference.t)
| NArgArray (elems : list napi_value).

Record world := mk_world {
  values : gmap nat js_value;
  pending : napi_value;
  last_error : napi_extended_error_info;
  references : gmap nat (napi_value * Z);
  wrapped : gmap nat ptr;
  scopes : list napi_handle_scope;
  return_value : napi_value;
  calls : list (napi_value * napi_value * list napi_value);
  native : gmap nat native_obj;
  abi_log : list string
}.

Definition upd_values (f : gmap nat js_value -> gmap nat js_value) (w : world) : world :=
  mk_world (f (values w)) (pending w) (last_error w) (references w) (wrapped w)
           (scopes w) (return_value w) (calls w) (native w) (abi_log w).

Definition set_pending (v : napi_value) (w : world) : world :=
  mk_world (values w) v (last_error w) (references w) (wrapped w)
           (scopes w) (return_value w) (calls w) (native w) (abi_log w).

Definition set_last_error (i : napi_extended_error_info) (w : world) : world :=
  mk_world (values w) (pending w) i (references w) (wrapped w)
           (scopes w) (return_value w) (calls w) (native w) (abi_log w).

Definition upd_references (f : gmap nat (napi_value * Z) -> gmap nat (napi_value * Z))
    (w : world) : world :=
  mk_world (values w) (pending w) (last_error w) (f (references w)) (wrapped w)
           (scopes w) (return_value w) (calls w) (native w) (abi_log w).

Definition upd_wrapped (f : gmap nat ptr -> gmap nat ptr) (w : world) : world :=
  mk_world (values w) (pending w) (last_error w) (references w) (f (wrapped w))
           (scopes w) (return_value w) (calls w) (native w) (abi_log w).

Definition upd_scopes (f : list napi_handle_scope -> list napi_handle_scope)
    (w : world) : world :=
  mk_world (values w) (pending w) (last_error w) (references w) (wrapped w)
           (f (scopes w)) (return_value w) (calls w) (native w) (abi_log w).

Definition set_return_value (v : napi_value) (w : world) : world :=
  mk_world (values w) (pending w) (last_error w) (references w) (wrapped w)
           (scopes w) v (calls w) (native w) (abi_log w).

Definition add_call (c : napi_value * napi_value * list napi_value) (w : world) : world :=
  mk_world (values w) (pending w) (last_error w) (references w) (wrapped w)
           (scopes w) (return_value w) (calls w ++ [c]) (native w) (abi_log w).

Definition upd_native (f : gmap nat native_obj -> gmap nat native_obj) (w : world) : world :=
  mk_world (values w) (pending w) (last_error w) (references w) (wrapped w)
           (scopes w) (return_value w) (calls w) (f (native w)) (abi_log w).

Definition add_log (name : string) (w : world) : world :=
  mk_world (values w) (pending w) (last_error w) (references w) (wrapped w)
           (scopes w) (return_value w) (calls w) (native w) (abi_log w ++ [name]).

(** ** Computations: state passing with C++ exceptions *)

Inductive outcome (A : Type) :=
| Ok (a : A)
| Throw (e : Error.t)
| Fault.
Arguments Ok {A} a.
Arguments Throw {A} e.
Arguments Fault {A}.

Definition M (A : Type) : Type := world -> outcome A * world.

Definition ret {A} (a : A) : M A := fun w => (Ok a, w).

Definition bind {A B} (m : M A) (k : A -> M B) : M B :=
  fun w =>
    match m w with
    | (Ok a, w') => k a w'
    | (Throw e, w') => (Throw e, w')
    | (Fault, w') => (Fault, w')
    end.

Definition throw {A} (e : Error.t) : M A := fun w => (Throw e, w).

(** Undefined behaviour and failed assertions. *)
Definition fault {A} : M A := fun w => (Fault, w).

(** [try { body } catch (const Error& e) { handler e }]. *)
Definition try_catch {A} (body : M A) (handler : Error.t -> M A) : M A :=
  fun w =>
    match body w with
    | (Throw e, w') => handler e w'
    | r => r
    end.

(** A block owning a local object: [dtor] runs when the block is left,
    normally or by an exception. *)
Definition scoped {A} (body : M A) (dtor : M unit) : M A :=
  fun w =>
    match body w with
    | (Ok a, w') =>
        match dtor w' with
        | (Ok _, w'') => (Ok a, w'')
        | (Throw e, w'') => (Throw e, w'')
        | (Fault, w'') => (Fault, w'')
        end
    | (Throw e, w') =>
        match dtor w' with
        | (Fault, w'') => (Fault, w'')
        | (_, w'') => (Throw e, w'')
        end
    | (Fault, w') => (Fault, w')
    end.

Definition get {A} (f : world -> A) : M A := fun w => (Ok (f w), w).
Definition modify (f : world -> world) : M unit := fun w => (Ok tt, f w).

Declare Scope napi_scope.
Delimit Scope napi_scope with napi.
Notation "x <- c ;; k" := (bind c (fun x => k))
  (at level 100, c at next level, right associativity) : napi_scope.
Notation "c ;;; k" := (bind c (fun _ => k))
  (at level 100, right associativity) : napi_scope.
Local Open Scope napi_scope.

(** ** The host ABI

    Modelled from the spec: the raw ABI entry points are external to the
    repository (spec 1 and 6: value creation and inspection, class
    definition, scope open and close, reference create and delete,
    exception throw and inspect, each returning a status code).  An entry
    point returns its status together with what the C function stores
    through its result pointer; a failing call records its status as the
    last error.  Every call is appended to [abi_log]. *)

Definition h_undefined : napi_value := 1%nat.
Definition h_null : napi_value := 2%nat.
Definition h_global : napi_value := 3%nat.

(** Modelled from the spec: the host value a handle denotes (spec 3,
    "Handle": a proxy for a host value). *)
Definition lookup_value (w : world) (v : napi_value) : option js_value :=
  if decide (v = h_undefined) then Some JsUndefined
  else if decide (v = h_null) then Some JsNull
  else if decide (v = h_global) then Some JsGlobal
  else values w !! v.

(** Modelled from the spec: addresses the host never hands out for a new
    value. *)
Definition reserved_handles : gset nat :=
  {[ nullptr; h_undefined; h_null; h_global ]}.

(** Modelled from the spec: the handle of the next value the host creates;
    it differs from every handle in use. *)
Definition fresh_value (w : world) : napi_value :=
  fresh (reserved_handles ∪ dom (values w)).

(** Modelled from the spec: the next root the host creates. *)
Definition fresh_ref (w : world) : napi_ref :=
  fresh ({[ nullptr ]} ∪ dom (references w)).

(** The address of the next native allocation. *)
Definition fresh_ptr (w : world) : ptr :=
  fresh ({[ nullptr ]} ∪ dom (native w)).

(** Modelled from the spec: the next handle scope the host opens. *)
Definition fresh_scope (w : world) : napi_handle_scope :=
  fresh ({[ nullptr ]} ∪ list_to_set (C := gset nat) (scopes w)).

(** Modelled from the spec: the message of the last-error info for a
    status (spec 4.7, "the ABI's last-error message"); none for success. *)
Definition status_message (st : napi_status) : option string :=
  match st with
  | napi_ok => None
  | napi_invalid_arg => Some "Invalid pointer passed as argument"%string
  | napi_object_expected => Some "An object was expected"%string
  | napi_string_expected => Some "A string was expected"%string
  | napi_function_expected => Some "A function was expected"%string
  | napi_number_expected => Some "A number was expected"%string
  | napi_boolean_expected => Some "A boolean was expected"%string
  | napi_generic_failure => Some "Unknown failure"%string
  | napi_pending_exception => Some "An exception is pending"%string
  | napi_status_last => None
  end.

(** Records the call of an entry point. *)
Definition log (name : string) : M unit := modify (add_log name).

(** A failing entry point: the status becomes the last error. *)
Definition abi_fail {A} (st : napi_status) (dflt : A) : M (napi_status * A) :=
  modify (set_last_error (mk_error_info (status_message st) st));;;
  ret (st, dflt).

(** Modelled from the spec: creation of a host value (spec 6). *)
Definition new_value (x : js_value) : M napi_value :=
  fun w => let h := fresh_value w in (Ok h, upd_values (insert h x) w).

(** Modelled from the spec: the undefined sentinel of the host (spec 4.3). *)
Definition napi_get_undefined (env : napi_env) : M (napi_status * napi_value) :=
  log "napi_get_undefined";;; ret (napi_ok, h_undefined).

(** Modelled from the spec: the null sentinel of the host (spec 4.3). *)
Definition napi_get_null (env : napi_env) : M (napi_status * napi_value) :=
  log "napi_get_null";;; ret (napi_ok, h_null).

(** Modelled from the spec: the global object of the host (spec 6). *)
Definition napi_get_global (env : napi_env) : M (napi_status * napi_value) :=
  log "napi_get_global";;; ret (napi_ok, h_global).

(** Modelled from the spec: the host category of a value (spec 6). *)
Definition js_typeof (x : js_value) : napi_valuetype :=
  match x with
  | JsUndefined => napi_undefined
  | JsNull => napi_null
  | JsString _ => napi_string
  | JsGlobal | JsObject | JsError _ _ => napi_object
  | JsScriptFunction | JsNativeFunction _ _ | JsClass _ _ _ => napi_function
  end.

(** Modelled from the spec: value inspection (spec 6); an unknown handle
    is an invalid argument. *)
Definition napi_typeof (env : napi_env) (v : napi_value)
    : M (napi_status * napi_valuetype) :=
  log "napi_typeof";;;
  x <- get (fun w => lookup_value w v);;
  match x with
  | Some x => ret (napi_ok, js_typeof x)
  | None => abi_fail napi_invalid_arg napi_undefined
  end.

(** Modelled from the spec: the pending-exception query (spec 7). *)
Definition napi_is_exception_pending (env : napi_env) : M (napi_status * bool) :=
  log "napi_is_exception_pending";;;
  p <- get pending;;
  ret (napi_ok, negb (Nat.eqb p nullptr)).

(** Modelled from the spec: capturing and clearing the pending host
    exception (spec 4.7). *)
Definition napi_get_and_clear_last_exception (env : napi_env)
    : M (napi_status * napi_value) :=
  log "napi_get_and_clear_last_exception";;;
  p <- get pending;;
  if Nat.eqb p nullptr then ret (napi_ok, h_undefined)
  else modify (set_pending nullptr);;; ret (napi_ok, p).

(** Modelled from the spec: the ABI's last-error info (spec 4.7, 7). *)
Definition napi_get_last_error_info : M napi_extended_error_info :=
  log "napi_get_last_error_info";;; get last_error.

(** Modelled from the spec: string creation from the first [length] bytes
    (spec 6, 8). *)
Definition napi_create_string_utf8 (env : napi_env) (s : string) (length : nat)
    : M (napi_status * napi_value) :=
  log "napi_create_string_utf8";;;
  h <- new_value (JsString (String.substring 0%nat length s));;
  ret (napi_ok, h).

(** Modelled from the spec: creation of a host error of a kind from a
    message string (spec 4.7); another message value is refused. *)
Definition create_error_of_kind (name : string) (kind : error_kind)
    (env : napi_env) (msg : napi_value) : M (napi_status * napi_value) :=
  log name;;;
  x <- get (fun w => lookup_value w msg);;
  match x with
  | Some (JsString _) => h <- new_value (JsError kind msg);; ret (napi_ok, h)
  | _ => abi_fail napi_string_expected nullptr
  end.

(** Modelled from the spec: the three error-creating entry points (spec 4.7:
    base, type and range kind). *)
Definition napi_create_error := create_error_of_kind "napi_create_error" generic_error.
Definition napi_create_type_error :=
  create_error_of_kind "napi_create_type_error" type_error.
Definition napi_create_range_error :=
  create_error_of_kind "napi_create_range_error" range_error.

(** Modelled from the spec: throwing a host value (spec 6, 7): it becomes
    the pending exception. *)
Definition napi_throw (env : napi_env) (error : napi_value) : M napi_status :=
  log "napi_throw";;;
  modify (set_pending error);;;
  ret napi_ok.

(** Modelled from the spec: throwing a new error of the type kind with a
    message (spec 4.4, 8). *)
Definition napi_throw_type_error (env : napi_env) (msg : string) : M napi_status :=
  log "napi_throw_type_error";;;
  m <- new_value (JsString msg);;
  e <- new_value (JsError type_error m);;
  modify (set_pending e);;;
  ret napi_ok.

(** Modelled from the spec: creation of a root at a given count, 0 being
    weak (spec 3, 4.3).  A root is a target handle, [nullptr] once the
    referent was collected, and an explicit count. *)
Definition napi_create_reference (env : napi_env) (value : napi_value)
    (initial_refcount : Z) : M (napi_status * napi_ref) :=
  log "napi_create_reference";;;
  x <- get (fun w => lookup_value w value);;
  match x with
  | Some _ =>
      r <- get fresh_ref;;
      modify (upd_references (insert r (value, initial_refcount)));;;
      ret (napi_ok, r)
  | None => abi_fail napi_invalid_arg nullptr
  end.

(** Modelled from the spec: release of a root (spec 4.3, 6); an unknown
    root is an invalid argument. *)
Definition napi_delete_reference (env : napi_env) (ref : napi_ref) : M napi_status :=
  log "napi_delete_reference";;;
  x <- get (fun w => references w !! ref);;
  match x with
  | Some _ => modify (upd_references (delete ref));;; ret napi_ok
  | None => r <- abi_fail napi_invalid_arg tt;; ret (fst r)
  end.

(** Modelled from the spec: dereference of a root (spec 4.3); for a
    collected referent the call succeeds and stores no value. *)
Definition napi_get_reference_value (env : napi_env) (ref : napi_ref)
    : M (napi_status * napi_value) :=
  log "napi_get_reference_value";;;
  x <- get (fun w => references w !! ref);;
  match x with
  | Some (v, _) => ret (napi_ok, v)
  | None => abi_fail napi_invalid_arg nullptr
  end.

(** Modelled from the spec: [Ref] adjusts the count by one and returns the
    new count (spec 4.3). *)
Definition napi_reference_ref (env : napi_env) (ref : napi_ref)
    : M (napi_status * Z) :=
  log "napi_reference_ref";;;
  x <- get (fun w => references w !! ref);;
  match x with
  | Some (v, c) =>
      modify (upd_references (insert ref (v, c + 1)));;;
      ret (napi_ok, c + 1)
  | None => abi_fail napi_invalid_arg 0
  end.

(** Modelled from the spec: [Unref] adjusts the count by one and returns
    the new count (spec 4.3); a count of 0 cannot be decremented. *)
Definition napi_reference_unref (env : napi_env) (ref : napi_ref)
    : M (napi_status * Z) :=
  log "napi_reference_unref";;;
  x <- get (fun w => references w !! ref);;
  match x with
  | Some (v, c) =>
      if c =? 0 then abi_fail napi_generic_failure 0
      else modify (upd_references (insert ref (v, c - 1)));;;
           ret (napi_ok, c - 1)
  | None => abi_fail napi_invalid_arg 0
  end.

(** Modelled from the spec: the receiver of a call frame (spec 4.5). *)
Definition napi_get_cb_this (env : napi_env) (info : napi_callback_info)
    : M (napi_status * napi_value) :=
  log "napi_get_cb_this";;; ret (napi_ok, cb_this info).

(** Modelled from the spec: the argument count of a call frame (spec 4.5). *)
Definition napi_get_cb_args_length (env : napi_env) (info : napi_callback_info)
    : M (napi_status * Z) :=
  log "napi_get_cb_args_length";;; ret (napi_ok, Z.of_nat (length (cb_args info))).

(** Modelled from the spec: the argument vector of a call frame (spec 4.5);
    fills a buffer of [bufsize] slots with the arguments, then undefined. *)
Definition napi_get_cb_args (env : napi_env) (info : napi_callback_info)
    (bufsize : Z) : M (napi_status * list napi_value) :=
  log "napi_get_cb_args";;;
  ret (napi_ok,
       take (Z.to_nat bufsize)
            (cb_args info ++ replicate (Z.to_nat bufsize) h_undefined)).

(** Modelled from the spec: the opaque registration data of a call frame
    (spec 4.5). *)
Definition napi_get_cb_data (env : napi_env) (info : napi_callback_info)
    : M (napi_status * ptr) :=
  log "napi_get_cb_data";;; ret (napi_ok, cb_data info).

(** Modelled from the spec: whether the frame is a "new"-style invocation
    (spec 4.4). *)
Definition napi_is_construct_call (env : napi_env) (info : napi_callback_info)
    : M (napi_status * bool) :=
  log "napi_is_construct_call";;; ret (napi_ok, cb_is_construct_call info).

(** Modelled from the spec: the ABI return slot (spec 4.5). *)
Definition napi_set_return_value (env : napi_env) (info : napi_callback_info)
    (v : napi_value) : M napi_status :=
  log "napi_set_return_value";;;
  modify (set_return_value v);;;
  ret napi_ok.

(** Modelled from the spec: host values that are objects. *)
Definition is_js_object (x : js_value) : bool :=
  match js_typeof x with
  | napi_object | napi_function => true
  | _ => false
  end.

(** Modelled from the spec: host values that can be called. *)
Definition is_js_function (x : js_value) : bool :=
  match js_typeof x with
  | napi_function => true
  | _ => false
  end.

(** Modelled from the spec: attaching a native instance to a host object
    with a finalize-on-collect registration (spec 4.4); the object must
    carry no instance yet, and a weak root of it is handed back. *)
Definition napi_wrap (env : napi_env) (js_object : napi_value) (native_object : ptr)
    (finalize_cb : napi_finalize) (finalize_hint : ptr) : M (napi_status * napi_ref) :=
  log "napi_wrap";;;
  x <- get (fun w => lookup_value w js_object);;
  already <- get (fun w => wrapped w !! js_object);;
  match x, already with
  | Some x, None =>
      if is_js_object x then
        modify (upd_wrapped (insert js_object native_object));;;
        r <- get fresh_ref;;
        modify (upd_references (insert r (js_object, 0)));;;
        ret (napi_ok, r)
      else abi_fail napi_object_expected nullptr
  | _, _ => abi_fail napi_invalid_arg nullptr
  end.

(** Modelled from the spec: the instance attached to a host object; fails
    if the object was never wrapped (spec 4.4). *)
Definition napi_unwrap (env : napi_env) (js_object : napi_value)
    : M (napi_status * ptr) :=
  log "napi_unwrap";;;
  x <- get (fun w => wrapped w !! js_object);;
  match x with
  | Some p => ret (napi_ok, p)
  | None => abi_fail napi_invalid_arg nullptr
  end.

(** Modelled from the spec: function definition (spec 6); the host keeps
    the trampoline and the data pointer, and the entry point takes no
    finalizer for the data. *)
Definition napi_create_function (env : napi_env) (utf8name : string)
    (cb : napi_callback) (data : ptr) : M (napi_status * napi_value) :=
  log "napi_create_function";;;
  h <- new_value (JsNativeFunction cb data);;
  ret (napi_ok, h).

(** Modelled from the spec: class definition (spec 4.4, 6); the host keeps
    the constructor trampoline, the data pointer and the descriptors. *)
Definition napi_define_class (env : napi_env) (utf8name : string)
    (ctor : napi_callback) (data : ptr)
    (properties : list napi_property_descriptor) : M (napi_status * napi_value) :=
  log "napi_define_class";;;
  h <- new_value (JsClass ctor data properties);;
  ret (napi_ok, h).

(** Modelled from the spec: calling a host function (spec 4.6); the
    invocation is recorded in [calls]. *)
Definition napi_make_callback (env : napi_env) (recv func : napi_value)
    (args : list napi_value) : M (napi_status * napi_value) :=
  log "napi_make_callback";;;
  x <- get (fun w => lookup_value w func);;
  match x with
  | Some f =>
      if is_js_function f then
        modify (add_call (func, recv, args));;; ret (napi_ok, h_undefined)
      else abi_fail napi_function_expected nullptr
  | None => abi_fail napi_invalid_arg nullptr
  end.

(** Modelled from the spec: opening a scope pushes it on the stack of open
    scopes (spec 4.1). *)
Definition open_scope (name : string) : M (napi_status * napi_handle_scope) :=
  log name;;;
  s <- get fresh_scope;;
  modify (upd_scopes (cons s));;;
  ret (napi_ok, s).

(** Modelled from the spec: closing the innermost scope pops it; scopes
    nest strictly (spec 4.1). *)
Definition close_scope (name : string) (s : napi_handle_scope) : M napi_status :=
  log name;;;
  top <- get (fun w => head (scopes w));;
  if decide (top = Some s) then modify (upd_scopes tail);;; ret napi_ok
  else r <- abi_fail napi_invalid_arg tt;; ret (fst r).

(** Modelled from the spec: the scope entry points (spec 4.1, 4.2). *)
Definition napi_open_handle_scope (env : napi_env) := open_scope "napi_open_handle_scope".
Definition napi_close_handle_scope (env : napi_env) :=
  close_scope "napi_close_handle_scope".
Definition napi_open_escapable_handle_scope (env : napi_env) :=
  open_scope "napi_open_escapable_handle_scope".
Definition napi_close_escapable_handle_scope (env : napi_env) :=
  close_scope "napi_close_escapable_handle_scope".

(** Modelled from the spec: promoting a handle to the parent scope (spec
    4.2). *)
Definition napi_escape_handle (env : napi_env) (scope : napi_handle_scope)
    (escapee : napi_value) : M (napi_status * napi_value) :=
  log "napi_escape_handle";;; ret (napi_ok, escapee).

(** Modelled from the spec: a root with a positive count holds the value
    (spec 3: count at least 1 is strong). *)
Definition strongly_held (w : world) (v : napi_value) : bool :=
  bool_decide (map_Exists (fun _ (rc : napi_value * Z) => rc.1 = v /\ 0 < rc.2)
                          (references w)).

(** Modelled from the spec: a root loses its target when the referent is
    collected (spec 3). *)
Definition clear_target (v : napi_value) (rc : napi_value * Z) : napi_value * Z :=
  if decide (rc.1 = v) then (nullptr, rc.2) else rc.

(** Modelled from the spec: collection of a value by the host (spec 3,
    4.4): refused while a strong root holds it; otherwise the value
    disappears, weak roots of it lose their target and its wrap entry is
    dropped. *)
Definition host_collect (v : napi_value) (w : world) : world :=
  if strongly_held w v then w
  else upd_values (delete v)
         (upd_references (fmap (clear_target v))
            (upd_wrapped (delete v) w)).

(** ** The native heap *)

(** [new]: the object is stored at an unused address. *)
Definition native_new (o : native_obj) : M ptr :=
  p <- get fresh_ptr;;
  modify (upd_native (insert p o));;;
  ret p.

(** [delete]: nothing for a null pointer; releasing storage that is not
    allocated is undefined. *)
Definition native_delete (p : ptr) : M unit :=
  if Nat.eqb p nullptr then ret tt
  else
    x <- get (fun w => native w !! p);;
    match x with
    | Some _ => modify (upd_native (delete p))
    | None => fault
    end.

(** Access through a pointer; undefined when nothing is allocated
    there. *)
Definition native_load (p : ptr) : M native_obj :=
  x <- get (fun w => native w !! p);;
  match x with
  | Some o => ret o
  | None => fault
  end.

(** * The wrapper layer, from src/napi-inl.h *)

Section NapiInl.

(** Declared in napi.h, of which only the inline part [napi-inl.h] is at
    hand: the size of the fixed-size argument array of [CallbackInfo],
    and the value the member [_suppressDestruct] has after a [Reference]
    constructor that has no initializer for it. *)
Variable _staticArgCount : Z.
Variable uninitialized_suppressDestruct : bool.

(** User code, addressed through function pointers: a [FunctionCallback],
    an [InstanceMethodCallback] of the wrapped class [T] (called on the
    instance at the given address), and the constructor [T(const
    CallbackInfo&)] running on freshly allocated storage. *)
Variable call_FunctionCallback : fnptr -> CallbackInfo.t -> M napi_value.
Variable call_InstanceMethodCallback : fnptr -> ptr -> CallbackInfo.t -> M napi_value.
Variable construct_T : ptr -> CallbackInfo.t -> M unit.

(** ** Env *)

Definition Env_IsExceptionPending (env : napi_env) : M bool :=
  r <- napi_is_exception_pending env;;
  let '(status, result) := r in
  if decide (status <> napi_ok) then ret false else ret result.

(** ** Error *)

(** [assert(status == napi_ok)]. *)
Definition assert_ok (status : napi_status) : M unit :=
  if decide (status = napi_ok) then ret tt else fault.

Definition Error_New (env : napi_env) : M Error.t :=
  pend <- Env_IsExceptionPending env;;
  error <-
    (if pend then
       r <- napi_get_and_clear_last_exception env;;
       ret (if decide (r.1 = napi_ok) then r.2 else nullptr)
     else
       info <- napi_get_last_error_info;;
       let error_message :=
         match error_message info with
         | Some m => m
         | None => "Error in native callback"%string
         end in
       r <- napi_create_string_utf8 env error_message (String.length error_message);;
       let '(status, message) := r in
       assert_ok status;;;
       if decide (status = napi_ok) then
         r <- (match error_code info with
               | napi_object_expected
               | napi_string_expected
               | napi_boolean_expected
               | napi_number_expected => napi_create_type_error env message
               | _ => napi_create_error env message
               end);;
         let '(status, error) := r in
         assert_ok status;;;
         ret error
       else ret nullptr);;
  ret (Error.mk env error EmptyString).

(** [if (status != napi_ok) throw Error::New(env);] *)
Definition check_status (env : napi_env) (status : napi_status) : M unit :=
  if decide (status <> napi_ok) then e <- Error_New env;; throw e else ret tt.

(** The template [Error::New<TError>(env, message, length, create_error)]. *)
Definition Error_New_with
    (create_error : napi_env -> napi_value -> M (napi_status * napi_value))
    (env : napi_env) (message : string) (length : nat) : M Error.t :=
  r <- napi_create_string_utf8 env message length;;
  let '(status, str) := r in
  check_status env status;;;
  r <- create_error env str;;
  let '(status, error) := r in
  check_status env status;;;
  ret (Error.mk env error EmptyString).

(** [Error::New(napi_env, const std::string&)]. *)
Definition Error_New_message (env : napi_env) (message : string) : M Error.t :=
  Error_New_with napi_create_error env message (String.length message).

Definition TypeError_New (env : napi_env) (message : string) : M Error.t :=
  Error_New_with napi_create_type_error env message (String.length message).

Definition RangeError_New (env : napi_env) (message : string) : M Error.t :=
  Error_New_with napi_create_range_error env message (String.length message).

Definition Error_ThrowAsJavaScriptException (e : Error.t) : M unit :=
  if negb (Nat.eqb (Error._value e) nullptr) then
    napi_throw (Error._env e) (Error._value e);;; ret tt
  else ret tt.

Definition Env_Global (env : napi_env) : M Value.t :=
  r <- napi_get_global env;;
  let '(status, value) := r in
  check_status env status;;;
  ret (Value.mk env value).

Definition Env_Undefined (env : napi_env) : M Value.t :=
  r <- napi_get_undefined env;;
  let '(status, value) := r in
  check_status env status;;;
  ret (Value.mk env value).

Definition Env_Null (env : napi_env) : M Value.t :=
  r <- napi_get_null env;;
  let '(status, value) := r in
  check_status env status;;;
  ret (Value.mk env value).

(** ** Value *)

Definition Value_Type (v : Value.t) : M napi_valuetype :=
  if Nat.eqb (Value._value v) nullptr then ret napi_undefined
  else
    r <- napi_typeof (Value._env v) (Value._value v);;
    let '(status, type) := r in
    check_status (Value._env v) status;;;
    ret type.

Definition Value_IsUndefined (v : Value.t) : M bool :=
  t <- Value_Type v;; ret (bool_decide (t = napi_undefined)).

Definition Value_IsNull (v : Value.t) : M bool :=
  t <- Value_Type v;; ret (bool_decide (t = napi_null)).

(** ** Reference<T> *)

(** [Reference<T>::Reference()]. *)
Definition Reference_default : Reference.t :=
  Reference.mk nullptr nullptr false.

(** [Reference<T>::Reference(napi_env, napi_ref)]: no initializer for
    [_suppressDestruct]. *)
Definition Reference_ctor (env : napi_env) (persistent : napi_ref) : Reference.t :=
  Reference.mk env persistent uninitialized_suppressDestruct.

Definition Reference_New (value : Value.t) (initialRefcount : Z) : M Reference.t :=
  let env := Value._env value in
  let val := Value._value value in
  if Nat.eqb val nullptr then ret (Reference_ctor env nullptr)
  else
    r <- napi_create_reference env val initialRefcount;;
    let '(status, ref) := r in
    check_status env status;;;
    ret (Reference_ctor env ref).

(** [~Reference()]; the status of the delete is not looked at. *)
Definition Reference_dtor (this : Reference.t) : M unit :=
  if negb (Nat.eqb (Reference._ref this) nullptr) then
    if negb (Reference._suppressDestruct this) then
      napi_delete_reference (Reference._env this) (Reference._ref this);;; ret tt
    else ret tt
  else ret tt.

(** [Reference(Reference&& other)]: the new object and what is left of
    [other]. *)
Definition Reference_move_ctor (other : Reference.t) : Reference.t * Reference.t :=
  (Reference.mk (Reference._env other) (Reference._ref other)
                uninitialized_suppressDestruct,
   Reference.mk nullptr nullptr (Reference._suppressDestruct other)).

(** [operator=(Reference&& other)]: the assigned object and what is left
    of [other]. *)
Definition Reference_move_assign (this other : Reference.t)
    : Reference.t * Reference.t :=
  (Reference.mk (Reference._env other) (Reference._ref other)
                (Reference._suppressDestruct this),
   Reference.mk nullptr nullptr (Reference._suppressDestruct other)).

Definition Reference_IsEmpty (this : Reference.t) : bool :=
  Nat.eqb (Reference._ref this) nullptr.

Definition Reference_Value (this : Reference.t) : M Value.t :=
  if Nat.eqb (Reference._ref this) nullptr then
    ret (Value.mk (Reference._env this) nullptr)
  else
    r <- napi_get_reference_value (Reference._env this) (Reference._ref this);;
    let '(status, value) := r in
    check_status (Reference._env this) status;;;
    ret (Value.mk (Reference._env this) value).

Definition Reference_Ref (this : Reference.t) : M Z :=
  r <- napi_reference_ref (Reference._env this) (Reference._ref this);;
  let '(status, result) := r in
  check_status (Reference._env this) status;;;
  ret result.

Definition Reference_Unref (this : Reference.t) : M Z :=
  r <- napi_reference_unref (Reference._env this) (Reference._ref this);;
  let '(status, result) := r in
  check_status (Reference._env this) status;;;
  ret result.

(** [Reset()]: returns the object as the call leaves it. *)
Definition Reference_Reset (this : Reference.t) : M Reference.t :=
  if negb (Nat.eqb (Reference._ref this) nullptr) then
    status <- napi_delete_reference (Reference._env this) (Reference._ref this);;
    check_status (Reference._env this) status;;;
    ret (Reference.mk (Reference._env this) nullptr (Reference._suppressDestruct this))
  else ret this.

(** [Reset(const T& value, int refcount)]. *)
Definition Reference_Reset_value (this : Reference.t) (value : Value.t)
    (refcount : Z) : M Reference.t :=
  this <- Reference_Reset this;;
  let this := Reference.mk (Value._env value) (Reference._ref this)
                           (Reference._suppressDestruct this) in
  let val := Value._value value in
  if negb (Nat.eqb val nullptr) then
    r <- napi_create_reference (Reference._env this) val refcount;;
    let '(status, ref) := r in
    check_status (Reference._env this) status;;;
    ret (Reference.mk (Reference._env this) ref (Reference._suppressDestruct this))
  else ret this.

Definition Reference_SuppressDestruct (this : Reference.t) : Reference.t :=
  Reference.mk (Reference._env this) (Reference._ref this) true.

Definition Weak (value : Value.t) : M Reference.t := Reference_New value 0.
Definition Persistent (value : Value.t) : M Reference.t := Reference_New value 1.

(** ** HandleScope and EscapableHandleScope *)

Definition HandleScope_ctor (env : napi_env) : M HandleScope.t :=
  r <- napi_open_handle_scope env;;
  let '(status, scope) := r in
  check_status env status;;;
  ret (HandleScope.mk env scope).

Definition HandleScope_dtor (this : HandleScope.t) : M unit :=
  napi_close_handle_scope (HandleScope._env this) (HandleScope._scope this);;; ret tt.

Definition EscapableHandleScope_ctor (env : napi_env) : M HandleScope.t :=
  r <- napi_open_escapable_handle_scope env;;
  let '(status, scope) := r in
  check_status env status;;;
  ret (HandleScope.mk env scope).

Definition EscapableHandleScope_dtor (this : HandleScope.t) : M unit :=
  napi_close_escapable_handle_scope (HandleScope._env this) (HandleScope._scope this);;;
  ret tt.

Definition EscapableHandleScope_Escape (this : HandleScope.t) (escapee : napi_value)
    : M Value.t :=
  r <- napi_escape_handle (HandleScope._env this) (HandleScope._scope this) escapee;;
  let '(status, result) := r in
  check_status (HandleScope._env this) status;;;
  ret (Value.mk (HandleScope._env this) result).

(** ** CallbackInfo *)

Definition CallbackInfo_ctor (env : napi_env) (info : napi_callback_info)
    : M CallbackInfo.t :=
  r <- napi_get_cb_this env info;;
  let '(status, this) := r in
  check_status env status;;;
  r <- napi_get_cb_args_length env info;;
  let '(status, argc) := r in
  check_status env status;;;
  a <-
    (if 0 <? argc then
       if argc <=? _staticArgCount then
         r <- napi_get_cb_args env info argc;;
         let '(status, filled) := r in
         check_status env status;;;
         ret (argv_static, filled, nullptr)
       else
         dynamicArgs <- native_new (NArgArray []);;
         r <- napi_get_cb_args env info argc;;
         let '(status, filled) := r in
         modify (upd_native (insert dynamicArgs (NArgArray filled)));;;
         check_status env status;;;
         ret (argv_dynamic, [], dynamicArgs)
     else ret (argv_unset, [], nullptr));;
  let '(argv, staticArgs, dynamicArgs) := a in
  r <- napi_get_cb_data env info;;
  let '(status, data) := r in
  check_status env status;;;
  ret (CallbackInfo.mk env this argc argv staticArgs dynamicArgs data).

Definition CallbackInfo_dtor (this : CallbackInfo.t) : M unit :=
  if negb (Nat.eqb (CallbackInfo._dynamicArgs this) nullptr) then
    native_delete (CallbackInfo._dynamicArgs this)
  else ret tt.

Definition CallbackInfo_Env (this : CallbackInfo.t) : napi_env :=
  CallbackInfo._env this.

Definition CallbackInfo_Length (this : CallbackInfo.t) : Z :=
  CallbackInfo._argc this.

(** The read [_argv[index]]: a fault when [_argv] was never set, when the
    index is outside the written part of the array, or when the heap
    array is gone. *)
Definition read_argv (this : CallbackInfo.t) (index : Z) : M napi_value :=
  if index <? 0 then fault
  else
    match CallbackInfo._argv this with
    | argv_unset => fault
    | argv_static =>
        match CallbackInfo._staticArgs this !! Z.to_nat index with
        | Some v => ret v
        | None => fault
        end
    | argv_dynamic =>
        o <- native_load (CallbackInfo._dynamicArgs this);;
        match o with
        | NArgArray elems =>
            match elems !! Z.to_nat index with
            | Some v => ret v
            | None => fault
            end
        | _ => fault
        end
    end.

(** [operator [](int index)]. *)
Definition CallbackInfo_index (this : CallbackInfo.t) (index : Z) : M Value.t :=
  if index <? CallbackInfo._argc this then
    v <- read_argv this index;;
    ret (Value.mk (CallbackInfo._env this) v)
  else Env_Undefined (CallbackInfo_Env this).

Definition CallbackInfo_This (this : CallbackInfo.t) : M Value.t :=
  if Nat.eqb (CallbackInfo._this this) nullptr then
    Env_Global (CallbackInfo_Env this)
  else ret (Value.mk (CallbackInfo._env this) (CallbackInfo._this this)).

Definition CallbackInfo_Data (this : CallbackInfo.t) : ptr :=
  CallbackInfo._data this.

Definition CallbackInfo_SetData (this : CallbackInfo.t) (data : ptr) : CallbackInfo.t :=
  CallbackInfo.mk (CallbackInfo._env this) (CallbackInfo._this this)
    (CallbackInfo._argc this) (CallbackInfo._argv this)
    (CallbackInfo._staticArgs this) (CallbackInfo._dynamicArgs this) data.

(** ** Function *)

(** The members of a [CallbackData] object. *)
Definition load_CallbackData (p : ptr) : M (fnptr * ptr) :=
  o <- native_load p;;
  match o with
  | NCallbackData callback data => ret (callback, data)
  | _ => fault
  end.

(** [Function::New(env, FunctionCallback cb, const char* utf8name, data)]. *)
Definition Function_New (env : napi_env) (cb : fnptr) (utf8name : string)
    (data : ptr) : M Value.t :=
  callbackData <- native_new (NCallbackData cb data);;
  r <- napi_create_function env utf8name FunctionCallbackWrapper_entry callbackData;;
  let '(status, value) := r in
  check_status env status;;;
  ret (Value.mk env value).

(** [Function::MakeCallback(napi_value recv, const std::vector<napi_value>&)]. *)
Definition Function_MakeCallback (this : Value.t) (recv : napi_value)
    (args : list napi_value) : M Value.t :=
  r <- napi_make_callback (Value._env this) recv (Value._value this) args;;
  let '(status, result) := r in
  check_status (Value._env this) status;;;
  ret (Value.mk (Value._env this) result).

(** The handler of every trampoline:
    [catch (const Error& e) { if (!Env(env).IsExceptionPending()) e.ThrowAsJavaScriptException(); }] *)
Definition catch_Error (env : napi_env) (e : Error.t) : M unit :=
  pend <- Env_IsExceptionPending env;;
  if negb pend then Error_ThrowAsJavaScriptException e else ret tt.

(** The [try] block of a trampoline yields [Some result] when it runs to
    its end and [None] when the handler returned from the trampoline. *)
Definition FunctionCallbackWrapper (env : napi_env) (info : napi_callback_info)
    : M unit :=
  tried <-
    try_catch
      (callbackInfo <- CallbackInfo_ctor env info;;
       scoped
         (callbackData <- load_CallbackData (CallbackInfo_Data callbackInfo);;
          result <- call_FunctionCallback callbackData.1 callbackInfo;;
          ret (Some result))
         (CallbackInfo_dtor callbackInfo))
      (fun e => catch_Error env e;;; ret None);;
  match tried with
  | None => ret tt
  | Some result =>
      status <- napi_set_return_value env info result;;
      ret tt
  end.

(** [FunctionReference::MakeCallback(napi_value recv, const std::vector<napi_value>&)]. *)
Definition FunctionReference_MakeCallback (this : Reference.t) (recv : napi_value)
    (args : list napi_value) : M Value.t :=
  scope <- EscapableHandleScope_ctor (Reference._env this);;
  scoped
    (f <- Reference_Value this;;
     v <- Function_MakeCallback f recv args;;
     EscapableHandleScope_Escape scope (Value._value v))
    (EscapableHandleScope_dtor scope).

(** ** Module registration *)

Definition RegisterModule (env : napi_env) (exports module : napi_value)
    (registerCallback : napi_env -> Value.t -> Value.t -> M unit) : M unit :=
  try_catch
    (registerCallback env (Value.mk env exports) (Value.mk env module))
    (fun e => catch_Error env e).

(** ** ObjectWrap<T> *)

Definition ObjectWrap_Unwrap (wrapper : Value.t) : M ptr :=
  r <- napi_unwrap (Value._env wrapper) (Value._value wrapper);;
  let '(status, unwrapped) := r in
  check_status (Value._env wrapper) status;;;
  ret unwrapped.

Definition ObjectWrap_DefineClass (env : napi_env) (utf8name : string)
    (properties : list napi_property_descriptor) (data : ptr) : M Value.t :=
  r <- napi_define_class env utf8name ConstructorCallbackWrapper_entry data properties;;
  let '(status, value) := r in
  check_status env status;;;
  ret (Value.mk env value).

(** [InstanceMethod(utf8name, InstanceMethodCallback method, attributes, data)]. *)
Definition ObjectWrap_InstanceMethod (utf8name : string) (method : fnptr)
    (attributes : Z) (data : ptr) : M napi_property_descriptor :=
  callbackData <- native_new (NCallbackData method data);;
  ret (mk_descriptor utf8name (Some InstanceMethodCallbackWrapper_entry)
                     nullptr attributes callbackData).

(** [delete instance]: the base destructor [~Reference<Object>], then the
    storage. *)
Definition delete_instance (instance : ptr) : M unit :=
  o <- native_load instance;;
  match o with
  | NInstance base => Reference_dtor base;;; native_delete instance
  | _ => fault
  end.

(** [new T(callbackInfo)]: storage, the base [ObjectWrap<T>()] (an empty
    [Reference<Object>]), the user's constructor; when that throws, the
    base is destroyed and the storage released. *)
Definition new_T (callbackInfo : CallbackInfo.t) : M ptr :=
  instance <- native_new (NInstance Reference_default);;
  try_catch
    (construct_T instance callbackInfo;;; ret instance)
    (fun e => delete_instance instance;;; throw e).

(** [*instanceRef = Reference<Object>(env, ref);] *)
Definition assign_instance_ref (instance : ptr) (env : napi_env) (ref : napi_ref)
    : M unit :=
  o <- native_load instance;;
  match o with
  | NInstance base =>
      let '(base', temporary) := Reference_move_assign base (Reference_ctor env ref) in
      modify (upd_native (insert instance (NInstance base')));;;
      Reference_dtor temporary
  | _ => fault
  end.

Definition ConstructorCallbackWrapper (env : napi_env) (info : napi_callback_info)
    : M unit :=
  r <- napi_is_construct_call env info;;
  let '(status, isConstructCall) := r in
  if decide (status <> napi_ok) then ret tt
  else if negb isConstructCall then
    napi_throw_type_error env
      "Class constructors cannot be invoked without 'new'";;;
    ret tt
  else
    tried <-
      try_catch
        (callbackInfo <- CallbackInfo_ctor env info;;
         scoped
           (instance <- new_T callbackInfo;;
            wrapper <- CallbackInfo_This callbackInfo;;
            ret (Some (instance, Value._value wrapper)))
           (CallbackInfo_dtor callbackInfo))
        (fun e => catch_Error env e;;; ret None);;
    match tried with
    | None => ret tt
    | Some (instance, wrapper) =>
        r <- napi_wrap env wrapper instance FinalizeCallback_entry nullptr;;
        let '(status, ref) := r in
        if decide (status <> napi_ok) then ret tt
        else
          assign_instance_ref instance env ref;;;
          status <- napi_set_return_value env info wrapper;;
          ret tt
    end.

Definition InstanceMethodCallbackWrapper (env : napi_env) (info : napi_callback_info)
    : M unit :=
  tried <-
    try_catch
      (callbackInfo <- CallbackInfo_ctor env info;;
       scoped
         (callbackData <- load_CallbackData (CallbackInfo_Data callbackInfo);;
          let callbackInfo := CallbackInfo_SetData callbackInfo callbackData.2 in
          this <- CallbackInfo_This callbackInfo;;
          instance <- ObjectWrap_Unwrap this;;
          result <- call_InstanceMethodCallback callbackData.1 instance callbackInfo;;
          ret (Some result))
         (CallbackInfo_dtor callbackInfo))
      (fun e => catch_Error env e;;; ret None);;
  match tried with
  | None => ret tt
  | Some result =>
      status <- napi_set_return_value env info result;;
      ret tt
  end.

Definition FinalizeCallback (data hint : ptr) : M unit :=
  delete_instance data.

(** ** AsyncWorker *)

Definition AsyncWorker_Env (this : AsyncWorker.t) : napi_env :=
  AsyncWorker._env this.

Definition AsyncWorker_OnOK (this : AsyncWorker.t) : M unit :=
  global <- Env_Global (AsyncWorker_Env this);;
  FunctionReference_MakeCallback (AsyncWorker._callback this)
    (Value._value global) [];;;
  ret tt.

(** The arguments of [MakeCallback] are evaluated from left to right. *)
Definition AsyncWorker_OnError (this : AsyncWorker.t) : M unit :=
  global <- Env_Global (AsyncWorker_Env this);;
  e <- Error_New_message (AsyncWorker_Env this) (AsyncWorker._errmsg this);;
  FunctionReference_MakeCallback (AsyncWorker._callback this)
    (Value._value global) [Error._value e];;;
  ret tt.

Definition AsyncWorker_WorkComplete (this : AsyncWorker.t) : M unit :=
  scope <- HandleScope_ctor (AsyncWorker._env this);;
  scoped
    (if Nat.eqb (String.length (AsyncWorker._errmsg this)) 0 then AsyncWorker_OnOK this
     else AsyncWorker_OnError this)
    (HandleScope_dtor scope).

Definition AsyncWorker_SetErrorMessage (this : AsyncWorker.t) (msg : string)
    : AsyncWorker.t :=
  AsyncWorker.mk (AsyncWorker._env this) (AsyncWorker._work this)
    (AsyncWorker._callback this) (AsyncWorker._persistent this) msg.

(** [OnWorkComplete(void* this_pointer)], the completion hook. *)
Definition AsyncWorker_OnWorkComplete (self : AsyncWorker.t) : M unit :=
  AsyncWorker_WorkComplete self.

(** [AsyncWorker(AsyncWorker&& other)]: the members are
    default-constructed, then [_env], [_work], [_persistent] and
    [_errmsg] are taken from [other]; [_callback] is not mentioned.  The
    result is the new worker and what is left of [other], whose string
    is in the state the given [leftover] stands for. *)
Definition AsyncWorker_move_ctor (leftover : string) (other : AsyncWorker.t)
    : AsyncWorker.t * AsyncWorker.t :=
  let '(persistent, other_persistent) :=
    Reference_move_assign Reference_default (AsyncWorker._persistent other) in
  (AsyncWorker.mk (AsyncWorker._env other) (AsyncWorker._work other)
     Reference_default persistent (AsyncWorker._errmsg other),
   AsyncWorker.mk nullptr nullptr (AsyncWorker._callback other)
     other_persistent leftover).

(** [operator=(AsyncWorker&& other)]. *)
Definition AsyncWorker_move_assign (leftover : string) (this other : AsyncWorker.t)
    : AsyncWorker.t * AsyncWorker.t :=
  let '(persistent, other_persistent) :=
    Reference_move_assign (AsyncWorker._persistent this)
                          (AsyncWorker._persistent other) in
  (AsyncWorker.mk (AsyncWorker._env other) (AsyncWorker._work other)
     (AsyncWorker._callback this) persistent (AsyncWorker._errmsg other),
   AsyncWorker.mk nullptr nullptr (AsyncWorker._callback other)
     other_persistent leftover).

(* definitions end *)

(** * Vocabulary of the statements *)

(** A reference is usable when it is empty or its root is live. *)
Definition valid_reference (w : world) (r : Reference.t) : Prop :=
  Reference._ref r = nullptr \/ is_Some (references w !! Reference._ref r).

(** The referent of a live root has been collected. *)
Definition referent_collected (w : world) (r : Reference.t) : Prop :=
  Reference._ref r <> nullptr /\
  exists count, references w !! Reference._ref r = Some (nullptr, count).

(** The entries appended to the ABI log between two states. *)
Definition logged_since (w w' : world) (l : list string) : Prop :=
  abi_log w' = abi_log w ++ l.

(** Where the constructor leaves the marshaled arguments. *)
Definition holds_arguments (this : CallbackInfo.t) (w : world)
    (args : list napi_value) : Prop :=
  match CallbackInfo._argv this with
  | argv_unset => args = []
  | argv_static => CallbackInfo._staticArgs this = args
  | argv_dynamic =>
      native w !! CallbackInfo._dynamicArgs this = Some (NArgArray args)
  end.

(** The status codes the claim calls argument-type-expectation codes:
    object, string, boolean or number expected. *)
Definition expects_argument_type (st : napi_status) : bool :=
  bool_decide (st ∈ [napi_object_expected; napi_string_expected;
                     napi_boolean_expected; napi_number_expected]).

(** The kind of host error [Error::New(env)] synthesizes for a status. *)
Definition synthesized_kind (st : napi_status) : error_kind :=
  if expects_argument_type st then type_error else generic_error.

(** The message [Error::New(env)] synthesizes from the last-error info. *)
Definition synthesized_message (info : napi_extended_error_info) : string :=
  match error_message info with
  | Some m => m
  | None => "Error in native callback"%string
  end.

(** What the handler of a trampoline does with a caught error [e],
    between the state [w] in which it is caught and the state [wf] in
    which control returns to the host: the error is thrown into the host
    exactly when no host exception is pending and [e] wraps a host value;
    it is then the pending exception, and otherwise the pending exception
    is what it was. *)
Definition handled_at_boundary (e : Error.t) (w wf : world) : Prop :=
  exists l,
    logged_since w wf l /\
    ("napi_throw"%string ∈ l <->
       pending w = nullptr /\ Error._value e <> nullptr) /\
    ("napi_throw"%string ∈ l -> pending wf = Error._value e) /\
    ("napi_throw"%string ∉ l -> pending wf = pending w).

(** The claim as the specification words it: thrown into the host if and
    only if no host exception is pending. *)
Definition thrown_iff_none_pending (w wf : world) : Prop :=
  exists l,
    logged_since w wf l /\
    ("napi_throw"%string ∈ l <-> pending w = nullptr).

(** The state [w'] differs from [w] at most by new host values, the
    pending exception, the last-error info and the log of ABI calls:
    roots, wrap table, scopes, return slot, recorded calls and the native
    heap are the same, and every value of [w] is still there. *)
Definition only_adds_values (w w' : world) : Prop :=
  references w' = references w /\
  wrapped w' = wrapped w /\
  scopes w' = scopes w /\
  return_value w' = return_value w /\
  calls w' = calls w /\
  native w' = native w /\
  forall v y, lookup_value w v = Some y -> lookup_value w' v = Some y.

(** The host value of a native error: a host error of a kind with a
    message. *)
Definition is_host_error (w : world) (e : Error.t) (kind : error_kind)
    (message : string) : Prop :=
  exists m,
    lookup_value w (Error._value e) = Some (JsError kind m) /\
    lookup_value w m = Some (JsString message).

(** User code of a module registration: [throw make(env, message);] for
    one of the error factories, and [throw Error::New(env);]. *)
Definition throws_new (make : napi_env -> string -> M Error.t) (message : string)
    (env : napi_env) (_ _ : Value.t) : M unit :=
  err <- make env message;; throw err.

Definition throws_last_error (env : napi_env) (_ _ : Value.t) : M unit :=
  err <- Error_New env;; throw err.

(** A computation ended by returning or by throwing, not by undefined
    behaviour. *)
Definition no_fault {A} (r : outcome A) : Prop :=
  match r with
  | Fault => False
  | _ => True
  end.

(** * Concrete inputs *)

Definition no_error : napi_extended_error_info := mk_error_info None napi_ok.

(** An environment pointer. *)
Definition env0 : nat := 7%nat.

(** A host with a script function at handle 4 and a plain object at
    handle 5; root 1 holds the function with count 1, root 2 holds the
    object weakly. *)
Definition host1 : world :=
  mk_world (<[4%nat := JsScriptFunction]> (<[5%nat := JsObject]> ∅))
           nullptr no_error
           (<[1%nat := (4%nat, 1)]> (<[2%nat := (5%nat, 0)]> ∅))
           ∅ [] nullptr [] ∅ [].

(** The same host with a [CallbackData] at address 9 of the native heap,
    naming the user function at address 1, and the object at handle 5
    wrapping the native instance at address 8. *)
Definition host2 : world :=
  upd_wrapped (insert 5%nat 8%nat)
    (upd_native (insert 9%nat (NCallbackData 1%nat nullptr)) host1).

Definition function_root : Reference.t := Reference.mk env0 1%nat false.
Definition object_root : Reference.t := Reference.mk env0 2%nat false.
Definition empty_value : Value.t := Value.mk env0 nullptr.

(** A call frame with receiver 5, the arguments 4 and 5, and the
    [CallbackData] at address 9 as data. *)
Definition frame2 : napi_callback_info :=
  mk_callback_info 5%nat [4%nat; 5%nat] 9%nat false.

(** The host of [host1] with the object at handle 5 pending as an
    exception. *)
Definition host_pending : world := set_pending 5%nat host1.

(** The host of [host1] after an ABI call failed with "string
    expected". *)
Definition host_failed : world :=
  set_last_error (mk_error_info (status_message napi_string_expected)
                                napi_string_expected) host1.

(** User code that throws a given error: a function callback, an
    instance method, a module registration function and a constructor. *)
Definition throwing_function (e : Error.t) (_ : nat) (_ : CallbackInfo.t) : M nat :=
  throw e.
Definition throwing_method (e : Error.t) (_ _ : nat) (_ : CallbackInfo.t) : M nat :=
  throw e.
Definition throwing_registration (e : Error.t) (_ : nat) (_ _ : Value.t) : M unit :=
  throw e.
Definition throwing_constructor (e : Error.t) (_ : nat) (_ : CallbackInfo.t) : M unit :=
  throw e.

(** An error wrapping the host object at handle 5, and an error without
    underlying host value. *)
Definition wrapping_error : Error.t := Error.mk env0 5%nat EmptyString.
Definition unwrapped_error : Error.t := Error.mk env0 nullptr EmptyString.

(** A queued worker whose completion callback is the function held by
    root 1. *)
Definition worker (errmsg : string) : AsyncWorker.t :=
  AsyncWorker.mk env0 1%nat function_root Reference_default errmsg.

(** A user constructor that returns normally, a bare call and a
    construct call on the object at handle 5. *)
Definition plain_constructor (_ : nat) (_ : CallbackInfo.t) : M unit := ret tt.
Definition bare_call : napi_callback_info :=
  mk_callback_info 5%nat [4%nat] nullptr false.
Definition construct_call : napi_callback_info :=
  mk_callback_info 5%nat [4%nat] nullptr true.

(** User code that returns a given handle: a function callback and an
    instance method. *)
Definition returning_function (v : nat) (_ : nat) (_ : CallbackInfo.t) : M nat :=
  ret v.
Definition returning_method (v : nat) (_ _ : nat) (_ : CallbackInfo.t) : M nat :=
  ret v.

(** The host of [host2] with the native instance at address 8 in place,
    whose base reference is root 2. *)
Definition host3 : world :=
  upd_native (insert 8%nat (NInstance object_root)) host2.

(** The host of [host1] with the [CallbackData] of an instance method at
    address 9; no object wraps a native instance. *)
Definition host_unwrapped : world :=
  upd_native (insert 9%nat (NCallbackData 1%nat nullptr)) host1.

(** * Properties *)

Create HintDb napi.
#[local] Hint Unfold bind ret get modify log throw fault abi_fail new_value : napi.

(** Unfolds the monad and simplifies one step of a computation. *)
Ltac step := autounfold with napi; simpl.

Arguments fresh_value : simpl never.
Arguments fresh_ref : simpl never.
Arguments fresh_ptr : simpl never.
Arguments fresh_scope : simpl never.
Arguments lookup_value : simpl never.
Arguments String.substring : simpl never.

(** ** Facts about the host model *)

Lemma fresh_value_not_reserved (w : world) : fresh_value w ∉ reserved_handles.
Proof.
  unfold fresh_value. intros H.
  apply (is_fresh (reserved_handles ∪ dom (values w))).
  by apply elem_of_union_l.
Qed.

Lemma fresh_value_not_in_dom (w : world) : values w !! fresh_value w = None.
Proof.
  unfold fresh_value.
  pose proof (is_fresh (reserved_handles ∪ dom (values w))) as Hf.
  apply not_elem_of_dom. set_solver.
Qed.

Lemma fresh_value_not_null (w : world) : fresh_value w <> nullptr.
Proof.
  pose proof (fresh_value_not_reserved w) as Hf.
  unfold reserved_handles in Hf. set_solver.
Qed.

Lemma lookup_value_unreserved (w : world) (v : napi_value) :
  v ∉ reserved_handles -> lookup_value w v = values w !! v.
Proof.
  intros Hv. unfold lookup_value.
  destruct (decide (v = h_undefined)) as [-> | _];
    [exfalso; apply Hv; unfold reserved_handles; set_solver |].
  destruct (decide (v = h_null)) as [-> | _];
    [exfalso; apply Hv; unfold reserved_handles; set_solver |].
  destruct (decide (v = h_global)) as [-> | _];
    [exfalso; apply Hv; unfold reserved_handles; set_solver |].
  reflexivity.
Qed.

Lemma lookup_value_is_Some_known (w : world) (v : napi_value) (x : js_value) :
  lookup_value w v = Some x -> v ∈ reserved_handles ∪ dom (values w).
Proof.
  unfold lookup_value, reserved_handles.
  destruct (decide (v = h_undefined)) as [-> | _]; [set_solver |].
  destruct (decide (v = h_null)) as [-> | _]; [set_solver |].
  destruct (decide (v = h_global)) as [-> | _]; [set_solver |].
  intros Hv. apply elem_of_union_r, elem_of_dom. eauto.
Qed.

Lemma lookup_value_new (w : world) (x : js_value) :
  lookup_value (upd_values (insert (fresh_value w) x) w) (fresh_value w) = Some x.
Proof.
  rewrite lookup_value_unreserved by apply fresh_value_not_reserved.
  simpl. apply lookup_insert_eq.
Qed.

Lemma lookup_value_kept (w : world) (v : napi_value) (x y : js_value) :
  lookup_value w v = Some y ->
  lookup_value (upd_values (insert (fresh_value w) x) w) v = Some y.
Proof.
  intros H. pose proof (lookup_value_is_Some_known _ _ _ H) as Hk.
  assert (fresh_value w <> v) as Hne.
  { intros <-. apply elem_of_union in Hk as [Hk | Hk].
    - by apply (fresh_value_not_reserved w).
    - apply elem_of_dom in Hk as [z Hz]. by rewrite fresh_value_not_in_dom in Hz. }
  revert H. unfold lookup_value.
  destruct (decide (v = h_undefined)); [done |].
  destruct (decide (v = h_null)); [done |].
  destruct (decide (v = h_global)); [done |].
  simpl. by rewrite lookup_insert_ne.
Qed.

Lemma substring_whole (s : string) : String.substring 0 (String.length s) s = s.
Proof.
  induction s as [| a s IH]; [reflexivity |].
  change (String a (String.substring 0 (String.length s) s) = String a s).
  by rewrite IH.
Qed.

Lemma fresh_ref_not_null (w : world) : fresh_ref w <> nullptr.
Proof.
  unfold fresh_ref.
  pose proof (is_fresh ({[ nullptr ]} ∪ dom (references w))) as Hf. set_solver.
Qed.

Lemma fresh_ptr_not_null (w : world) : fresh_ptr w <> nullptr.
Proof.
  unfold fresh_ptr.
  pose proof (is_fresh ({[ nullptr ]} ∪ dom (native w))) as Hf. set_solver.
Qed.

Lemma fresh_ptr_unused (w : world) : native w !! fresh_ptr w = None.
Proof.
  unfold fresh_ptr.
  pose proof (is_fresh ({[ nullptr ]} ∪ dom (native w))) as Hf.
  apply not_elem_of_dom. set_solver.
Qed.

Lemma eqb_nullptr_false (n : nat) : n <> nullptr -> Nat.eqb n nullptr = false.
Proof. intros H. by apply Nat.eqb_neq. Qed.

(** Collection never touches the native heap. *)
Lemma host_collect_native (v : napi_value) (w : world) :
  native (host_collect v w) = native w.
Proof. unfold host_collect. by destruct (strongly_held w v). Qed.

Lemma host_collect_values (v : napi_value) (w : world) :
  strongly_held w v = false -> values (host_collect v w) !! v = None.
Proof.
  intros H. unfold host_collect. rewrite H. simpl. apply lookup_delete_eq.
Qed.

Lemma host_collect_weak_reference (v : napi_value) (r : napi_ref) (w : world) :
  strongly_held w v = false ->
  references w !! r = Some (v, 0) ->
  references (host_collect v w) !! r = Some (nullptr, 0).
Proof.
  intros Hs Hr. unfold host_collect. rewrite Hs. simpl.
  rewrite lookup_fmap, Hr. simpl. unfold clear_target. simpl.
  by rewrite decide_True.
Qed.

(** ** Reference *)

(** C10: creating a reference from an empty value gives an empty
    reference and calls no ABI entry point at all (the state, which holds
    the log of ABI calls, is unchanged); [Reset(value, count)] with an
    empty value on a usable reference releases the prior root, leaves the
    reference empty and never calls [napi_create_reference]. *)
Theorem Reference_of_empty_value
    (value : Value.t) (count : Z) (this : Reference.t) (w : world) :
  Value._value value = nullptr ->
  valid_reference w this ->
  (exists r, Reference_New value count w = (Ok r, w) /\
             Reference_IsEmpty r = true) /\
  (exists this' w' l,
     Reference_Reset_value this value count w = (Ok this', w') /\
     Reference_IsEmpty this' = true /\
     Reference._env this' = Value._env value /\
     references w' =
       (if Reference_IsEmpty this then references w
        else delete (Reference._ref this) (references w)) /\
     logged_since w w' l /\
     "napi_create_reference"%string ∉ l).
Proof.
  intros Hv Hvalid. split.
  - exists (Reference_ctor (Value._env value) nullptr).
    unfold Reference_New. rewrite Hv. split; reflexivity.
  - unfold Reference_Reset_value, Reference_Reset, Reference_IsEmpty.
    rewrite Hv.
    destruct (Nat.eqb (Reference._ref this) nullptr) eqn:He.
    + step.
      exists (Reference.mk (Value._env value) (Reference._ref this)
                           (Reference._suppressDestruct this)), w, [].
      unfold logged_since. simpl.
      rewrite He, app_nil_r. repeat split; try reflexivity. apply not_elem_of_nil.
    + destruct Hvalid as [Hn | [rc Hrc]].
      { apply Nat.eqb_neq in He. contradiction. }
      unfold napi_delete_reference. step. rewrite Hrc. simpl.
      exists (Reference.mk (Value._env value) nullptr
                           (Reference._suppressDestruct this)).
      eexists _, ["napi_delete_reference"%string].
      unfold logged_since. simpl.
      repeat split; try reflexivity.
      intros Hin. apply list_elem_of_singleton in Hin. discriminate.
Qed.

Lemma Reference_Unref_run (this : Reference.t) (v : napi_value) (c : Z) (w : world) :
  references w !! Reference._ref this = Some (v, c) ->
  c <> 0 ->
  Reference_Unref this w =
    (Ok (c - 1),
     upd_references (insert (Reference._ref this) (v, c - 1))
       (add_log "napi_reference_unref" w)).
Proof.
  intros Hr Hc. unfold Reference_Unref, napi_reference_unref. step.
  rewrite Hr. simpl. apply Z.eqb_neq in Hc. by rewrite Hc.
Qed.

Lemma Reference_Ref_run (this : Reference.t) (v : napi_value) (c : Z) (w : world) :
  references w !! Reference._ref this = Some (v, c) ->
  Reference_Ref this w =
    (Ok (c + 1),
     upd_references (insert (Reference._ref this) (v, c + 1))
       (add_log "napi_reference_ref" w)).
Proof.
  intros Hr. unfold Reference_Ref, napi_reference_ref. step. by rewrite Hr.
Qed.

Lemma Reference_Value_run (this : Reference.t) (v : napi_value) (c : Z) (w : world) :
  Reference._ref this <> nullptr ->
  references w !! Reference._ref this = Some (v, c) ->
  Reference_Value this w =
    (Ok (Value.mk (Reference._env this) v), add_log "napi_get_reference_value" w).
Proof.
  intros Hn Hr. unfold Reference_Value, napi_get_reference_value.
  rewrite (eqb_nullptr_false _ Hn). step. by rewrite Hr.
Qed.

(** C7: on a live root at count 1, [Unref()] returns 0 and the following
    [Ref()] returns 1, the count is 1 again, and [Value()] still yields
    the referent, which the two calls leave in place. *)
Theorem Unref_then_Ref_restores_count
    (this : Reference.t) (v : napi_value) (x : js_value) (w : world) :
  Reference._ref this <> nullptr ->
  references w !! Reference._ref this = Some (v, 1) ->
  lookup_value w v = Some x ->
  exists w1 w2 w3,
    Reference_Unref this w = (Ok 0, w1) /\
    Reference_Ref this w1 = (Ok 1, w2) /\
    references w2 !! Reference._ref this = Some (v, 1) /\
    Reference_Value this w2 = (Ok (Value.mk (Reference._env this) v), w3) /\
    lookup_value w3 v = Some x.
Proof.
  intros Hn Hr Hx.
  pose proof (Reference_Unref_run this v 1 w Hr ltac:(lia)) as H1.
  set (w1 := upd_references _ _) in H1.
  assert (references w1 !! Reference._ref this = Some (v, 0)) as Hr1
    by apply lookup_insert_eq.
  pose proof (Reference_Ref_run this v 0 w1 Hr1) as H2.
  set (w2 := upd_references _ _) in H2.
  assert (references w2 !! Reference._ref this = Some (v, 1)) as Hr2
    by apply lookup_insert_eq.
  pose proof (Reference_Value_run this v 1 w2 Hn Hr2) as H3.
  exists w1, w2, (add_log "napi_get_reference_value" w2).
  repeat split; assumption.
Qed.

(** C5: [Value()] of an empty reference, and of a reference whose
    referent was collected, is the handle with a null underlying value,
    which [Type()] reports as undefined; neither call throws or faults.
    Collecting the referent of a weak root (count 0) leads to that state.
    For every usable reference [Value()] returns normally. *)
Theorem Value_of_collected_or_empty_reference (this : Reference.t) (w : world) :
  (Reference_IsEmpty this = true ->
     Reference_Value this w = (Ok (Value.mk (Reference._env this) nullptr), w)) /\
  (referent_collected w this ->
     exists w', Reference_Value this w =
                  (Ok (Value.mk (Reference._env this) nullptr), w')) /\
  (forall v, Reference._ref this <> nullptr ->
     references w !! Reference._ref this = Some (v, 0) ->
     strongly_held w v = false ->
     referent_collected (host_collect v w) this) /\
  (forall w', Value_IsUndefined (Value.mk (Reference._env this) nullptr) w'
              = (Ok true, w')) /\
  (valid_reference w this ->
     exists value w', Reference_Value this w = (Ok value, w')).
Proof.
  unfold Reference_IsEmpty, Reference_Value, napi_get_reference_value.
  repeat split.
  - intros He. by rewrite He.
  - intros [Hn [c Hc]]. rewrite (eqb_nullptr_false _ Hn). step.
    rewrite Hc. simpl. eauto.
  - assumption.
  - exists 0. by apply host_collect_weak_reference.
  - intros [Hn | [[v c] Hrc]].
    + apply Nat.eqb_eq in Hn. rewrite Hn. eauto.
    + destruct (Nat.eqb (Reference._ref this) nullptr); [eauto |].
      step. rewrite Hrc. simpl. eauto.
Qed.

(** ** CallbackInfo *)

Lemma napi_get_cb_args_exact (args : list napi_value) :
  take (Z.to_nat (Z.of_nat (length args)))
       (args ++ replicate (Z.to_nat (Z.of_nat (length args))) h_undefined) = args.
Proof. rewrite Nat2Z.id. apply take_app_length. Qed.

Lemma CallbackInfo_ctor_run (env : napi_env) (info : napi_callback_info) (w : world) :
  exists this w1,
    CallbackInfo_ctor env info w = (Ok this, w1) /\
    CallbackInfo._env this = env /\
    CallbackInfo._this this = cb_this info /\
    CallbackInfo._argc this = Z.of_nat (length (cb_args info)) /\
    CallbackInfo._data this = cb_data info /\
    holds_arguments this w1 (cb_args info).
Proof.
  unfold CallbackInfo_ctor, napi_get_cb_this, napi_get_cb_args_length,
    napi_get_cb_args, napi_get_cb_data, native_new, holds_arguments.
  step.
  destruct (0 <? Z.of_nat (length (cb_args info))) eqn:Hpos; simpl.
  - destruct (Z.of_nat (length (cb_args info)) <=? _staticArgCount); simpl.
    + eexists _, _. split; [reflexivity |]. simpl.
      rewrite napi_get_cb_args_exact. repeat split.
    + eexists _, _. split; [reflexivity |]. simpl.
      rewrite napi_get_cb_args_exact, lookup_insert_eq. repeat split.
  - eexists _, _. split; [reflexivity |]. simpl. repeat split.
    apply Z.ltb_ge in Hpos. destruct (cb_args info); [reflexivity | simpl in Hpos; lia].
Qed.

Lemma read_argv_in_range (this : CallbackInfo.t) (args : list napi_value)
    (index : Z) (v : napi_value) (w : world) :
  holds_arguments this w args ->
  0 <= index ->
  args !! Z.to_nat index = Some v ->
  read_argv this index w = (Ok v, w).
Proof.
  unfold holds_arguments, read_argv, native_load. intros Hh Hi Hv.
  apply Z.ltb_ge in Hi. rewrite Hi.
  destruct (CallbackInfo._argv this).
  - subst args. by rewrite lookup_nil in Hv.
  - by rewrite Hh, Hv.
  - step. by rewrite Hh, Hv.
Qed.

(** C9: for an index at or above [Length()], [operator[]] is
    [Env().Undefined()] whatever the argument array is (unset, short or
    released) and returns the undefined value; for an index in
    [0, Length()) of a [CallbackInfo] built from a call frame it returns
    the argument the host passed at that position, as long as the
    argument array the constructor filled is in place. *)
Theorem CallbackInfo_index_spec :
  (forall (this : CallbackInfo.t) (index : Z) (w : world),
     CallbackInfo_Length this <= index ->
     CallbackInfo_index this index w = Env_Undefined (CallbackInfo_Env this) w /\
     exists w',
       CallbackInfo_index this index w =
         (Ok (Value.mk (CallbackInfo._env this) h_undefined), w') /\
       native w' = native w) /\
  (forall (env : napi_env) (info : napi_callback_info) (w : world),
     exists this w1,
       CallbackInfo_ctor env info w = (Ok this, w1) /\
       CallbackInfo_Length this = Z.of_nat (length (cb_args info)) /\
       forall (index : Z) (w2 : world),
         0 <= index < CallbackInfo_Length this ->
         native w2 !! CallbackInfo._dynamicArgs this
           = native w1 !! CallbackInfo._dynamicArgs this ->
         exists v,
           cb_args info !! Z.to_nat index = Some v /\
           CallbackInfo_index this index w2 = (Ok (Value.mk env v), w2)).
Proof.
  split.
  - intros this index w Hge. unfold CallbackInfo_index, CallbackInfo_Length in *.
    apply Z.ltb_ge in Hge. rewrite Hge. split; [reflexivity |].
    unfold Env_Undefined, napi_get_undefined, CallbackInfo_Env. step.
    eexists. split; reflexivity.
  - intros env info w.
    destruct (CallbackInfo_ctor_run env info w)
      as (this & w1 & Hrun & Henv & _ & Hargc & _ & Hargs).
    exists this, w1. unfold CallbackInfo_Length. rewrite Hargc.
    repeat split; [assumption |].
    intros index w2 [Hlo Hhi] Hsame.
    destruct (lookup_lt_is_Some_2 (cb_args info) (Z.to_nat index)) as [v Hv]; [lia |].
    exists v. split; [assumption |].
    unfold CallbackInfo_index. rewrite Hargc.
    apply Z.ltb_lt in Hhi. rewrite Hhi. step.
    rewrite (read_argv_in_range this (cb_args info) index v w2); try assumption.
    + by rewrite Henv.
    + unfold holds_arguments in *.
      destruct (CallbackInfo._argv this); try assumption. by rewrite Hsame.
Qed.

(** ** Error *)

Lemma synthesized_kind_cases (st : napi_status) :
  synthesized_kind st =
    match st with
    | napi_object_expected
    | napi_string_expected
    | napi_boolean_expected
    | napi_number_expected => type_error
    | _ => generic_error
    end.
Proof. destruct st; reflexivity. Qed.

Lemma create_error_of_kind_run (name : string) (kind : error_kind)
    (env : napi_env) (msg : napi_value) (s : string) (w : world) :
  lookup_value w msg = Some (JsString s) ->
  create_error_of_kind name kind env msg w =
    (Ok (napi_ok, fresh_value (add_log name w)),
     upd_values (insert (fresh_value (add_log name w)) (JsError kind msg))
       (add_log name w)).
Proof.
  intros Hm. unfold create_error_of_kind. step.
  change (lookup_value (add_log name w) msg) with (lookup_value w msg).
  by rewrite Hm.
Qed.

Lemma Env_IsExceptionPending_run (env : napi_env) (w : world) :
  Env_IsExceptionPending env w =
    (Ok (negb (Nat.eqb (pending w) nullptr)),
     add_log "napi_is_exception_pending" w).
Proof. reflexivity. Qed.

(** C3: with a host exception pending, [Error::New(env)] returns that
    exception as it is and leaves none pending, creating no value; with
    none pending it creates a new host error whose message is the ABI's
    last-error message (a fixed text when there is none), of the
    type-error kind exactly for the codes object, string, boolean and
    number expected, and of the generic kind for every other status. *)
Theorem Error_New_classification (env : napi_env) (w : world) :
  (pending w <> nullptr ->
     exists w',
       Error_New env w = (Ok (Error.mk env (pending w) EmptyString), w') /\
       pending w' = nullptr /\
       values w' = values w) /\
  (pending w = nullptr ->
     exists e m w',
       Error_New env w = (Ok (Error.mk env e EmptyString), w') /\
       e <> nullptr /\
       lookup_value w e = None /\
       lookup_value w' e
         = Some (JsError (synthesized_kind (error_code (last_error w))) m) /\
       lookup_value w' m = Some (JsString (synthesized_message (last_error w))) /\
       pending w' = nullptr) /\
  (forall st, synthesized_kind st = type_error <->
     st = napi_object_expected \/ st = napi_string_expected \/
     st = napi_boolean_expected \/ st = napi_number_expected).
Proof.
  repeat split.
  - intros Hp. unfold Error_New.
    unfold bind at 1. rewrite Env_IsExceptionPending_run.
    rewrite (eqb_nullptr_false _ Hp). simpl.
    unfold napi_get_and_clear_last_exception. step.
    rewrite (eqb_nullptr_false _ Hp). simpl.
    eexists. repeat split.
  - intros Hp. unfold Error_New.
    unfold bind at 1. rewrite Env_IsExceptionPending_run.
    rewrite Hp. simpl.
    unfold napi_get_last_error_info, napi_create_string_utf8. step.
    rewrite substring_whole.
    set (msg := match error_message (last_error w) with
                | Some m => m
                | None => "Error in native callback"%string
                end).
    set (w1 := add_log "napi_create_string_utf8" _).
    set (w2 := upd_values _ w1).
    assert (lookup_value w2 (fresh_value w1) = Some (JsString msg)) as Hm
      by apply lookup_value_new.
    assert (forall name kind,
      exists e w',
        create_error_of_kind name kind env (fresh_value w1) w2
          = (Ok (napi_ok, e), w') /\
        e <> nullptr /\ lookup_value w e = None /\
        lookup_value w' e = Some (JsError kind (fresh_value w1)) /\
        lookup_value w' (fresh_value w1) = Some (JsString msg) /\
        pending w' = nullptr) as Hcreate.
    { intros name kind. rewrite (create_error_of_kind_run _ _ _ _ _ _ Hm).
      eexists _, _. split; [reflexivity |].
      set (w3 := add_log name w2).
      repeat split.
      - apply fresh_value_not_null.
      - rewrite lookup_value_unreserved by apply fresh_value_not_reserved.
        pose proof (fresh_value_not_in_dom w3) as Hf. simpl in Hf.
        apply lookup_insert_None in Hf. exact (proj1 Hf).
      - apply lookup_value_new.
      - by apply lookup_value_kept.
      - exact Hp. }
    rewrite synthesized_kind_cases. unfold synthesized_message. fold msg.
    unfold napi_create_error, napi_create_type_error.
    destruct (error_code (last_error w));
      match goal with
      | |- context [create_error_of_kind ?n ?k env _ w2] =>
          destruct (Hcreate n k) as (e & w' & Hrun & He & Hnew & Hk & Hs & Hpend);
          rewrite Hrun; simpl;
          exists e, (fresh_value w1), w'; repeat split; assumption
      end.
  - rewrite synthesized_kind_cases.
    destruct st; intros H; try discriminate H;
      first [ by left | by right; left | by right; right; left
            | by right; right; right ].
  - rewrite synthesized_kind_cases.
    intros [-> | [-> | [-> | ->]]]; reflexivity.
Qed.

(** ** Errors at the boundary to the host *)

Lemma throw_not_logged : "napi_throw"%string ∉ ["napi_is_exception_pending"%string].
Proof. intros Hin. apply list_elem_of_singleton in Hin. discriminate Hin. Qed.

Lemma throw_logged :
  "napi_throw"%string ∈ ["napi_is_exception_pending"%string; "napi_throw"%string].
Proof. apply elem_of_cons. right. by apply list_elem_of_singleton. Qed.

Lemma catch_Error_spec (env : napi_env) (e : Error.t) (w : world) :
  exists wf, catch_Error env e w = (Ok tt, wf) /\ handled_at_boundary e w wf.
Proof.
  unfold catch_Error, handled_at_boundary, logged_since.
  unfold bind at 1. rewrite Env_IsExceptionPending_run.
  unfold Error_ThrowAsJavaScriptException, napi_throw.
  destruct (Nat.eqb (pending w) nullptr) eqn:Hp; simpl.
  - apply Nat.eqb_eq in Hp.
    destruct (Nat.eqb (Error._value e) nullptr) eqn:Hv; simpl.
    + apply Nat.eqb_eq in Hv.
      eexists. split; [reflexivity |].
      exists ["napi_is_exception_pending"%string]. simpl.
      split; [reflexivity |]. split; [| split].
      * split; [intros Hin; by apply throw_not_logged in Hin |].
        intros [_ Hne]. contradiction.
      * intros Hin. by apply throw_not_logged in Hin.
      * reflexivity.
    + apply Nat.eqb_neq in Hv. step.
      eexists. split; [reflexivity |].
      exists ["napi_is_exception_pending"%string; "napi_throw"%string]. simpl.
      rewrite <- app_assoc. simpl.
      split; [reflexivity |]. split; [| split].
      * split; [done | intros _; apply throw_logged].
      * reflexivity.
      * intros Hnot. exfalso. apply Hnot, throw_logged.
  - apply Nat.eqb_neq in Hp.
    eexists. split; [reflexivity |].
    exists ["napi_is_exception_pending"%string]. simpl.
    split; [reflexivity |]. split; [| split].
    + split; [intros Hin; by apply throw_not_logged in Hin |].
      intros [Hn _]. contradiction.
    + intros Hin. by apply throw_not_logged in Hin.
    + reflexivity.
Qed.

Lemma CallbackInfo_dtor_frame (this : CallbackInfo.t) (w w' : world) :
  CallbackInfo_dtor this w = (Ok tt, w') ->
  pending w' = pending w /\ abi_log w' = abi_log w.
Proof.
  unfold CallbackInfo_dtor, native_delete.
  destruct (Nat.eqb (CallbackInfo._dynamicArgs this) nullptr); step.
  - intros [= <-]. done.
  - destruct (native w !! CallbackInfo._dynamicArgs this); intros [= <-]; done.
Qed.

Lemma CallbackInfo_dtor_wrapped (this : CallbackInfo.t) (w w' : world) :
  CallbackInfo_dtor this w = (Ok tt, w') -> wrapped w' = wrapped w.
Proof.
  unfold CallbackInfo_dtor, native_delete.
  destruct (Nat.eqb (CallbackInfo._dynamicArgs this) nullptr); step.
  - intros [= <-]. done.
  - destruct (native w !! CallbackInfo._dynamicArgs this); intros [= <-]; done.
Qed.

Lemma catch_Error_wrapped (env : napi_env) (e : Error.t) (w wf : world) :
  catch_Error env e w = (Ok tt, wf) -> wrapped wf = wrapped w.
Proof.
  unfold catch_Error, Error_ThrowAsJavaScriptException, napi_throw.
  unfold bind at 1. rewrite Env_IsExceptionPending_run.
  destruct (Nat.eqb (pending w) nullptr); simpl.
  - destruct (Nat.eqb (Error._value e) nullptr); step; intros [= <-]; done.
  - step. intros [= <-]. done.
Qed.

Lemma handled_at_boundary_frame (e : Error.t) (w w' wf : world) :
  pending w' = pending w ->
  abi_log w' = abi_log w ->
  handled_at_boundary e w' wf ->
  handled_at_boundary e w wf.
Proof.
  unfold handled_at_boundary, logged_since.
  intros Hp Hl (l & Hlog & H). exists l. by rewrite <- Hp, <- Hl.
Qed.

(** C4, with the condition on the error's host value: a [Napi::Error]
    that escapes the user callback of the module registration, of a
    function trampoline, of an instance method trampoline or of the
    constructor trampoline is caught there; the trampoline returns
    normally to the host, and the error is thrown into the host exactly
    when no host exception is pending and the error wraps a host value.
    When one is pending nothing is thrown and the pending exception
    stays.  A constructor that throws leaves the wrap table as it is. *)
Theorem Error_caught_at_boundary (env : napi_env) (e : Error.t) :
  (forall (exports module : napi_value)
          (registerCallback : napi_env -> Value.t -> Value.t -> M unit)
          (w w1 : world),
     registerCallback env (Value.mk env exports) (Value.mk env module) w
       = (Throw e, w1) ->
     exists wf,
       RegisterModule env exports module registerCallback w = (Ok tt, wf) /\
       handled_at_boundary e w1 wf) /\
  (forall (info : napi_callback_info) (callbackInfo : CallbackInfo.t)
          (cb : fnptr) (data : ptr) (w wc w1 w2 : world),
     CallbackInfo_ctor env info w = (Ok callbackInfo, wc) ->
     native wc !! cb_data info = Some (NCallbackData cb data) ->
     call_FunctionCallback cb callbackInfo wc = (Throw e, w1) ->
     CallbackInfo_dtor callbackInfo w1 = (Ok tt, w2) ->
     exists wf,
       FunctionCallbackWrapper env info w = (Ok tt, wf) /\
       handled_at_boundary e w1 wf) /\
  (forall (info : napi_callback_info) (callbackInfo : CallbackInfo.t)
          (cb : fnptr) (data instance : ptr) (w wc w1 w2 : world),
     CallbackInfo_ctor env info w = (Ok callbackInfo, wc) ->
     native wc !! cb_data info = Some (NCallbackData cb data) ->
     cb_this info <> nullptr ->
     wrapped wc !! cb_this info = Some instance ->
     call_InstanceMethodCallback cb instance
         (CallbackInfo_SetData callbackInfo data) (add_log "napi_unwrap" wc)
       = (Throw e, w1) ->
     CallbackInfo_dtor callbackInfo w1 = (Ok tt, w2) ->
     exists wf,
       InstanceMethodCallbackWrapper env info w = (Ok tt, wf) /\
       handled_at_boundary e w1 wf) /\
  (forall (info : napi_callback_info) (callbackInfo : CallbackInfo.t)
          (w wc w1 w2 : world),
     cb_is_construct_call info = true ->
     CallbackInfo_ctor env info (add_log "napi_is_construct_call" w)
       = (Ok callbackInfo, wc) ->
     new_T callbackInfo wc = (Throw e, w1) ->
     CallbackInfo_dtor callbackInfo w1 = (Ok tt, w2) ->
     exists wf,
       ConstructorCallbackWrapper env info w = (Ok tt, wf) /\
       handled_at_boundary e w1 wf /\
       wrapped wf = wrapped w1).
Proof.
  split; [| split; [| split]].
  - intros exports module registerCallback w w1 Hcall.
    unfold RegisterModule, try_catch. rewrite Hcall.
    apply catch_Error_spec.
  - intros info callbackInfo cb data w wc w1 w2 Hctor Hdata Hcall Hdtor.
    destruct (CallbackInfo_ctor_run env info w)
      as (ci & wc' & Hrun & _ & _ & _ & Hd & _).
    rewrite Hctor in Hrun. injection Hrun as <- <-.
    destruct (catch_Error_spec env e w2) as (wf & Hcatch & Hh).
    destruct (CallbackInfo_dtor_frame _ _ _ Hdtor) as [Hp Hl].
    exists wf. split; [| by apply (handled_at_boundary_frame e w1 w2 wf)].
    unfold FunctionCallbackWrapper.
    unfold bind at 1. unfold try_catch. unfold bind at 1. rewrite Hctor.
    unfold scoped, load_CallbackData, native_load, CallbackInfo_Data.
    rewrite Hd. step. rewrite Hdata. simpl. rewrite Hcall, Hdtor.
    by rewrite Hcatch.
  - intros info callbackInfo cb data instance w wc w1 w2
      Hctor Hdata Hthis Hwrapped Hcall Hdtor.
    destruct (CallbackInfo_ctor_run env info w)
      as (ci & wc' & Hrun & _ & Hthis' & _ & Hd & _).
    rewrite Hctor in Hrun. injection Hrun as <- <-.
    destruct (catch_Error_spec env e w2) as (wf & Hcatch & Hh).
    destruct (CallbackInfo_dtor_frame _ _ _ Hdtor) as [Hp Hl].
    exists wf. split; [| by apply (handled_at_boundary_frame e w1 w2 wf)].
    unfold InstanceMethodCallbackWrapper.
    unfold bind at 1. unfold try_catch. unfold bind at 1. rewrite Hctor.
    unfold scoped, load_CallbackData, native_load, CallbackInfo_Data,
      CallbackInfo_This, ObjectWrap_Unwrap, napi_unwrap.
    rewrite Hd. step. rewrite Hdata. simpl.
    rewrite Hthis', (eqb_nullptr_false _ Hthis). simpl.
    rewrite Hwrapped. simpl. rewrite Hcall, Hdtor.
    by rewrite Hcatch.
  - intros info callbackInfo w wc w1 w2 Hcall Hctor Hnew Hdtor.
    destruct (catch_Error_spec env e w2) as (wf & Hcatch & Hh).
    destruct (CallbackInfo_dtor_frame _ _ _ Hdtor) as [Hp Hl].
    exists wf. split; [| split].
    + unfold ConstructorCallbackWrapper, napi_is_construct_call. step.
      rewrite Hcall. simpl.
      unfold try_catch. rewrite Hctor. unfold scoped. rewrite Hnew, Hdtor.
      by rewrite Hcatch.
    + by apply (handled_at_boundary_frame e w1 w2 wf).
    + rewrite (catch_Error_wrapped _ _ _ _ Hcatch).
      by apply (CallbackInfo_dtor_wrapped callbackInfo).
Qed.

(** ** AsyncWorker *)

Lemma lookup_value_ext (w w' : world) (v : napi_value) :
  values w' = values w -> lookup_value w' v = lookup_value w v.
Proof. intros H. unfold lookup_value. by rewrite H. Qed.

Lemma close_scope_run (name : string) (s : napi_handle_scope) (w : world) :
  exists st w',
    close_scope name s w = (Ok st, w') /\
    calls w' = calls w /\ values w' = values w.
Proof.
  unfold close_scope. step.
  destruct (decide (head (scopes w) = Some s)); simpl; eexists _, _; repeat split.
Qed.

Lemma HandleScope_dtor_run (this : HandleScope.t) (w : world) :
  exists w',
    HandleScope_dtor this w = (Ok tt, w') /\
    calls w' = calls w /\ values w' = values w.
Proof.
  unfold HandleScope_dtor, napi_close_handle_scope.
  destruct (close_scope_run "napi_close_handle_scope"
              (HandleScope._scope this) w) as (st & w' & Hrun & Hc & Hv).
  unfold bind. rewrite Hrun. simpl. eauto.
Qed.

Lemma EscapableHandleScope_dtor_run (this : HandleScope.t) (w : world) :
  exists w',
    EscapableHandleScope_dtor this w = (Ok tt, w') /\
    calls w' = calls w /\ values w' = values w.
Proof.
  unfold EscapableHandleScope_dtor, napi_close_escapable_handle_scope.
  destruct (close_scope_run "napi_close_escapable_handle_scope"
              (HandleScope._scope this) w) as (st & w' & Hrun & Hc & Hv).
  unfold bind. rewrite Hrun. simpl. eauto.
Qed.

Lemma FunctionReference_MakeCallback_run
    (this : Reference.t) (recv : napi_value) (args : list napi_value)
    (f : napi_value) (c : Z) (x : js_value) (w : world) :
  Reference._ref this <> nullptr ->
  references w !! Reference._ref this = Some (f, c) ->
  lookup_value w f = Some x ->
  is_js_function x = true ->
  exists w',
    FunctionReference_MakeCallback this recv args w
      = (Ok (Value.mk (Reference._env this) h_undefined), w') /\
    calls w' = calls w ++ [(f, recv, args)] /\
    values w' = values w.
Proof.
  intros Hn Hr Hx Hf.
  unfold FunctionReference_MakeCallback, EscapableHandleScope_ctor,
    napi_open_escapable_handle_scope, open_scope.
  step. unfold scoped.
  set (w1 := upd_scopes _ _).
  assert (references w1 !! Reference._ref this = Some (f, c)) as Hr1 by exact Hr.
  rewrite (Reference_Value_run this f c w1 Hn Hr1).
  unfold Function_MakeCallback, napi_make_callback, EscapableHandleScope_Escape,
    napi_escape_handle.
  step.
  change (lookup_value _ f) with (lookup_value w f).
  rewrite Hx. simpl. rewrite Hf. simpl.
  match goal with
  | |- context [EscapableHandleScope_dtor ?s ?w2] =>
      destruct (EscapableHandleScope_dtor_run s w2) as (w' & Hrun & Hc & Hv)
  end.
  rewrite Hrun. exists w'. repeat split.
  - by rewrite Hc.
  - by rewrite Hv.
Qed.

Lemma Error_New_message_run (env : napi_env) (message : string) (w : world) :
  exists e m w',
    Error_New_message env message w = (Ok (Error.mk env e EmptyString), w') /\
    lookup_value w e = None /\
    lookup_value w' e = Some (JsError generic_error m) /\
    lookup_value w' m = Some (JsString message) /\
    references w' = references w /\
    calls w' = calls w /\
    (forall v y, lookup_value w v = Some y -> lookup_value w' v = Some y).
Proof.
  unfold Error_New_message, Error_New_with, napi_create_string_utf8.
  step. rewrite substring_whole.
  set (w1 := add_log "napi_create_string_utf8" w).
  set (w2 := upd_values _ w1).
  assert (lookup_value w2 (fresh_value w1) = Some (JsString message)) as Hm
    by apply lookup_value_new.
  unfold napi_create_error.
  rewrite (create_error_of_kind_run _ _ _ _ _ _ Hm). simpl.
  set (w3 := add_log "napi_create_error" w2).
  eexists _, _, _. split; [reflexivity |]. repeat split.
  - rewrite lookup_value_unreserved by apply fresh_value_not_reserved.
    pose proof (fresh_value_not_in_dom w3) as Hfresh. simpl in Hfresh.
    apply lookup_insert_None in Hfresh. exact (proj1 Hfresh).
  - apply lookup_value_new.
  - by apply lookup_value_kept.
  - intros v y Hv. apply lookup_value_kept.
    change (lookup_value w3 v) with (lookup_value w2 v).
    apply lookup_value_kept. exact Hv.
Qed.

(** C2: the completion hook of a worker whose completion callback is
    held by a live root of a function returns normally and invokes that
    function exactly once, on the global object: with no argument when
    the stored error message is empty, and otherwise with one argument, a
    newly created host error of the generic kind whose message is the
    stored string. *)
Theorem WorkComplete_invokes_callback
    (this : AsyncWorker.t) (f : napi_value) (c : Z) (x : js_value) (w : world) :
  Reference._ref (AsyncWorker._callback this) <> nullptr ->
  references w !! Reference._ref (AsyncWorker._callback this) = Some (f, c) ->
  lookup_value w f = Some x ->
  is_js_function x = true ->
  exists args w',
    AsyncWorker_OnWorkComplete this w = (Ok tt, w') /\
    calls w' = calls w ++ [(f, h_global, args)] /\
    (AsyncWorker._errmsg this = EmptyString -> args = []) /\
    (AsyncWorker._errmsg this <> EmptyString ->
       exists e m,
         args = [e] /\
         lookup_value w e = None /\
         lookup_value w' e = Some (JsError generic_error m) /\
         lookup_value w' m = Some (JsString (AsyncWorker._errmsg this))).
Proof.
  intros Hn Hr Hx Hf.
  unfold AsyncWorker_OnWorkComplete, AsyncWorker_WorkComplete, HandleScope_ctor,
    napi_open_handle_scope, open_scope.
  step. unfold scoped.
  set (w1 := upd_scopes _ _).
  set (scope := HandleScope.mk _ _).
  destruct (AsyncWorker._errmsg this) as [| a s] eqn:Hmsg; simpl.
  - unfold AsyncWorker_OnOK, Env_Global, napi_get_global. step.
    set (w2 := add_log "napi_get_global" w1).
    destruct (FunctionReference_MakeCallback_run (AsyncWorker._callback this)
                h_global [] f c x w2 Hn Hr Hx Hf) as (w3 & Hrun & Hc & Hv).
    rewrite Hrun.
    destruct (HandleScope_dtor_run scope w3) as (w4 & Hd & Hc4 & Hv4).
    rewrite Hd. exists [], w4. repeat split.
    + by rewrite Hc4, Hc.
    + intros Hne. contradiction.
  - unfold AsyncWorker_OnError, Env_Global, napi_get_global, AsyncWorker_Env. step.
    set (w2 := add_log "napi_get_global" w1).
    destruct (Error_New_message_run (AsyncWorker._env this)
                (AsyncWorker._errmsg this) w2)
      as (e & m & w3 & Hrun & Hnew & He & Hm & Href & Hcalls & Hkept).
    rewrite Hmsg in Hm. rewrite Hrun. simpl.
    assert (references w3 !! Reference._ref (AsyncWorker._callback this)
            = Some (f, c)) as Hr3 by (by rewrite Href).
    destruct (FunctionReference_MakeCallback_run (AsyncWorker._callback this)
                h_global [e] f c x w3 Hn Hr3 (Hkept f x Hx) Hf)
      as (w4 & Hrun4 & Hc4 & Hv4).
    rewrite Hrun4.
    destruct (HandleScope_dtor_run scope w4) as (w5 & Hd & Hc5 & Hv5).
    rewrite Hd. exists [e], w5. repeat split.
    + by rewrite Hc5, Hc4, Hcalls.
    + intros Hempty. discriminate Hempty.
    + intros _. exists e, m. repeat split.
      * exact Hnew.
      * rewrite (lookup_value_ext w4 w5) by exact Hv5.
        by rewrite (lookup_value_ext w3 w4) by exact Hv4.
      * rewrite (lookup_value_ext w4 w5) by exact Hv5.
        by rewrite (lookup_value_ext w3 w4) by exact Hv4.
Qed.

(** ** ObjectWrap *)

Lemma napi_throw_type_error_run (env : napi_env) (msg : string) (w : world) :
  exists e m w',
    napi_throw_type_error env msg w = (Ok napi_ok, w') /\
    e <> nullptr /\
    pending w' = e /\
    lookup_value w e = None /\
    lookup_value w' e = Some (JsError type_error m) /\
    lookup_value w' m = Some (JsString msg) /\
    native w' = native w /\
    wrapped w' = wrapped w /\
    logged_since w w' ["napi_throw_type_error"%string].
Proof.
  unfold napi_throw_type_error. step.
  set (w1 := add_log "napi_throw_type_error" w).
  set (w2 := upd_values _ w1).
  eexists _, _, _. split; [reflexivity |]. repeat split.
  - apply fresh_value_not_null.
  - rewrite lookup_value_unreserved by apply fresh_value_not_reserved.
    pose proof (fresh_value_not_in_dom w2) as Hfresh. simpl in Hfresh.
    apply lookup_insert_None in Hfresh. exact (proj1 Hfresh).
  - apply (lookup_value_new w2).
  - apply (lookup_value_kept w2). apply lookup_value_new.
Qed.

Opaque napi_throw_type_error.

(** C1: a call of a registered constructor that the ABI reports as not
    being a construct call throws a new host error of the type-error kind
    and returns, leaving the native heap and the wrap table as they were;
    a construct call whose native constructor returns normally, on a host
    object that is not wrapped yet, attaches the created instance to the
    host object, makes the object the result of the call, and [Unwrap]
    on that object then returns the instance the constructor created. *)
Theorem Constructor_requires_new_and_wraps (env : napi_env) :
  (forall (info : napi_callback_info) (w : world),
     cb_is_construct_call info = false ->
     exists e m w',
       ConstructorCallbackWrapper env info w = (Ok tt, w') /\
       e <> nullptr /\
       pending w' = e /\
       lookup_value w e = None /\
       lookup_value w' e = Some (JsError type_error m) /\
       native w' = native w /\
       wrapped w' = wrapped w) /\
  (forall (info : napi_callback_info) (callbackInfo : CallbackInfo.t)
          (instance : ptr) (base : Reference.t) (x : js_value)
          (w wc w1 w2 : world),
     cb_is_construct_call info = true ->
     cb_this info <> nullptr ->
     CallbackInfo_ctor env info (add_log "napi_is_construct_call" w)
       = (Ok callbackInfo, wc) ->
     new_T callbackInfo wc = (Ok instance, w1) ->
     CallbackInfo_dtor callbackInfo w1 = (Ok tt, w2) ->
     lookup_value w2 (cb_this info) = Some x ->
     is_js_object x = true ->
     wrapped w2 !! cb_this info = None ->
     native w2 !! instance = Some (NInstance base) ->
     exists wf wu,
       ConstructorCallbackWrapper env info w = (Ok tt, wf) /\
       wrapped wf !! cb_this info = Some instance /\
       return_value wf = cb_this info /\
       ObjectWrap_Unwrap (Value.mk env (cb_this info)) wf = (Ok instance, wu)).
Proof.
  split.
  - intros info w Hcall.
    unfold ConstructorCallbackWrapper, napi_is_construct_call. step.
    rewrite Hcall. simpl.
    match goal with
    | |- context [napi_throw_type_error env ?msg ?w1] =>
        destruct (napi_throw_type_error_run env msg w1)
          as (e & m & w' & Hrun & He & Hp & Hnew & Hk & _ & Hnat & Hwr & _)
    end.
    rewrite Hrun. exists e, m, w'. repeat split; assumption.
  - intros info callbackInfo instance base x w wc w1 w2
      Hcall Hthis Hctor Hnew Hdtor Hx Hobj Hunwrapped Hinst.
    destruct (CallbackInfo_ctor_run env info (add_log "napi_is_construct_call" w))
      as (ci & wc' & Hrun & _ & Hthis' & _ & _ & _).
    rewrite Hctor in Hrun. injection Hrun as <- <-.
    unfold ConstructorCallbackWrapper, napi_is_construct_call. step.
    rewrite Hcall. simpl.
    unfold try_catch. rewrite Hctor. unfold scoped. rewrite Hnew.
    unfold CallbackInfo_This. rewrite Hthis', (eqb_nullptr_false _ Hthis).
    step. rewrite Hdtor.
    unfold napi_wrap. step.
    change (lookup_value (add_log "napi_wrap" w2) (cb_this info))
      with (lookup_value w2 (cb_this info)).
    rewrite Hx, Hunwrapped, Hobj. simpl.
    unfold assign_instance_ref, native_load. step.
    rewrite Hinst. simpl.
    unfold napi_set_return_value, ObjectWrap_Unwrap, napi_unwrap. step.
    eexists _, _. split; [reflexivity |]. simpl.
    rewrite lookup_insert_eq. repeat split.
Qed.

Transparent napi_throw_type_error.

(** ** Ownership of roots and of callback metadata *)

(** C6: what the code does on the failing input.  A reference with a
    live root on which [SuppressDestruct()] was called is move-assigned
    to a default-constructed reference.  The source is left empty and its
    destructor releases nothing, but the flag stays behind: destroying
    the target deletes the root, which destroying the original would not
    have done.  The move constructor does not take the flag from its
    source either. *)
Theorem move_assignment_drops_suppression
    (env : napi_env) (r : napi_ref) (rc : nat * Z) (w : world) :
  r <> nullptr ->
  references w !! r = Some rc ->
  let source := Reference_SuppressDestruct (Reference_ctor env r) in
  let moved := Reference_move_assign Reference_default source in
  Reference._ref moved.1 = r /\
  Reference_IsEmpty moved.2 = true /\
  Reference_dtor moved.2 w = (Ok tt, w) /\
  Reference_dtor source w = (Ok tt, w) /\
  Reference._suppressDestruct moved.1 = false /\
  (exists w', Reference_dtor moved.1 w = (Ok tt, w') /\
              references w' !! r = None) /\
  Reference._suppressDestruct (Reference_move_ctor source).1
    = uninitialized_suppressDestruct.
Proof.
  intros Hn Hr. simpl. unfold Reference_IsEmpty, Reference_dtor. simpl.
  rewrite (eqb_nullptr_false _ Hn). simpl.
  repeat split.
  unfold napi_delete_reference. step. rewrite Hr. simpl.
  eexists. split; [reflexivity |]. simpl. apply lookup_delete_eq.
Qed.

(** C8: what the code does on the failing input.  [Function::New]
    allocates a [CallbackData] and hands its address to the host as the
    data of the new function; an instance method registration does the
    same for the descriptor that [DefineClass] passes on.  When the host
    has collected the function, respectively the class, the
    [CallbackData] is still allocated. *)
Theorem CallbackData_outlives_owner
    (env : napi_env) (cb : fnptr) (utf8name : string) (data : ptr)
    (attributes : Z) (w : world) :
  (exists f p w1,
     Function_New env cb utf8name data w = (Ok (Value.mk env f), w1) /\
     lookup_value w1 f = Some (JsNativeFunction FunctionCallbackWrapper_entry p) /\
     native w !! p = None /\
     native w1 !! p = Some (NCallbackData cb data) /\
     (strongly_held w1 f = false ->
        lookup_value (host_collect f w1) f = None /\
        native (host_collect f w1) !! p = Some (NCallbackData cb data))) /\
  (exists desc cls w1 w2,
     ObjectWrap_InstanceMethod utf8name cb attributes data w = (Ok desc, w1) /\
     ObjectWrap_DefineClass env utf8name [desc] nullptr w1
       = (Ok (Value.mk env cls), w2) /\
     native w !! desc_data desc = None /\
     native w2 !! desc_data desc = Some (NCallbackData cb data) /\
     (strongly_held w2 cls = false ->
        lookup_value (host_collect cls w2) cls = None /\
        native (host_collect cls w2) !! desc_data desc
          = Some (NCallbackData cb data))).
Proof.
  split.
  - unfold Function_New, native_new, napi_create_function. step.
    set (w1 := upd_native _ w).
    set (w2 := add_log "napi_create_function" w1).
    eexists _, _, _. split; [reflexivity |]. repeat split.
    + apply (lookup_value_new w2).
    + apply fresh_ptr_unused.
    + simpl. apply lookup_insert_eq.
    + rewrite lookup_value_unreserved by apply fresh_value_not_reserved.
      by apply host_collect_values.
    + rewrite host_collect_native. simpl. apply lookup_insert_eq.
  - unfold ObjectWrap_InstanceMethod, ObjectWrap_DefineClass, native_new,
      napi_define_class. step.
    set (w1 := upd_native _ w).
    set (w2 := add_log "napi_define_class" w1).
    eexists _, _, _, _. split; [reflexivity |]. split; [reflexivity |].
    simpl. repeat split.
    + apply fresh_ptr_unused.
    + apply lookup_insert_eq.
    + rewrite lookup_value_unreserved by apply fresh_value_not_reserved.
      by apply host_collect_values.
    + rewrite host_collect_native. simpl. apply lookup_insert_eq.
Qed.

(** * Further properties of the wrapper layer *)

(** ** Frames *)

Lemma only_adds_values_refl (w : world) : only_adds_values w w.
Proof. repeat split. auto. Qed.

Lemma only_adds_values_trans (w1 w2 w3 : world) :
  only_adds_values w1 w2 -> only_adds_values w2 w3 -> only_adds_values w1 w3.
Proof.
  intros (Hr & Hw & Hs & Hv & Hc & Hn & Hk) (Hr' & Hw' & Hs' & Hv' & Hc' & Hn' & Hk').
  repeat split; try congruence. auto.
Qed.

Lemma only_adds_values_same (w w' : world) :
  values w' = values w ->
  references w' = references w ->
  wrapped w' = wrapped w ->
  scopes w' = scopes w ->
  return_value w' = return_value w ->
  calls w' = calls w ->
  native w' = native w ->
  only_adds_values w w'.
Proof.
  intros Hv Hr Hw Hs Hret Hc Hn. repeat split; try assumption.
  intros v y Hy. by rewrite (lookup_value_ext w w' v Hv).
Qed.

Lemma only_adds_values_new (w : world) (x : js_value) :
  only_adds_values w (upd_values (insert (fresh_value w) x) w).
Proof. repeat split. intros v y. apply lookup_value_kept. Qed.

(** ** Error::New on every path *)

Lemma Error_New_relays (env : napi_env) (w : world) :
  pending w <> nullptr ->
  exists w',
    Error_New env w = (Ok (Error.mk env (pending w) EmptyString), w') /\
    pending w' = nullptr /\
    values w' = values w /\
    only_adds_values w w'.
Proof.
  intros Hp. unfold Error_New.
  unfold bind at 1. rewrite Env_IsExceptionPending_run.
  rewrite (eqb_nullptr_false _ Hp). simpl.
  unfold napi_get_and_clear_last_exception. step.
  rewrite (eqb_nullptr_false _ Hp). simpl.
  eexists. split; [reflexivity |]. split; [reflexivity |]. split; [reflexivity |].
  by apply only_adds_values_same.
Qed.

Lemma Error_New_synthesizes (env : napi_env) (w : world) :
  pending w = nullptr ->
  exists e w',
    Error_New env w = (Ok e, w') /\
    Error._env e = env /\
    Error._value e <> nullptr /\
    lookup_value w (Error._value e) = None /\
    is_host_error w' e (synthesized_kind (error_code (last_error w)))
                  (synthesized_message (last_error w)) /\
    pending w' = nullptr /\
    only_adds_values w w'.
Proof.
  intros Hp. unfold Error_New.
  unfold bind at 1. rewrite Env_IsExceptionPending_run.
  rewrite Hp. simpl.
  unfold napi_get_last_error_info, napi_create_string_utf8. step.
  rewrite substring_whole.
  set (msg := match error_message (last_error w) with
              | Some m => m
              | None => "Error in native callback"%string
              end).
  set (w1 := add_log "napi_create_string_utf8" _).
  set (w2 := upd_values _ w1).
  assert (only_adds_values w w2) as Hadd.
  { apply (only_adds_values_trans w w1 w2).
    - by apply only_adds_values_same.
    - apply only_adds_values_new. }
  assert (lookup_value w2 (fresh_value w1) = Some (JsString msg)) as Hm
    by apply lookup_value_new.
  assert (forall name kind,
    exists e w',
      create_error_of_kind name kind env (fresh_value w1) w2
        = (Ok (napi_ok, e), w') /\
      e <> nullptr /\ lookup_value w e = None /\
      lookup_value w' e = Some (JsError kind (fresh_value w1)) /\
      lookup_value w' (fresh_value w1) = Some (JsString msg) /\
      pending w' = nullptr /\
      only_adds_values w w') as Hcreate.
  { intros name kind. rewrite (create_error_of_kind_run _ _ _ _ _ _ Hm).
    eexists _, _. split; [reflexivity |].
    set (w3 := add_log name w2).
    split; [apply fresh_value_not_null |].
    split.
    { rewrite lookup_value_unreserved by apply fresh_value_not_reserved.
      pose proof (fresh_value_not_in_dom w3) as Hf. simpl in Hf.
      apply lookup_insert_None in Hf. exact (proj1 Hf). }
    split; [apply lookup_value_new |].
    split; [by apply lookup_value_kept |].
    split; [exact Hp |].
    apply (only_adds_values_trans w w2); [exact Hadd |].
    apply (only_adds_values_trans w2 w3).
    - by apply only_adds_values_same.
    - apply only_adds_values_new. }
  rewrite synthesized_kind_cases. unfold synthesized_message, is_host_error.
  fold msg.
  unfold napi_create_error, napi_create_type_error.
  destruct (error_code (last_error w));
    match goal with
    | |- context [create_error_of_kind ?n ?k env _ w2] =>
        destruct (Hcreate n k)
          as (e & w' & Hrun & He & Hnew & Hk & Hs & Hpend & Hframe);
        rewrite Hrun; simpl;
        exists (Error.mk env e EmptyString), w'; split; [reflexivity |]; simpl;
        split; [reflexivity |]; split; [assumption |]; split; [assumption |];
        split; [exists (fresh_value w1); split; assumption |];
        split; assumption
    end.
Qed.

(** [if (status != napi_ok) throw Error::New(env);] after an entry point
    failed with [st] while no host exception is pending: the error thrown
    wraps a new host error for [st]. *)
Lemma check_status_throws (env : napi_env) (st : napi_status) (w : world) :
  st <> napi_ok ->
  pending w = nullptr ->
  last_error w = mk_error_info (status_message st) st ->
  exists e w',
    check_status env st w = (Throw e, w') /\
    Error._env e = env /\
    Error._value e <> nullptr /\
    lookup_value w (Error._value e) = None /\
    is_host_error w' e (synthesized_kind st)
                  (synthesized_message (mk_error_info (status_message st) st)) /\
    pending w' = nullptr /\
    only_adds_values w w'.
Proof.
  intros Hst Hp Hlast. unfold check_status.
  destruct (decide (st <> napi_ok)) as [_ | Hn]; [| contradiction].
  destruct (Error_New_synthesizes env w Hp)
    as (e & w' & Hrun & Henv & Hv & Hnew & Herr & Hpend & Hframe).
  unfold bind. rewrite Hrun. unfold throw.
  rewrite Hlast in Herr.
  exists e, w'. split; [reflexivity |]. split; [assumption |].
  split; [assumption |]. split; [assumption |]. split; [exact Herr |].
  split; assumption.
Qed.

(** ** References: creation, dereference, release *)

Lemma Reference_New_run (value : Value.t) (count : Z) (x : js_value) (w : world) :
  Value._value value <> nullptr ->
  lookup_value w (Value._value value) = Some x ->
  Reference_New value count w =
    (Ok (Reference_ctor (Value._env value)
           (fresh_ref (add_log "napi_create_reference" w))),
     upd_references
       (insert (fresh_ref (add_log "napi_create_reference" w))
               (Value._value value, count))
       (add_log "napi_create_reference" w)).
Proof.
  intros Hn Hx. unfold Reference_New, napi_create_reference.
  rewrite (eqb_nullptr_false _ Hn). step.
  change (lookup_value (add_log "napi_create_reference" w) (Value._value value))
    with (lookup_value w (Value._value value)).
  by rewrite Hx.
Qed.

Lemma fresh_ref_unused (w : world) : references w !! fresh_ref w = None.
Proof.
  unfold fresh_ref.
  pose proof (is_fresh ({[ nullptr ]} ∪ dom (references w))) as Hf.
  apply not_elem_of_dom. intros Hin. apply Hf. by apply elem_of_union_r.
Qed.

(** X1: a reference created from a live value is not empty, owns one new
    root holding that value at the requested count, leaves every other
    root as it was, and [Value()] gives back the value it was created
    from. *)
Theorem Reference_New_then_Value
    (value : Value.t) (count : Z) (x : js_value) (w : world) :
  Value._value value <> nullptr ->
  lookup_value w (Value._value value) = Some x ->
  exists r w1 w2,
    Reference_New value count w = (Ok r, w1) /\
    Reference_IsEmpty r = false /\
    references w !! Reference._ref r = None /\
    references w1
      = <[Reference._ref r := (Value._value value, count)]> (references w) /\
    Reference_Value r w1 = (Ok value, w2) /\
    only_adds_values w1 w2.
Proof.
  intros Hn Hx. rewrite (Reference_New_run value count x w Hn Hx).
  set (w0 := add_log "napi_create_reference" w).
  set (r := fresh_ref w0).
  set (w1 := upd_references _ w0).
  assert (r <> nullptr) as Hr by apply fresh_ref_not_null.
  exists (Reference_ctor (Value._env value) r), w1,
         (add_log "napi_get_reference_value" w1).
  split; [reflexivity |]. simpl.
  split; [by apply eqb_nullptr_false |].
  split; [apply (fresh_ref_unused w0) |].
  split; [reflexivity |].
  split.
  - rewrite (Reference_Value_run _ (Value._value value) count); simpl;
      [by destruct value | exact Hr | apply lookup_insert_eq].
  - by apply only_adds_values_same.
Qed.

(** Whether some root holds [v] with a positive count. *)
Lemma strongly_held_true (w : world) (v : nat) (r : nat) (c : Z) :
  references w !! r = Some (v, c) -> 0 < c -> strongly_held w v = true.
Proof.
  intros Hr Hc. unfold strongly_held. apply bool_decide_eq_true.
  exists r, (v, c). split; [exact Hr |]. by split.
Qed.

Lemma strongly_held_false (w : world) (v : nat) :
  strongly_held w v = false <->
  forall r rc, references w !! r = Some rc -> ~ (rc.1 = v /\ 0 < rc.2).
Proof.
  unfold strongly_held. rewrite bool_decide_eq_false. split.
  - intros Hno r rc Hr Hrc. apply Hno. by exists r, rc.
  - intros Hall (r & rc & Hr & Hrc). by apply (Hall r rc).
Qed.

Lemma host_collect_refused (w : world) (v : nat) :
  strongly_held w v = true -> host_collect v w = w.
Proof. intros H. unfold host_collect. by rewrite H. Qed.

Lemma host_collect_root (w : world) (v : nat) (r : nat) (c : Z) :
  strongly_held w v = false ->
  references w !! r = Some (v, c) ->
  references (host_collect v w) !! r = Some (nullptr, c).
Proof.
  intros Hs Hr. unfold host_collect. rewrite Hs. simpl.
  rewrite lookup_fmap, Hr. simpl. unfold clear_target. simpl.
  by rewrite decide_True.
Qed.

(** X2: a value held by [Persistent] cannot be collected, and the
    reference still dereferences to it afterwards; a value held only by
    [Weak] can, and the reference then dereferences to the empty handle
    without throwing. *)
Theorem Persistent_holds_Weak_does_not
    (value : Value.t) (x : js_value) (w : world) :
  Value._value value <> nullptr ->
  lookup_value w (Value._value value) = Some x ->
  (exists r w1 w2,
     Persistent value w = (Ok r, w1) /\
     host_collect (Value._value value) w1 = w1 /\
     Reference_Value r w1 = (Ok value, w2)) /\
  (strongly_held w (Value._value value) = false ->
   exists r w1 w2,
     Weak value w = (Ok r, w1) /\
     values (host_collect (Value._value value) w1) !! Value._value value = None /\
     Reference_Value r (host_collect (Value._value value) w1)
       = (Ok (Value.mk (Value._env value) nullptr), w2)).
Proof.
  intros Hn Hx. split.
  - unfold Persistent. rewrite (Reference_New_run value 1 x w Hn Hx).
    set (w0 := add_log "napi_create_reference" w).
    set (r := fresh_ref w0).
    set (w1 := upd_references _ w0).
    assert (r <> nullptr) as Hr by apply fresh_ref_not_null.
    exists (Reference_ctor (Value._env value) r), w1,
           (add_log "napi_get_reference_value" w1).
    split; [reflexivity |]. split.
    + apply host_collect_refused.
      apply (strongly_held_true _ _ r 1); [apply lookup_insert_eq | lia].
    + rewrite (Reference_Value_run _ (Value._value value) 1); simpl;
        [by destruct value | exact Hr | apply lookup_insert_eq].
  - intros Hfree. unfold Weak. rewrite (Reference_New_run value 0 x w Hn Hx).
    set (w0 := add_log "napi_create_reference" w).
    set (r := fresh_ref w0).
    set (w1 := upd_references _ w0).
    assert (r <> nullptr) as Hr by apply fresh_ref_not_null.
    assert (strongly_held w1 (Value._value value) = false) as Hfree1.
    { apply strongly_held_false. intros r' rc Hr' [Hv Hc].
      simpl in Hr'. apply lookup_insert_Some in Hr' as [[_ <-] | [_ Hold]].
      - simpl in Hc. lia.
      - apply (proj1 (strongly_held_false w (Value._value value)) Hfree r' rc Hold).
        by split. }
    exists (Reference_ctor (Value._env value) r), w1,
           (add_log "napi_get_reference_value"
              (host_collect (Value._value value) w1)).
    split; [reflexivity |]. split.
    + by apply host_collect_values.
    + rewrite (Reference_Value_run _ nullptr 0); simpl;
        [reflexivity | exact Hr |].
      apply host_collect_root; [exact Hfree1 | apply lookup_insert_eq].
Qed.


(** X3: [Unref()] bringing the only positive count down to 0 gives up
    the hold on the referent: the host may then collect it, and [Value()]
    yields the empty handle.  [Ref()] on a weak root takes hold of the
    referent: the host can no longer collect it. *)
Theorem Unref_releases_Ref_holds
    (this : Reference.t) (v : nat) (w : world) :
  Reference._ref this <> nullptr ->
  (references w !! Reference._ref this = Some (v, 1) ->
   (forall r rc, r <> Reference._ref this -> references w !! r = Some rc ->
                 ~ (rc.1 = v /\ 0 < rc.2)) ->
   exists w1 w2,
     Reference_Unref this w = (Ok 0, w1) /\
     strongly_held w1 v = false /\
     Reference_Value this (host_collect v w1)
       = (Ok (Value.mk (Reference._env this) nullptr), w2)) /\
  (references w !! Reference._ref this = Some (v, 0) ->
   exists w1 w2,
     Reference_Ref this w = (Ok 1, w1) /\
     host_collect v w1 = w1 /\
     Reference_Value this w1 = (Ok (Value.mk (Reference._env this) v), w2)).
Proof.
  intros Hn. split.
  - intros Hr Hothers.
    rewrite (Reference_Unref_run this v 1 w Hr ltac:(lia)).
    set (w1 := upd_references _ _).
    assert (strongly_held w1 v = false) as Hfree.
    { apply strongly_held_false. intros r rc Hrc [Hv Hc].
      simpl in Hrc. apply lookup_insert_Some in Hrc as [[_ <-] | [Hne Hold]].
      - simpl in Hc. lia.
      - apply (Hothers r rc); [congruence | exact Hold | by split]. }
    exists w1, (add_log "napi_get_reference_value" (host_collect v w1)).
    split; [reflexivity |]. split; [exact Hfree |].
    apply (Reference_Value_run this nullptr (1 - 1)); [exact Hn |].
    apply host_collect_root; [exact Hfree | apply lookup_insert_eq].
  - intros Hr.
    rewrite (Reference_Ref_run this v 0 w Hr).
    set (w1 := upd_references _ _).
    exists w1, (add_log "napi_get_reference_value" w1).
    split; [reflexivity |]. split.
    + apply host_collect_refused.
      apply (strongly_held_true _ _ (Reference._ref this) (0 + 1));
        [apply lookup_insert_eq | lia].
    + apply (Reference_Value_run this v (0 + 1)); [exact Hn |].
      apply lookup_insert_eq.
Qed.

Opaque check_status.

(** Runs the [throw] of a failed status check in the goal. *)
Ltac throw_step Hp :=
  match goal with
  | |- context [check_status ?env ?st ?W] =>
      let e := fresh "e" in
      let w' := fresh "w'" in
      let Hrun := fresh "Hrun" in
      let Herr := fresh "Herr" in
      let Hframe := fresh "Hframe" in
      let Hpend := fresh "Hpend" in
      let Hval := fresh "Hval" in
      destruct (check_status_throws env st W)
        as (e & w' & Hrun & _ & Hval & _ & Herr & Hpend & Hframe);
      [discriminate | exact Hp | reflexivity |];
      rewrite Hrun;
      exists e, w'; split; [reflexivity |]; split; [exact Herr |];
      refine (only_adds_values_trans _ W _ _ Hframe);
      by apply only_adds_values_same
  end.

(** X4: with no host exception pending, [Unref()] on a root whose count
    is 0 throws an error wrapping a new generic host error and leaves the
    count at 0; [Ref()], [Unref()], [Value()] and [Reset()] on a root the
    host does not know throw likewise.  None of them changes a root, the
    wrap table or the native heap. *)
Theorem Reference_failures_throw (this : Reference.t) (w : world) :
  pending w = nullptr ->
  (forall v, references w !! Reference._ref this = Some (v, 0) ->
     exists e w',
       Reference_Unref this w = (Throw e, w') /\
       is_host_error w' e generic_error "Unknown failure" /\
       only_adds_values w w') /\
  (references w !! Reference._ref this = None ->
     (exists e w',
        Reference_Ref this w = (Throw e, w') /\
        is_host_error w' e generic_error "Invalid pointer passed as argument" /\
        only_adds_values w w') /\
     (exists e w',
        Reference_Unref this w = (Throw e, w') /\
        is_host_error w' e generic_error "Invalid pointer passed as argument" /\
        only_adds_values w w') /\
     (Reference._ref this <> nullptr ->
        (exists e w',
           Reference_Value this w = (Throw e, w') /\
           is_host_error w' e generic_error "Invalid pointer passed as argument" /\
           only_adds_values w w') /\
        (exists e w',
           Reference_Reset this w = (Throw e, w') /\
           is_host_error w' e generic_error "Invalid pointer passed as argument" /\
           only_adds_values w w'))).
Proof.
  intros Hp. split.
  - intros v Hr. unfold Reference_Unref, napi_reference_unref. step.
    rewrite Hr. simpl. throw_step Hp.
  - intros Hr. split; [| split].
    + unfold Reference_Ref, napi_reference_ref. step.
      rewrite Hr. simpl. throw_step Hp.
    + unfold Reference_Unref, napi_reference_unref. step.
      rewrite Hr. simpl. throw_step Hp.
    + intros Hn. split.
      * unfold Reference_Value, napi_get_reference_value.
        rewrite (eqb_nullptr_false _ Hn). step.
        rewrite Hr. simpl. throw_step Hp.
      * unfold Reference_Reset, napi_delete_reference.
        rewrite (eqb_nullptr_false _ Hn). step.
        rewrite Hr. simpl. throw_step Hp.
Qed.

Transparent check_status.

(** X5: [Reset()] on a live root deletes exactly that root with one ABI
    call, whatever the suppression flag, and leaves the reference empty;
    a second [Reset()] and the destructor then make no ABI call. *)
Theorem Reset_releases_once (this : Reference.t) (rc : nat * Z) (w : world) :
  Reference._ref this <> nullptr ->
  references w !! Reference._ref this = Some rc ->
  exists this' w',
    Reference_Reset this w = (Ok this', w') /\
    Reference_IsEmpty this' = true /\
    references w' = delete (Reference._ref this) (references w) /\
    logged_since w w' ["napi_delete_reference"%string] /\
    Reference_Reset this' w' = (Ok this', w') /\
    Reference_dtor this' w' = (Ok tt, w').
Proof.
  intros Hn Hr. unfold Reference_Reset at 1, napi_delete_reference.
  rewrite (eqb_nullptr_false _ Hn). step. rewrite Hr. simpl.
  eexists _, _. split; [reflexivity |]. repeat split.
Qed.

(** X6: [Reset(value, count)] with a live value on a reference holding a
    live root deletes the old root, creates one new root holding the
    value at the given count, and [Value()] then gives that value. *)
Theorem Reset_value_replaces_root
    (this : Reference.t) (rc : nat * Z) (value : Value.t) (count : Z)
    (x : js_value) (w : world) :
  Reference._ref this <> nullptr ->
  references w !! Reference._ref this = Some rc ->
  Value._value value <> nullptr ->
  lookup_value w (Value._value value) = Some x ->
  exists this' w1 w2,
    Reference_Reset_value this value count w = (Ok this', w1) /\
    Reference_IsEmpty this' = false /\
    references w1
      = <[Reference._ref this' := (Value._value value, count)]>
          (delete (Reference._ref this) (references w)) /\
    Reference._suppressDestruct this' = Reference._suppressDestruct this /\
    Reference_Value this' w1 = (Ok value, w2).
Proof.
  intros Hn Hr Hv Hx.
  unfold Reference_Reset_value, Reference_Reset, napi_delete_reference,
    napi_create_reference.
  rewrite (eqb_nullptr_false _ Hn), (eqb_nullptr_false _ Hv). step.
  rewrite Hr. simpl.
  change (lookup_value _ (Value._value value))
    with (lookup_value w (Value._value value)).
  rewrite Hx. simpl.
  set (w0 := add_log "napi_create_reference" _).
  set (r := fresh_ref w0).
  set (w1 := upd_references _ w0).
  assert (r <> nullptr) as Hr0 by apply fresh_ref_not_null.
  exists (Reference.mk (Value._env value) r (Reference._suppressDestruct this)), w1,
         (add_log "napi_get_reference_value" w1).
  split; [reflexivity |]. simpl.
  split; [by apply eqb_nullptr_false |].
  split; [reflexivity |]. split; [reflexivity |].
  rewrite (Reference_Value_run _ (Value._value value) count); simpl;
    [by destruct value | exact Hr0 | apply lookup_insert_eq].
Qed.

(** X7: move assignment onto a reference that already holds a root does
    not release that root: after the assignment, destroying the target
    and the source releases the root that was moved and leaves the
    target's former root allocated. *)
Theorem move_assignment_abandons_old_root
    (this other : Reference.t) (rc rc' : nat * Z) (w : world) :
  Reference._ref this <> nullptr ->
  Reference._ref other <> nullptr ->
  Reference._ref this <> Reference._ref other ->
  references w !! Reference._ref this = Some rc ->
  references w !! Reference._ref other = Some rc' ->
  Reference._suppressDestruct this = false ->
  let moved := Reference_move_assign this other in
  exists w1,
    Reference_dtor moved.1 w = (Ok tt, w1) /\
    Reference_dtor moved.2 w1 = (Ok tt, w1) /\
    references w1 !! Reference._ref other = None /\
    references w1 !! Reference._ref this = Some rc.
Proof.
  intros Hn Hn' Hne Hr Hr' Hflag. simpl.
  unfold Reference_dtor, napi_delete_reference. simpl.
  rewrite (eqb_nullptr_false _ Hn'), Hflag. step.
  rewrite Hr'. simpl.
  eexists. split; [reflexivity |]. simpl. split; [reflexivity |].
  split; [apply lookup_delete_eq |].
  by rewrite lookup_delete_ne.
Qed.


(** ** CallbackInfo: storage of the argument vector *)

(** What the constructor does to the state: apart from the log, only the
    native heap can change, by the heap array of the arguments. *)
Lemma CallbackInfo_ctor_heap (env : napi_env) (info : napi_callback_info) (w : world) :
  exists this w1,
    CallbackInfo_ctor env info w = (Ok this, w1) /\
    CallbackInfo._env this = env /\
    CallbackInfo._argc this = Z.of_nat (length (cb_args info)) /\
    CallbackInfo._this this = cb_this info /\
    CallbackInfo._data this = cb_data info /\
    values w1 = values w /\
    pending w1 = pending w /\
    last_error w1 = last_error w /\
    references w1 = references w /\
    wrapped w1 = wrapped w /\
    scopes w1 = scopes w /\
    return_value w1 = return_value w /\
    calls w1 = calls w /\
    ((Z.of_nat (length (cb_args info)) <= _staticArgCount \/ cb_args info = []) /\
     CallbackInfo._dynamicArgs this = nullptr /\
     native w1 = native w
     \/
     (0 < Z.of_nat (length (cb_args info)) /\
      _staticArgCount < Z.of_nat (length (cb_args info))) /\
     CallbackInfo._dynamicArgs this <> nullptr /\
     native w !! CallbackInfo._dynamicArgs this = None /\
     native w1 = <[CallbackInfo._dynamicArgs this := NArgArray (cb_args info)]>
                   (native w)).
Proof.
  unfold CallbackInfo_ctor, napi_get_cb_this, napi_get_cb_args_length,
    napi_get_cb_args, napi_get_cb_data, native_new.
  step.
  destruct (0 <? Z.of_nat (length (cb_args info))) eqn:Hpos; simpl.
  - destruct (Z.of_nat (length (cb_args info)) <=? _staticArgCount) eqn:Hle; simpl.
    + eexists _, _. split; [reflexivity |]. simpl.
      repeat (split; [reflexivity |]).
      left. apply Z.leb_le in Hle. auto.
    + eexists _, _. split; [reflexivity |]. simpl.
      repeat (split; [reflexivity |]).
      right. apply Z.leb_gt in Hle. apply Z.ltb_lt in Hpos.
      set (w0 := add_log "napi_get_cb_args_length" _).
      split; [by split |].
      split; [apply fresh_ptr_not_null |].
      split; [apply (fresh_ptr_unused w0) |].
      rewrite napi_get_cb_args_exact. by rewrite insert_insert_eq.
  - eexists _, _. split; [reflexivity |]. simpl.
    repeat (split; [reflexivity |]).
    left. split; [| split; reflexivity].
    right. apply Z.ltb_ge in Hpos.
    destruct (cb_args info); [reflexivity | simpl in Hpos; lia].
Qed.

(** The destructor after a body that left the native heap alone. *)
Lemma CallbackInfo_dtor_heap (this : CallbackInfo.t) (heap : gmap nat native_obj)
    (args : list nat) (w : world) :
  (CallbackInfo._dynamicArgs this = nullptr /\ native w = heap
   \/
   CallbackInfo._dynamicArgs this <> nullptr /\
   heap !! CallbackInfo._dynamicArgs this = None /\
   native w = <[CallbackInfo._dynamicArgs this := NArgArray args]> heap) ->
  exists w',
    CallbackInfo_dtor this w = (Ok tt, w') /\
    native w' = heap /\
    values w' = values w /\
    pending w' = pending w /\
    last_error w' = last_error w /\
    references w' = references w /\
    wrapped w' = wrapped w /\
    scopes w' = scopes w /\
    return_value w' = return_value w /\
    calls w' = calls w /\
    abi_log w' = abi_log w.
Proof.
  unfold CallbackInfo_dtor, native_delete.
  intros [[Hnull Hheap] | (Hn & Hfree & Hheap)].
  - rewrite Hnull. simpl. exists w. repeat split. exact Hheap.
  - rewrite (eqb_nullptr_false _ Hn). step.
    rewrite Hheap, lookup_insert_eq. simpl.
    eexists. split; [reflexivity |]. simpl.
    repeat split. rewrite Hheap. by apply delete_insert_id.
Qed.


(** X8: the constructor of [CallbackInfo] reports the number of
    arguments of the frame and puts the argument vector on the native
    heap exactly when there is at least one argument and more than
    [_staticArgCount] of them; the destructor releases that array, so
    that construction followed by destruction leaves the native heap as
    it was. *)
Theorem CallbackInfo_storage_is_released
    (env : napi_env) (info : napi_callback_info) (w : world) :
  exists this w1 w2,
    CallbackInfo_ctor env info w = (Ok this, w1) /\
    CallbackInfo_Length this = Z.of_nat (length (cb_args info)) /\
    (CallbackInfo._dynamicArgs this <> nullptr <->
       0 < Z.of_nat (length (cb_args info)) /\
       _staticArgCount < Z.of_nat (length (cb_args info))) /\
    (CallbackInfo._dynamicArgs this = nullptr -> native w1 = native w) /\
    (CallbackInfo._dynamicArgs this <> nullptr ->
       native w !! CallbackInfo._dynamicArgs this = None /\
       native w1 = <[CallbackInfo._dynamicArgs this := NArgArray (cb_args info)]>
                     (native w)) /\
    CallbackInfo_dtor this w1 = (Ok tt, w2) /\
    native w2 = native w.
Proof.
  destruct (CallbackInfo_ctor_heap env info w)
    as (this & w1 & Hrun & _ & Hargc & _ & _ & _ & _ & _ & _ & _ & _ & _ & _ & Hheap).
  destruct Hheap as [(Hsmall & Hnull & Hsame) | (Hbig & Hdyn & Hfree & Hnew)].
  - destruct (CallbackInfo_dtor_heap this (native w) [] w1) as (w2 & Hd & Hn & _);
      [left; by split |].
    exists this, w1, w2. split; [exact Hrun |]. split; [exact Hargc |].
    split.
    { split; [intros Hne; contradiction |].
      intros [Hpos Hgt]. exfalso. destruct Hsmall as [Hle | Hnil]; [lia |].
      rewrite Hnil in Hpos. simpl in Hpos. lia. }
    split; [intros _; exact Hsame |].
    split; [intros Hne; contradiction |].
    by split.
  - destruct (CallbackInfo_dtor_heap this (native w) (cb_args info) w1)
      as (w2 & Hd & Hn & _); [right; by repeat split |].
    exists this, w1, w2. split; [exact Hrun |]. split; [exact Hargc |].
    split; [by split |].
    split; [intros Hnull; contradiction |].
    split; [intros _; by split |].
    by split.
Qed.

(** ** Trampolines: dispatch and storage *)

(** X9: a function registered with [Function::New] is dispatched to its
    callback.  The registration stores a [CallbackData] naming the
    callback and hands its address to the host as the data of the new
    function.  When the host later calls the trampoline with that data
    while the [CallbackData] is in place, the callback registered is the
    one that runs; it sees the address of the [CallbackData], not the
    data given at registration, as [Data()]; and the value it returns is
    stored in the return slot, no exception being thrown. *)
Theorem Function_New_then_call
    (env : napi_env) (cb : fnptr) (utf8name : string) (data : ptr) (w : world) :
  exists f p w1,
    Function_New env cb utf8name data w = (Ok (Value.mk env f), w1) /\
    lookup_value w1 f = Some (JsNativeFunction FunctionCallbackWrapper_entry p) /\
    native w1 !! p = Some (NCallbackData cb data) /\
    forall (info : napi_callback_info) (callbackInfo : CallbackInfo.t)
           (result : nat) (w' wc w2 w3 : world),
      cb_data info = p ->
      native w' !! p = Some (NCallbackData cb data) ->
      CallbackInfo_ctor env info w' = (Ok callbackInfo, wc) ->
      call_FunctionCallback cb callbackInfo wc = (Ok result, w2) ->
      CallbackInfo_dtor callbackInfo w2 = (Ok tt, w3) ->
      CallbackInfo_Data callbackInfo = p /\
      exists wf,
        FunctionCallbackWrapper env info w' = (Ok tt, wf) /\
        return_value wf = result /\
        pending wf = pending w2 /\
        logged_since w2 wf ["napi_set_return_value"%string].
Proof.
  unfold Function_New, native_new, napi_create_function. step.
  set (p := fresh_ptr w).
  set (w0 := upd_native _ w).
  set (w1 := add_log "napi_create_function" w0).
  eexists _, p, _. split; [reflexivity |].
  split; [apply (lookup_value_new w1) |].
  split; [simpl; apply lookup_insert_eq |].
  intros info callbackInfo result w' wc w2 w3 Hdata Hp Hctor Hcall Hdtor.
  destruct (CallbackInfo_ctor_heap env info w')
    as (ci & wc' & Hrun & _ & _ & _ & Hd & _ & _ & _ & _ & _ & _ & _ & _ & Hheap).
  rewrite Hctor in Hrun. injection Hrun as <- <-.
  assert (native wc !! p = Some (NCallbackData cb data)) as Hpc.
  { destruct Hheap as [(_ & _ & ->) | (_ & _ & Hfree & ->)]; [exact Hp |].
    rewrite lookup_insert_ne; [exact Hp |].
    intros Heq. rewrite Heq in Hfree. congruence. }
  split; [unfold CallbackInfo_Data; congruence |].
  destruct (CallbackInfo_dtor_frame _ _ _ Hdtor) as [Hpend Hlog].
  unfold FunctionCallbackWrapper.
  unfold bind at 1. unfold try_catch. unfold bind at 1. rewrite Hctor.
  unfold scoped, load_CallbackData, native_load, CallbackInfo_Data.
  rewrite Hd, Hdata. step. rewrite Hpc. simpl. rewrite Hcall, Hdtor.
  unfold napi_set_return_value. step.
  eexists. split; [reflexivity |]. simpl.
  split; [reflexivity |]. split; [exact Hpend |].
  unfold logged_since. simpl. by rewrite Hlog.
Qed.


(** The handler of the trampolines, in closed form. *)
Lemma catch_Error_run (env : napi_env) (e : Error.t) (w : world) :
  catch_Error env e w =
    (Ok tt,
     if Nat.eqb (pending w) nullptr && negb (Nat.eqb (Error._value e) nullptr)
     then set_pending (Error._value e)
            (add_log "napi_throw" (add_log "napi_is_exception_pending" w))
     else add_log "napi_is_exception_pending" w).
Proof.
  unfold catch_Error, Error_ThrowAsJavaScriptException, napi_throw.
  unfold bind at 1. rewrite Env_IsExceptionPending_run.
  destruct (Nat.eqb (pending w) nullptr); simpl; [| reflexivity].
  destruct (Nat.eqb (Error._value e) nullptr); reflexivity.
Qed.

Lemma catch_Error_keeps (env : napi_env) (e : Error.t) (w wf : world) :
  catch_Error env e w = (Ok tt, wf) ->
  native wf = native w /\ wrapped wf = wrapped w /\
  references wf = references w /\ values wf = values w /\
  return_value wf = return_value w /\ calls wf = calls w /\
  scopes wf = scopes w.
Proof.
  rewrite catch_Error_run. intros [= <-].
  destruct (Nat.eqb (pending w) nullptr && negb (Nat.eqb (Error._value e) nullptr));
    repeat split.
Qed.

(** X10: the function trampoline releases the argument array on every
    path.  Whether the callback returns or throws, if it leaves the
    native heap as it found it, the trampoline returns to the host with
    the native heap as it was before the call, also when the arguments
    were kept in a heap array. *)
Theorem FunctionCallbackWrapper_releases_arguments
    (env : napi_env) (info : napi_callback_info) (callbackInfo : CallbackInfo.t)
    (cb : fnptr) (data : ptr) (r : outcome nat) (w wc w2 : world) :
  native w !! cb_data info = Some (NCallbackData cb data) ->
  CallbackInfo_ctor env info w = (Ok callbackInfo, wc) ->
  call_FunctionCallback cb callbackInfo wc = (r, w2) ->
  r <> Fault ->
  native w2 = native wc ->
  exists wf,
    FunctionCallbackWrapper env info w = (Ok tt, wf) /\
    native wf = native w.
Proof.
  intros Hp Hctor Hcall Hr Hkeep.
  destruct (CallbackInfo_ctor_heap env info w)
    as (ci & wc' & Hrun & _ & _ & _ & Hd & _ & _ & _ & _ & _ & _ & _ & _ & Hheap).
  rewrite Hctor in Hrun. injection Hrun as <- <-.
  assert (native wc !! cb_data info = Some (NCallbackData cb data)) as Hpc.
  { destruct Hheap as [(_ & _ & ->) | (_ & _ & Hfree & ->)]; [exact Hp |].
    rewrite lookup_insert_ne; [exact Hp |].
    intros Heq. rewrite Heq in Hfree. congruence. }
  destruct (CallbackInfo_dtor_heap callbackInfo (native w) (cb_args info) w2)
    as (w3 & Hdtor & Hn3 & _).
  { rewrite Hkeep.
    destruct Hheap as [(_ & Hnull & Hsame) | (_ & Hdyn & Hfree & Hnew)];
      [left; by split | right; by repeat split]. }
  unfold FunctionCallbackWrapper.
  unfold bind at 1. unfold try_catch. unfold bind at 1. rewrite Hctor.
  unfold scoped, load_CallbackData, native_load, CallbackInfo_Data.
  rewrite Hd. step. rewrite Hpc. simpl. rewrite Hcall.
  destruct r as [result | e |]; [| | contradiction].
  - rewrite Hdtor. unfold napi_set_return_value. step.
    eexists. split; [reflexivity |]. exact Hn3.
  - rewrite Hdtor.
    pose proof (catch_Error_run env e w3) as Hcatch.
    match type of Hcatch with _ = (_, ?x) => set (wf := x) in Hcatch end.
    rewrite Hcatch. exists wf. split; [reflexivity |].
    destruct (catch_Error_keeps env e w3 wf Hcatch) as (Hn & _). congruence.
Qed.

(** X11: a constructor that throws leaves nothing behind.  On a construct
    call whose user constructor throws and leaves the native heap as it
    found it, the storage of the instance is released together with the
    argument array, nothing is wrapped, and the error is handed to the
    host by the handler of the trampoline. *)
Theorem Constructor_failure_releases_instance
    (env : napi_env) (info : napi_callback_info) (callbackInfo : CallbackInfo.t)
    (e : Error.t) (w wc w1 : world) :
  cb_is_construct_call info = true ->
  CallbackInfo_ctor env info (add_log "napi_is_construct_call" w)
    = (Ok callbackInfo, wc) ->
  construct_T (fresh_ptr wc) callbackInfo
      (upd_native (insert (fresh_ptr wc) (NInstance Reference_default)) wc)
    = (Throw e, w1) ->
  native w1 = <[fresh_ptr wc := NInstance Reference_default]> (native wc) ->
  exists wf,
    ConstructorCallbackWrapper env info w = (Ok tt, wf) /\
    native wf = native w /\
    wrapped wf = wrapped w1 /\
    handled_at_boundary e w1 wf.
Proof.
  intros Hcall Hctor Hthrow Hkeep.
  destruct (CallbackInfo_ctor_heap env info (add_log "napi_is_construct_call" w))
    as (ci & wc' & Hrun & _ & _ & _ & _ & _ & _ & _ & _ & _ & _ & _ & _ & Hheap).
  rewrite Hctor in Hrun. injection Hrun as <- <-.
  set (p := fresh_ptr wc) in *.
  assert (p <> nullptr) as Hp by apply fresh_ptr_not_null.
  set (w1' := upd_native (delete p) w1).
  assert (new_T callbackInfo wc = (Throw e, w1')) as Hnew.
  { unfold new_T, native_new. step. unfold try_catch. fold p.
    step. rewrite Hthrow.
    unfold delete_instance, native_load, native_delete. step.
    rewrite Hkeep, lookup_insert_eq. simpl.
    rewrite (eqb_nullptr_false _ Hp). step.
    rewrite Hkeep, lookup_insert_eq. reflexivity. }
  assert (native w1' = native wc) as Hn1.
  { unfold w1'. simpl. rewrite Hkeep. apply delete_insert_id, fresh_ptr_unused. }
  destruct (CallbackInfo_dtor_heap callbackInfo (native w) (cb_args info) w1')
    as (w2 & Hdtor & Hn2 & _ & Hpend & _ & _ & Hwr & _ & _ & _ & Hlog).
  { rewrite Hn1. simpl in Hheap.
    destruct Hheap as [(_ & Hnull & Hsame) | (_ & Hdyn & Hfree & Hnewh)];
      [left; by split | right; by repeat split]. }
  pose proof (catch_Error_run env e w2) as Hcatch.
  match type of Hcatch with _ = (_, ?x) => set (wf := x) in Hcatch end.
  destruct (catch_Error_spec env e w2) as (wf' & Hcatch' & Hh).
  rewrite Hcatch in Hcatch'. injection Hcatch' as <-.
  destruct (catch_Error_keeps env e w2 wf Hcatch) as (Hn & Hw & _).
  exists wf. split; [| split; [congruence | split]].
  - unfold ConstructorCallbackWrapper, napi_is_construct_call. step.
    rewrite Hcall. simpl.
    unfold try_catch. rewrite Hctor. unfold scoped. rewrite Hnew, Hdtor.
    by rewrite Hcatch.
  - rewrite Hw, Hwr. reflexivity.
  - apply (handled_at_boundary_frame e w1 w2 wf); [| | exact Hh].
    + by rewrite Hpend.
    + by rewrite Hlog.
Qed.


(** X12: an instance method registered with [InstanceMethod] is
    dispatched to the wrapped instance.  The registration passes the
    attributes through unchanged and stores a [CallbackData] naming the
    method and the data.  When the host calls the trampoline with that
    [CallbackData] on a receiver that wraps an instance, the registered
    method runs on exactly that instance, sees the registered data as
    [Data()], and its result is stored in the return slot. *)
Theorem InstanceMethod_then_call
    (utf8name : string) (method : fnptr) (attributes : Z) (data : ptr) (w : world) :
  exists desc w1,
    ObjectWrap_InstanceMethod utf8name method attributes data w = (Ok desc, w1) /\
    desc_method desc = Some InstanceMethodCallbackWrapper_entry /\
    desc_attributes desc = attributes /\
    native w1 !! desc_data desc = Some (NCallbackData method data) /\
    forall (env : napi_env) (info : napi_callback_info)
           (callbackInfo : CallbackInfo.t) (instance : ptr) (result : nat)
           (w' wc w2 w3 : world),
      cb_data info = desc_data desc ->
      native w' !! desc_data desc = Some (NCallbackData method data) ->
      cb_this info <> nullptr ->
      wrapped w' !! cb_this info = Some instance ->
      CallbackInfo_ctor env info w' = (Ok callbackInfo, wc) ->
      call_InstanceMethodCallback method instance
          (CallbackInfo_SetData callbackInfo data) (add_log "napi_unwrap" wc)
        = (Ok result, w2) ->
      CallbackInfo_dtor callbackInfo w2 = (Ok tt, w3) ->
      CallbackInfo_Data (CallbackInfo_SetData callbackInfo data) = data /\
      exists wf,
        InstanceMethodCallbackWrapper env info w' = (Ok tt, wf) /\
        return_value wf = result /\
        pending wf = pending w2.
Proof.
  unfold ObjectWrap_InstanceMethod, native_new. step.
  set (p := fresh_ptr w).
  eexists _, _. split; [reflexivity |]. simpl.
  split; [reflexivity |]. split; [reflexivity |].
  split; [apply lookup_insert_eq |].
  intros env info callbackInfo instance result w' wc w2 w3
    Hdata Hp Hthis Hwrapped Hctor Hcall Hdtor.
  split; [reflexivity |].
  destruct (CallbackInfo_ctor_heap env info w')
    as (ci & wc' & Hrun & _ & _ & Hthis' & Hd & _ & _ & _ & _ & Hwr & _ & _ & _ & Hheap).
  rewrite Hctor in Hrun. injection Hrun as <- <-.
  assert (native wc !! p = Some (NCallbackData method data)) as Hpc.
  { destruct Hheap as [(_ & _ & ->) | (_ & _ & Hfree & ->)]; [exact Hp |].
    rewrite lookup_insert_ne; [exact Hp |].
    intros Heq. rewrite Heq in Hfree. congruence. }
  destruct (CallbackInfo_dtor_frame _ _ _ Hdtor) as [Hpend Hlog].
  unfold InstanceMethodCallbackWrapper.
  unfold bind at 1. unfold try_catch. unfold bind at 1. rewrite Hctor.
  unfold scoped, load_CallbackData, native_load, CallbackInfo_Data,
    CallbackInfo_This, ObjectWrap_Unwrap, napi_unwrap.
  rewrite Hd, Hdata. step. rewrite Hpc. simpl.
  rewrite Hthis', (eqb_nullptr_false _ Hthis). simpl.
  rewrite Hwr, Hwrapped. simpl. rewrite Hcall, Hdtor.
  unfold napi_set_return_value. step.
  eexists. split; [reflexivity |]. simpl. split; [reflexivity | exact Hpend].
Qed.

Opaque check_status.

(** X13: an instance method called on a receiver that wraps nothing never
    runs.  With no host exception pending, the trampoline returns to the
    host with a new generic host error pending, whatever the method would
    do; the return slot, the recorded calls and the native heap are as
    before. *)
Theorem InstanceMethod_on_unwrapped_receiver
    (env : napi_env) (info : napi_callback_info) (method : fnptr) (data : ptr)
    (w : world) :
  pending w = nullptr ->
  cb_this info <> nullptr ->
  wrapped w !! cb_this info = None ->
  native w !! cb_data info = Some (NCallbackData method data) ->
  exists e wf,
    InstanceMethodCallbackWrapper env info w = (Ok tt, wf) /\
    pending wf = Error._value e /\
    Error._value e <> nullptr /\
    is_host_error wf e generic_error "Invalid pointer passed as argument" /\
    return_value wf = return_value w /\
    calls wf = calls w /\
    native wf = native w.
Proof.
  intros Hpend Hthis Hwrapped Hp.
  destruct (CallbackInfo_ctor_heap env info w)
    as (ci & wc & Hctor & Henv & _ & Hthis' & Hd & Hv & Hpc & _ & _ & Hwr & _ & Hret
        & Hcalls & Hheap).
  assert (native wc !! cb_data info = Some (NCallbackData method data)) as Hpc'.
  { destruct Hheap as [(_ & _ & ->) | (_ & _ & Hfree & ->)]; [exact Hp |].
    rewrite lookup_insert_ne; [exact Hp |].
    intros Heq. rewrite Heq in Hfree. congruence. }
  unfold InstanceMethodCallbackWrapper.
  unfold bind at 1. unfold try_catch. unfold bind at 1. rewrite Hctor.
  unfold scoped, load_CallbackData, native_load, CallbackInfo_Data,
    CallbackInfo_This, ObjectWrap_Unwrap, napi_unwrap.
  rewrite Hd. step. rewrite Hpc'. simpl.
  rewrite Hthis', (eqb_nullptr_false _ Hthis). simpl.
  rewrite Hwr, Hwrapped. simpl.
  match goal with
  | |- context [check_status ?env' ?st ?W] =>
      destruct (check_status_throws env' st W)
        as (e & w' & Hrun & _ & Hval & _ & Herr & Hpend' & Hframe);
      [discriminate | simpl; congruence | reflexivity |];
      rewrite Hrun;
      assert (native W = native wc) as HnW by reflexivity;
      assert (return_value W = return_value wc) as HrW by reflexivity;
      assert (calls W = calls wc) as HcW by reflexivity
  end.
  destruct Hframe as (_ & _ & _ & Hret' & Hcalls' & Hnat' & Hkept).
  destruct (CallbackInfo_dtor_heap ci (native w) (cb_args info) w')
    as (w2 & Hdtor & Hn2 & Hv2 & Hp2 & _ & _ & _ & _ & Hret2 & Hcalls2 & _).
  { rewrite Hnat', HnW.
    destruct Hheap as [(_ & Hnull & Hsame) | (_ & Hdyn & Hfree & Hnewh)];
      [left; by split | right; by repeat split]. }
  rewrite Hdtor. unfold bind. rewrite catch_Error_run.
  rewrite Hp2, Hpend', (eqb_nullptr_false _ Hval). simpl.
  exists e. eexists. split; [reflexivity |]. simpl.
  split; [reflexivity |]. split; [exact Hval |].
  split.
  { destruct Herr as (m & He & Hm). exists m.
    split; (rewrite (lookup_value_ext w' _) by (simpl; exact Hv2)); assumption. }
  split; [congruence |]. split; [congruence |]. exact Hn2.
Qed.

(** X14: finalization of a wrapped instance.  When the host has collected
    a wrapped object that no positive count holds and calls the finalizer
    with the instance, the storage of the instance and the weak root the
    instance kept of its object are released; afterwards [Unwrap] on the
    stale handle throws an error and does not fault. *)
Theorem FinalizeCallback_releases_instance
    (env : napi_env) (obj : nat) (instance hint : ptr) (base : Reference.t)
    (w : world) :
  instance <> nullptr ->
  wrapped w !! obj = Some instance ->
  native w !! instance = Some (NInstance base) ->
  Reference._ref base <> nullptr ->
  Reference._suppressDestruct base = false ->
  references w !! Reference._ref base = Some (obj, 0) ->
  strongly_held w obj = false ->
  pending w = nullptr ->
  exists w2 e w3,
    FinalizeCallback instance hint (host_collect obj w) = (Ok tt, w2) /\
    native w2 = delete instance (native w) /\
    references w2 !! Reference._ref base = None /\
    wrapped w2 !! obj = None /\
    ObjectWrap_Unwrap (Value.mk env obj) w2 = (Throw e, w3) /\
    is_host_error w3 e generic_error "Invalid pointer passed as argument".
Proof.
  intros Hi Hwrapped Hinst Hr Hflag Hroot Hfree Hpend.
  pose proof (host_collect_root w obj _ 0 Hfree Hroot) as Hroot1.
  pose proof (host_collect_native obj w) as Hnat1.
  assert (wrapped (host_collect obj w) !! obj = None) as Hw1.
  { unfold host_collect. rewrite Hfree. simpl. apply lookup_delete_eq. }
  assert (pending (host_collect obj w) = nullptr) as Hp1.
  { unfold host_collect. by rewrite Hfree. }
  set (w1 := host_collect obj w) in *.
  set (w2 := upd_native (delete instance)
               (upd_references (delete (Reference._ref base))
                  (add_log "napi_delete_reference" w1))).
  assert (FinalizeCallback instance hint w1 = (Ok tt, w2)) as Hfin.
  { unfold FinalizeCallback, delete_instance, native_load, Reference_dtor,
      napi_delete_reference, native_delete.
    rewrite (eqb_nullptr_false _ Hi). step.
    rewrite Hnat1, Hinst. simpl.
    rewrite (eqb_nullptr_false _ Hr), Hflag. simpl.
    rewrite Hroot1. simpl. rewrite Hnat1, Hinst. reflexivity. }
  rewrite Hfin.
  change (wrapped w1 !! obj) with (wrapped w2 !! obj) in Hw1.
  assert (exists e w3,
            ObjectWrap_Unwrap (Value.mk env obj) w2 = (Throw e, w3) /\
            is_host_error w3 e generic_error
              "Invalid pointer passed as argument") as (e & w3 & Hun & Herr).
  { unfold ObjectWrap_Unwrap, napi_unwrap. autounfold with napi.
    change (wrapped (add_log "napi_unwrap" w2) !! Value._value (Value.mk env obj))
      with (wrapped w2 !! obj).
    rewrite Hw1. cbv beta iota.
    match goal with
    | |- context [check_status ?env' ?st ?W] =>
        destruct (check_status_throws env' st W)
          as (e & w3 & Hrun & _ & _ & _ & Herr & _ & _);
        [discriminate | exact Hp1 | reflexivity |];
        rewrite Hrun
    end.
    by exists e, w3. }
  exists w2, e, w3. split; [reflexivity |]. simpl.
  split; [by rewrite Hnat1 |]. split; [apply lookup_delete_eq |].
  split; [exact Hw1 |]. split; assumption.
Qed.

Transparent check_status.


(** ** Errors made by user code *)

Lemma lookup_value_null_new (w : world) (x : js_value) :
  lookup_value (upd_values (insert (fresh_value w) x) w) nullptr
    = lookup_value w nullptr.
Proof.
  unfold lookup_value. simpl.
  rewrite lookup_insert_ne; [reflexivity | apply fresh_value_not_null].
Qed.

Lemma Error_New_with_run (name : string) (kind : error_kind)
    (env : napi_env) (message : string) (w : world) :
  exists e w',
    Error_New_with (create_error_of_kind name kind) env message
                   (String.length message) w = (Ok e, w') /\
    Error._env e = env /\
    Error._value e <> nullptr /\
    lookup_value w (Error._value e) = None /\
    is_host_error w' e kind message /\
    pending w' = pending w /\
    lookup_value w' nullptr = lookup_value w nullptr /\
    only_adds_values w w'.
Proof.
  unfold Error_New_with, napi_create_string_utf8.
  step. rewrite substring_whole.
  set (w1 := add_log "napi_create_string_utf8" w).
  set (w2 := upd_values _ w1).
  assert (lookup_value w2 (fresh_value w1) = Some (JsString message)) as Hm
    by apply lookup_value_new.
  rewrite (create_error_of_kind_run _ _ _ _ _ _ Hm). simpl.
  set (w3 := add_log name w2).
  eexists _, _. split; [reflexivity |]. simpl.
  split; [reflexivity |].
  split; [apply fresh_value_not_null |].
  split.
  { rewrite lookup_value_unreserved by apply fresh_value_not_reserved.
    pose proof (fresh_value_not_in_dom w3) as Hfresh. simpl in Hfresh.
    apply lookup_insert_None in Hfresh. exact (proj1 Hfresh). }
  split.
  { exists (fresh_value w1). split; [apply lookup_value_new |].
    by apply lookup_value_kept. }
  split; [reflexivity |].
  split.
  { rewrite (lookup_value_null_new w3).
    change (lookup_value w3 nullptr) with (lookup_value w2 nullptr).
    unfold w2. by rewrite lookup_value_null_new. }
  apply (only_adds_values_trans w w2).
  - apply (only_adds_values_trans w w1); [by apply only_adds_values_same |].
    apply only_adds_values_new.
  - apply (only_adds_values_trans w2 w3); [by apply only_adds_values_same |].
    apply only_adds_values_new.
Qed.

Lemma RegisterModule_throwing_new (name : string) (kind : error_kind)
    (env : napi_env) (exports module : nat) (message : string) (w : world) :
  pending w = nullptr ->
  exists e wf,
    RegisterModule env exports module
        (throws_new (fun env message =>
                       Error_New_with (create_error_of_kind name kind) env message
                                      (String.length message)) message) w
      = (Ok tt, wf) /\
    pending wf = Error._value e /\
    Error._value e <> nullptr /\
    lookup_value w (Error._value e) = None /\
    is_host_error wf e kind message.
Proof.
  intros Hp.
  destruct (Error_New_with_run name kind env message w)
    as (e & w' & Hrun & _ & Hval & Hnew & Herr & Hpend & _ & _).
  unfold RegisterModule, try_catch, throws_new, bind. rewrite Hrun.
  unfold throw. rewrite catch_Error_run.
  rewrite Hpend, Hp, (eqb_nullptr_false _ Hval). simpl.
  exists e. eexists. split; [reflexivity |]. simpl.
  split; [reflexivity |]. split; [exact Hval |]. split; [exact Hnew |].
  destruct Herr as (m & He & Hm). exists m. split; assumption.
Qed.

(** X15: errors made by user code reach the host with their kind and
    message.  When the registration function of a module throws
    [Error::New(env, message)], [TypeError::New(env, message)] or
    [RangeError::New(env, message)] while no host exception is pending,
    [RegisterModule] returns normally and the host has a new error
    pending, of the generic, the type and the range kind respectively,
    whose message is exactly [message]. *)
Theorem thrown_native_errors_reach_host
    (env : napi_env) (exports module : nat) (message : string) (w : world) :
  pending w = nullptr ->
  (exists e wf,
     RegisterModule env exports module (throws_new Error_New_message message) w
       = (Ok tt, wf) /\
     pending wf = Error._value e /\ Error._value e <> nullptr /\
     lookup_value w (Error._value e) = None /\
     is_host_error wf e generic_error message) /\
  (exists e wf,
     RegisterModule env exports module (throws_new TypeError_New message) w
       = (Ok tt, wf) /\
     pending wf = Error._value e /\ Error._value e <> nullptr /\
     lookup_value w (Error._value e) = None /\
     is_host_error wf e type_error message) /\
  (exists e wf,
     RegisterModule env exports module (throws_new RangeError_New message) w
       = (Ok tt, wf) /\
     pending wf = Error._value e /\ Error._value e <> nullptr /\
     lookup_value w (Error._value e) = None /\
     is_host_error wf e range_error message).
Proof.
  intros Hp. split; [| split].
  - apply (RegisterModule_throwing_new "napi_create_error" generic_error); exact Hp.
  - apply (RegisterModule_throwing_new "napi_create_type_error" type_error);
      exact Hp.
  - apply (RegisterModule_throwing_new "napi_create_range_error" range_error);
      exact Hp.
Qed.

(** X16: a pending host exception is relayed unchanged.  When the
    registration function of a module throws [Error::New(env)] while a
    host exception is pending, [RegisterModule] returns normally with
    that same exception pending again; no host value has been created. *)
Theorem pending_exception_is_relayed
    (env : napi_env) (exports module : nat) (w : world) :
  pending w <> nullptr ->
  exists wf,
    RegisterModule env exports module throws_last_error w = (Ok tt, wf) /\
    pending wf = pending w /\
    values wf = values w /\
    logged_since w wf ["napi_is_exception_pending"%string;
                       "napi_get_and_clear_last_exception"%string;
                       "napi_is_exception_pending"%string;
                       "napi_throw"%string].
Proof.
  intros Hp.
  unfold RegisterModule, try_catch, throws_last_error, bind, Error_New.
  unfold bind at 1. rewrite Env_IsExceptionPending_run.
  rewrite (eqb_nullptr_false _ Hp). simpl.
  unfold napi_get_and_clear_last_exception. step.
  rewrite (eqb_nullptr_false _ Hp). simpl.
  rewrite catch_Error_run. simpl.
  rewrite (eqb_nullptr_false _ Hp). simpl.
  eexists. split; [reflexivity |]. simpl.
  split; [reflexivity |]. split; [reflexivity |].
  unfold logged_since. simpl. by rewrite <- !app_assoc.
Qed.


(** ** Scopes on every path *)

Lemma Error_New_total (env : napi_env) (w : world) :
  exists e w', Error_New env w = (Ok e, w') /\ only_adds_values w w'.
Proof.
  destruct (decide (pending w = nullptr)) as [Hp | Hp].
  - destruct (Error_New_synthesizes env w Hp) as (e & w' & Hrun & H).
    exists e, w'. split; [exact Hrun |]. apply H.
  - destruct (Error_New_relays env w Hp) as (w' & Hrun & H).
    eexists _, w'. split; [exact Hrun |]. apply H.
Qed.

Lemma check_status_total (env : napi_env) (st : napi_status) (w : world) :
  exists r w',
    check_status env st w = (r, w') /\
    no_fault r /\
    only_adds_values w w' /\
    (st = napi_ok -> r = Ok tt).
Proof.
  unfold check_status.
  destruct (decide (st <> napi_ok)) as [Hne | Heq].
  - destruct (Error_New_total env w) as (e & w' & Hrun & Hframe).
    unfold bind. rewrite Hrun. exists (Throw e), w'.
    repeat split; try apply Hframe. intros Hst. contradiction.
  - exists (Ok tt), w. split; [reflexivity |]. split; [exact I |].
    split; [apply only_adds_values_refl | reflexivity].
Qed.

Lemma check_status_ok (env : napi_env) (w : world) :
  check_status env napi_ok w = (Ok tt, w).
Proof. reflexivity. Qed.

(** A failed status is never turned into a normal return. *)
Lemma check_status_throws_or_not (env : napi_env) (st : napi_status) (w : world) :
  exists r w',
    check_status env st w = (r, w') /\
    no_fault r /\
    only_adds_values w w' /\
    (st <> napi_ok -> r <> Ok tt).
Proof.
  unfold check_status.
  destruct (decide (st <> napi_ok)) as [Hne | Heq].
  - destruct (Error_New_total env w) as (e & w' & Hrun & Hframe).
    unfold bind. rewrite Hrun. exists (Throw e), w'.
    repeat split; try apply Hframe. intros _ Habs. discriminate Habs.
  - exists (Ok tt), w. split; [reflexivity |]. split; [exact I |].
    split; [apply only_adds_values_refl |]. intros Hne. contradiction.
Qed.

Opaque check_status.

Lemma Reference_Value_total (this : Reference.t) (w : world) :
  exists r w',
    Reference_Value this w = (r, w') /\
    no_fault r /\
    scopes w' = scopes w /\
    calls w' = calls w.
Proof.
  unfold Reference_Value, napi_get_reference_value.
  destruct (Nat.eqb (Reference._ref this) nullptr).
  - eexists _, w. repeat split.
  - step. destruct (references w !! Reference._ref this) as [[v c] |]; simpl.
    + match goal with
      | |- context [check_status ?env ?st ?W] =>
          destruct (check_status_total env st W)
            as (r & w' & Hrun & Hnf & Hframe & Hok)
      end.
      rewrite Hrun, (Hok eq_refl). eexists _, w'.
      split; [reflexivity |]. split; [exact I |].
      destruct Hframe as (_ & _ & Hs & _ & Hc & _). by split.
    + match goal with
      | |- context [check_status ?env ?st ?W] =>
          destruct (check_status_total env st W)
            as (r & w' & Hrun & Hnf & Hframe & Hok)
      end.
      rewrite Hrun. destruct Hframe as (_ & _ & Hs & _ & Hc & _).
      destruct r as [[] | e |]; [| | contradiction];
        eexists _, w'; (split; [reflexivity |]); split; try exact I; by split.
Qed.

Lemma Function_MakeCallback_total (this : Value.t) (recv : nat) (args : list nat)
    (w : world) :
  exists r w',
    Function_MakeCallback this recv args w = (r, w') /\
    no_fault r /\
    scopes w' = scopes w /\
    (calls w' = calls w \/
     exists x, lookup_value w (Value._value this) = Some x /\
               is_js_function x = true /\
               calls w' = calls w ++ [(Value._value this, recv, args)] /\
               r = Ok (Value.mk (Value._env this) h_undefined)) /\
    (forall x, lookup_value w (Value._value this) = Some x ->
               is_js_function x = true ->
               r = Ok (Value.mk (Value._env this) h_undefined)).
Proof.
  unfold Function_MakeCallback, napi_make_callback. step.
  change (lookup_value (add_log "napi_make_callback" w) (Value._value this))
    with (lookup_value w (Value._value this)).
  destruct (lookup_value w (Value._value this)) as [x |] eqn:Hx; simpl.
  - destruct (is_js_function x) eqn:Hf; simpl.
    + match goal with
      | |- context [check_status ?env ?st ?W] =>
          destruct (check_status_total env st W)
            as (r & w' & Hrun & Hnf & Hframe & Hok)
      end.
      rewrite Hrun, (Hok eq_refl). eexists _, w'.
      destruct Hframe as (_ & _ & Hs & _ & Hc & _).
      split; [reflexivity |]. split; [exact I |]. split; [exact Hs |].
      split; [| reflexivity].
      right. exists x. split; [reflexivity |]. split; [exact Hf |].
      split; [exact Hc | reflexivity].
    + match goal with
      | |- context [check_status ?env ?st ?W] =>
          destruct (check_status_throws_or_not env st W)
            as (r & w' & Hrun & Hnf & Hframe & Hthrow)
      end.
      rewrite Hrun. destruct Hframe as (_ & _ & Hs & _ & Hc & _).
      destruct r as [[] | e |]; [exfalso; by apply Hthrow | | contradiction].
      eexists _, w'. split; [reflexivity |]. split; [exact I |].
      split; [exact Hs |]. split; [by left |].
      intros y [= <-] Hy. congruence.
  - match goal with
    | |- context [check_status ?env ?st ?W] =>
        destruct (check_status_throws_or_not env st W)
          as (r & w' & Hrun & Hnf & Hframe & Hthrow)
    end.
    rewrite Hrun. destruct Hframe as (_ & _ & Hs & _ & Hc & _).
    destruct r as [[] | e |]; [exfalso; by apply Hthrow | | contradiction].
    eexists _, w'. split; [reflexivity |]. split; [exact I |].
    split; [exact Hs |]. split; [by left |].
    intros y Hy. discriminate Hy.
Qed.


Lemma scoped_run {A} (body : M A) (dtor : M unit) (r : outcome A) (w w2 w3 : world) :
  body w = (r, w2) ->
  no_fault r ->
  dtor w2 = (Ok tt, w3) ->
  scoped body dtor w = (r, w3).
Proof.
  intros Hb Hr Hd. unfold scoped. rewrite Hb.
  destruct r; [| | contradiction]; by rewrite Hd.
Qed.

Lemma close_scope_pops (name : string) (s : nat) (S : list nat) (w : world) :
  scopes w = s :: S ->
  close_scope name s w = (Ok napi_ok, upd_scopes tail (add_log name w)).
Proof.
  intros Hs. unfold close_scope. step. rewrite Hs. simpl.
  by rewrite decide_True.
Qed.

Lemma open_scope_run (name : string) (w : world) :
  open_scope name w =
    (Ok (napi_ok, fresh_scope (add_log name w)),
     upd_scopes (cons (fresh_scope (add_log name w))) (add_log name w)).
Proof. reflexivity. Qed.

Lemma FunctionReference_MakeCallback_total
    (this : Reference.t) (recv : nat) (args : list nat) (w : world) :
  exists r w',
    FunctionReference_MakeCallback this recv args w = (r, w') /\
    no_fault r /\
    scopes w' = scopes w /\
    (calls w' = calls w \/
     exists f, calls w' = calls w ++ [(f, recv, args)] /\
               r = Ok (Value.mk (Reference._env this) h_undefined)).
Proof.
  unfold FunctionReference_MakeCallback, EscapableHandleScope_ctor,
    napi_open_escapable_handle_scope.
  unfold bind at 1. unfold bind at 1. rewrite open_scope_run.
  unfold bind at 1. rewrite check_status_ok. unfold ret at 1.
  set (w0 := add_log "napi_open_escapable_handle_scope" w).
  set (s := fresh_scope w0).
  set (w1 := upd_scopes (cons s) w0).
  set (scope := HandleScope.mk (Reference._env this) s).
  assert (forall w2, scopes w2 = scopes w1 ->
            exists w3, EscapableHandleScope_dtor scope w2 = (Ok tt, w3) /\
                       scopes w3 = scopes w /\ calls w3 = calls w2) as Hdtor.
  { intros w2 Hs2. unfold EscapableHandleScope_dtor,
      napi_close_escapable_handle_scope, bind.
    rewrite (close_scope_pops _ s (scopes w) w2) by exact Hs2.
    eexists. split; [reflexivity |]. simpl. rewrite Hs2. by split. }
  destruct (Reference_Value_total this w1) as (r1 & w2 & H1 & Hnf1 & Hs1 & Hc1).
  destruct r1 as [f | e |]; [| | contradiction].
  - destruct (Function_MakeCallback_total f recv args w2)
      as (r2 & w3 & H2 & Hnf2 & Hs2 & Hc2 & _).
    destruct r2 as [v | e |]; [| | contradiction].
    + destruct (Hdtor (add_log "napi_escape_handle" w3)) as (w4 & Hd & Hs4 & Hc4).
      { exact (eq_trans Hs2 Hs1). }
      exists (Ok (Value.mk (Reference._env this) (Value._value v))), w4. split.
      { apply (scoped_run _ _ _ w1 (add_log "napi_escape_handle" w3) w4);
          [| exact I | exact Hd].
        unfold bind. rewrite H1, H2.
        unfold EscapableHandleScope_Escape, napi_escape_handle. step.
        rewrite check_status_ok. reflexivity. }
      split; [exact I |]. split; [exact Hs4 |].
      destruct Hc2 as [Hsame | (x & _ & _ & Hcall & Hv)].
      * left. rewrite Hc4. change (calls w3 = calls w).
        rewrite Hsame, Hc1. reflexivity.
      * right. exists (Value._value f). injection Hv as ->. simpl.
        split; [| reflexivity].
        rewrite Hc4. change (calls w3 = calls w ++ [(Value._value f, recv, args)]).
        rewrite Hcall, Hc1. reflexivity.
    + destruct (Hdtor w3) as (w4 & Hd & Hs4 & Hc4); [exact (eq_trans Hs2 Hs1) |].
      exists (Throw e), w4. split.
      { apply (scoped_run _ _ _ w1 w3 w4); [| exact I | exact Hd].
        unfold bind. by rewrite H1, H2. }
      split; [exact I |]. split; [exact Hs4 |].
      left. destruct Hc2 as [Hsame | (x & _ & _ & _ & Hv)]; [| discriminate Hv].
      rewrite Hc4, Hsame, Hc1. reflexivity.
  - destruct (Hdtor w2) as (w4 & Hd & Hs4 & Hc4); [exact Hs1 |].
    exists (Throw e), w4. split.
    { apply (scoped_run _ _ _ w1 w2 w4); [| exact I | exact Hd].
      unfold bind. by rewrite H1. }
    split; [exact I |]. split; [exact Hs4 |].
    left. rewrite Hc4, Hc1. reflexivity.
Qed.


Lemma HandleScope_dtor_pops (env : napi_env) (s : nat) (S : list nat) (w : world) :
  scopes w = s :: S ->
  exists w',
    HandleScope_dtor (HandleScope.mk env s) w = (Ok tt, w') /\
    scopes w' = S /\ calls w' = calls w /\ values w' = values w.
Proof.
  intros Hs. unfold HandleScope_dtor, napi_close_handle_scope, bind. simpl.
  rewrite (close_scope_pops _ s S w Hs).
  eexists. split; [reflexivity |]. simpl. rewrite Hs. by repeat split.
Qed.

Lemma Env_Global_run (env : napi_env) (w : world) :
  Env_Global env w = (Ok (Value.mk env h_global), add_log "napi_get_global" w).
Proof.
  unfold Env_Global, napi_get_global. step. by rewrite check_status_ok.
Qed.

(** X17: the completion hook closes the scope it opens, on every path.
    For every worker and every state of the host, the hook returns or
    throws, never faults; the stack of open scopes is afterwards what it
    was before; and the hook has recorded either no call or exactly one
    call, on the global object, in which case it returned normally. *)
Theorem WorkComplete_closes_its_scope (this : AsyncWorker.t) (w : world) :
  exists r w',
    AsyncWorker_OnWorkComplete this w = (r, w') /\
    no_fault r /\
    scopes w' = scopes w /\
    (calls w' = calls w \/
     exists f args, calls w' = calls w ++ [(f, h_global, args)] /\ r = Ok tt).
Proof.
  unfold AsyncWorker_OnWorkComplete, AsyncWorker_WorkComplete, HandleScope_ctor,
    napi_open_handle_scope.
  unfold bind at 1. unfold bind at 1. rewrite open_scope_run.
  unfold bind at 1. rewrite check_status_ok. unfold ret at 1.
  set (w0 := add_log "napi_open_handle_scope" w).
  set (s := fresh_scope w0).
  set (w1 := upd_scopes (cons s) w0).
  assert (scopes w1 = s :: scopes w) as Hs1 by reflexivity.
  assert (calls w1 = calls w) as Hc1 by reflexivity.
  assert (exists r w2,
            (if Nat.eqb (String.length (AsyncWorker._errmsg this)) 0
             then AsyncWorker_OnOK this else AsyncWorker_OnError this) w1
              = (r, w2) /\
            no_fault r /\ scopes w2 = scopes w1 /\
            (calls w2 = calls w1 \/
             exists f args, calls w2 = calls w1 ++ [(f, h_global, args)] /\
                            r = Ok tt)) as (r & w2 & Hbody & Hnf & Hs2 & Hc2).
  { destruct (Nat.eqb (String.length (AsyncWorker._errmsg this)) 0).
    - unfold AsyncWorker_OnOK. unfold bind at 1. rewrite Env_Global_run.
      set (w2 := add_log "napi_get_global" w1).
      destruct (FunctionReference_MakeCallback_total (AsyncWorker._callback this)
                  h_global [] w2) as (r & w3 & Hrun & Hnf & Hs & Hc).
      unfold bind. simpl. rewrite Hrun.
      destruct r as [v | e |]; [| | contradiction].
      + exists (Ok tt), w3. split; [reflexivity |]. split; [exact I |].
        split; [exact Hs |].
        destruct Hc as [Hc | (f & Hc & _)]; [by left |].
        right. by exists f, [].
      + exists (Throw e), w3. split; [reflexivity |]. split; [exact I |].
        split; [exact Hs |].
        destruct Hc as [Hc | (f & _ & Habs)]; [by left | discriminate Habs].
    - unfold AsyncWorker_OnError. unfold bind at 1. rewrite Env_Global_run.
      set (w2 := add_log "napi_get_global" w1).
      destruct (Error_New_with_run "napi_create_error" generic_error
                  (AsyncWorker_Env this) (AsyncWorker._errmsg this) w2)
        as (e & w3 & Hrun & _ & _ & _ & _ & _ & _ & Hframe).
      unfold bind at 1. unfold Error_New_message, napi_create_error.
      rewrite Hrun.
      destruct Hframe as (_ & _ & Hs3 & _ & Hc3 & _).
      destruct (FunctionReference_MakeCallback_total (AsyncWorker._callback this)
                  h_global [Error._value e] w3) as (r & w4 & Hrun4 & Hnf & Hs & Hc).
      unfold bind. simpl. rewrite Hrun4.
      assert (scopes w4 = scopes w1) as Hs4 by (rewrite Hs, Hs3; reflexivity).
      destruct r as [v | e' |]; [| | contradiction].
      + exists (Ok tt), w4. split; [reflexivity |]. split; [exact I |].
        split; [exact Hs4 |].
        destruct Hc as [Hc | (f & Hc & _)].
        * left. rewrite Hc, Hc3. reflexivity.
        * right. exists f, [Error._value e]. split; [| reflexivity].
          rewrite Hc, Hc3. reflexivity.
      + exists (Throw e'), w4. split; [reflexivity |]. split; [exact I |].
        split; [exact Hs4 |].
        destruct Hc as [Hc | (f & _ & Habs)]; [| discriminate Habs].
        left. rewrite Hc, Hc3. reflexivity. }
  destruct (HandleScope_dtor_pops (AsyncWorker._env this) s (scopes w) w2)
    as (w3 & Hd & Hs3 & Hc3 & _); [by rewrite Hs2 |].
  exists r, w3. split.
  { by apply (scoped_run _ _ r w1 w2 w3). }
  split; [exact Hnf |]. split; [exact Hs3 |].
  rewrite Hc3. rewrite Hc1 in Hc2. exact Hc2.
Qed.

Lemma FunctionReference_MakeCallback_empty
    (this : Reference.t) (recv : nat) (args : list nat) (w : world) :
  Reference._ref this = nullptr ->
  pending w = nullptr ->
  lookup_value w nullptr = None ->
  exists e w',
    FunctionReference_MakeCallback this recv args w = (Throw e, w') /\
    calls w' = calls w /\
    scopes w' = scopes w /\
    is_host_error w' e generic_error "Invalid pointer passed as argument".
Proof.
  intros Hnull Hp Hnone.
  unfold FunctionReference_MakeCallback, EscapableHandleScope_ctor,
    napi_open_escapable_handle_scope.
  unfold bind at 1. unfold bind at 1. rewrite open_scope_run.
  unfold bind at 1. rewrite check_status_ok. unfold ret at 1.
  set (w0 := add_log "napi_open_escapable_handle_scope" w).
  set (s := fresh_scope w0).
  set (w1 := upd_scopes (cons s) w0).
  set (scope := HandleScope.mk (Reference._env this) s).
  set (W := set_last_error
              (mk_error_info (status_message napi_invalid_arg) napi_invalid_arg)
              (add_log "napi_make_callback" w1)).
  destruct (check_status_throws (Reference._env this) napi_invalid_arg W)
    as (e & w2 & Hrun & _ & _ & _ & Herr & _ & Hframe);
    [discriminate | exact Hp | reflexivity |].
  destruct Hframe as (_ & _ & Hs2 & _ & Hc2 & _).
  assert (scopes w2 = s :: scopes w) as Hs2' by (rewrite Hs2; reflexivity).
  unfold EscapableHandleScope_dtor, napi_close_escapable_handle_scope.
  assert (scoped
            (f <- Reference_Value this;;
             v <- Function_MakeCallback f recv args;;
             EscapableHandleScope_Escape scope (Value._value v))
            (close_scope "napi_close_escapable_handle_scope"
               (HandleScope._scope scope);;; ret tt) w1
          = (Throw e,
             upd_scopes tail
               (add_log "napi_close_escapable_handle_scope" w2))) as Hbody.
  { apply (scoped_run _ _ _ w1 w2); [| exact I |].
    - unfold Reference_Value. rewrite Hnull. simpl.
      unfold bind at 1. unfold ret at 1.
      unfold Function_MakeCallback, napi_make_callback. step.
      change (lookup_value (add_log "napi_make_callback" w1) nullptr)
        with (lookup_value w nullptr).
      rewrite Hnone. simpl.
      change (set_last_error _ (add_log "napi_make_callback" w1)) with W.
      by rewrite Hrun.
    - unfold bind. simpl.
      by rewrite (close_scope_pops _ s (scopes w) w2 Hs2'). }
  rewrite Hbody. eexists _, _. split; [reflexivity |]. simpl.
  split; [rewrite Hc2; reflexivity |].
  split; [by rewrite Hs2' |].
  destruct Herr as (m & He & Hm). exists m. split; assumption.
Qed.

(** X18: move construction of a worker does not carry the completion
    callback.  The new worker takes the environment, the work handle, the
    object bag and the error message of the source, but its callback
    reference is empty and the callback root stays with the source.  With
    no host exception pending, the completion hook of the new worker
    throws an error wrapping a new generic host error, calls nothing, and
    leaves the stack of scopes as it was. *)
Theorem moved_worker_has_no_callback
    (leftover : string) (other : AsyncWorker.t) (w : world) :
  pending w = nullptr ->
  lookup_value w nullptr = None ->
  let moved := AsyncWorker_move_ctor leftover other in
  Reference_IsEmpty (AsyncWorker._callback moved.1) = true /\
  AsyncWorker._callback moved.2 = AsyncWorker._callback other /\
  AsyncWorker._errmsg moved.1 = AsyncWorker._errmsg other /\
  Reference._ref (AsyncWorker._persistent moved.1)
    = Reference._ref (AsyncWorker._persistent other) /\
  exists e w',
    AsyncWorker_OnWorkComplete moved.1 w = (Throw e, w') /\
    calls w' = calls w /\
    scopes w' = scopes w /\
    is_host_error w' e generic_error "Invalid pointer passed as argument".
Proof.
  intros Hp Hnone. simpl.
  split; [reflexivity |]. split; [reflexivity |]. split; [reflexivity |].
  split; [reflexivity |].
  unfold AsyncWorker_OnWorkComplete, AsyncWorker_WorkComplete, HandleScope_ctor,
    napi_open_handle_scope.
  unfold bind at 1. unfold bind at 1. rewrite open_scope_run.
  unfold bind at 1. rewrite check_status_ok. unfold ret at 1.
  set (w0 := add_log "napi_open_handle_scope" w).
  set (s := fresh_scope w0).
  set (w1 := upd_scopes (cons s) w0).
  set (new := AsyncWorker.mk _ _ _ _ _).
  assert (exists e w2,
            (if Nat.eqb (String.length (AsyncWorker._errmsg new)) 0
             then AsyncWorker_OnOK new else AsyncWorker_OnError new) w1
              = (Throw e, w2) /\
            calls w2 = calls w /\ scopes w2 = s :: scopes w /\
            is_host_error w2 e generic_error
              "Invalid pointer passed as argument")
    as (e & w2 & Hbody & Hc2 & Hs2 & Herr).
  { destruct (Nat.eqb (String.length (AsyncWorker._errmsg new)) 0).
    - unfold AsyncWorker_OnOK. unfold bind at 1. rewrite Env_Global_run.
      set (w2 := add_log "napi_get_global" w1).
      destruct (FunctionReference_MakeCallback_empty (AsyncWorker._callback new)
                  h_global [] w2 eq_refl Hp Hnone) as (e & w3 & Hrun & Hc & Hs & He).
      unfold bind. simpl. simpl in Hrun. rewrite Hrun.
      exists e, w3. split; [reflexivity |]. split; [exact Hc |].
      split; [exact Hs | exact He].
    - unfold AsyncWorker_OnError. unfold bind at 1. rewrite Env_Global_run.
      set (w2 := add_log "napi_get_global" w1).
      destruct (Error_New_with_run "napi_create_error" generic_error
                  (AsyncWorker_Env new) (AsyncWorker._errmsg new) w2)
        as (e0 & w3 & Hrun & _ & _ & _ & _ & Hp3 & Hn3 & Hframe).
      unfold bind at 1. unfold Error_New_message, napi_create_error.
      rewrite Hrun.
      destruct Hframe as (_ & _ & Hs3 & _ & Hc3 & _).
      destruct (FunctionReference_MakeCallback_empty (AsyncWorker._callback new)
                  h_global [Error._value e0] w3 eq_refl)
        as (e & w4 & Hrun4 & Hc & Hs & He).
      { rewrite Hp3. exact Hp. }
      { rewrite Hn3. exact Hnone. }
      unfold bind. simpl. simpl in Hrun4. rewrite Hrun4.
      exists e, w4. split; [reflexivity |].
      split; [rewrite Hc, Hc3; reflexivity |].
      split; [rewrite Hs, Hs3; reflexivity | exact He]. }
  destruct (HandleScope_dtor_pops (AsyncWorker._env new) s (scopes w) w2 Hs2)
    as (w3 & Hd & Hs3 & Hc3 & Hv3).
  exists e, w3. split.
  { by apply (scoped_run _ _ (Throw e) w1 w2 w3). }
  split; [by rewrite Hc3 |]. split; [exact Hs3 |].
  destruct Herr as (m & He & Hm). exists m.
  split; (rewrite (lookup_value_ext w2 w3) by exact Hv3); assumption.
Qed.

Transparent check_status.

End NapiInl.

(** * Concrete runs *)

Lemma Reference_of_empty_value_witness :
  Value._value empty_value = nullptr /\
  valid_reference host1 function_root /\
  (exists r, Reference_New false empty_value 1 host1 = (Ok r, host1) /\
             Reference_IsEmpty r = true) /\
  (exists this' w',
     Reference_Reset_value function_root empty_value 1 host1 = (Ok this', w') /\
     Reference_IsEmpty this' = true /\
     references w' = delete 1%nat (references host1)).
Proof.
  assert (valid_reference host1 function_root) as Hvalid.
  { right. exists (4%nat, 1). reflexivity. }
  destruct (Reference_of_empty_value false empty_value 1 function_root host1
              eq_refl Hvalid) as [Hnew (this' & w' & l & Hrun & He & _ & Hrefs & _)].
  repeat split; try assumption.
  exists this', w'. repeat split; assumption.
Defined.

Lemma Unref_then_Ref_restores_count_witness :
  Reference._ref function_root <> nullptr /\
  references host1 !! Reference._ref function_root = Some (4%nat, 1) /\
  lookup_value host1 4%nat = Some JsScriptFunction /\
  exists w1 w2 w3,
    Reference_Unref function_root host1 = (Ok 0, w1) /\
    Reference_Ref function_root w1 = (Ok 1, w2) /\
    references w2 !! Reference._ref function_root = Some (4%nat, 1) /\
    Reference_Value function_root w2 = (Ok (Value.mk env0 4%nat), w3) /\
    lookup_value w3 4%nat = Some JsScriptFunction.
Proof.
  assert (Reference._ref function_root <> nullptr) as Hn by discriminate.
  repeat split; try assumption.
  apply (Unref_then_Ref_restores_count function_root 4%nat JsScriptFunction host1 Hn);
    reflexivity.
Defined.

Lemma Value_of_collected_or_empty_reference_witness :
  (Reference_IsEmpty Reference_default = true /\
   Reference_Value Reference_default host1 = (Ok (Value.mk nullptr nullptr), host1)) /\
  (references host1 !! Reference._ref object_root = Some (5%nat, 0) /\
   strongly_held host1 5%nat = false /\
   referent_collected (host_collect 5%nat host1) object_root /\
   exists w',
     Reference_Value object_root (host_collect 5%nat host1)
       = (Ok (Value.mk env0 nullptr), w')) /\
  (valid_reference host1 function_root /\
   exists value w', Reference_Value function_root host1 = (Ok value, w')).
Proof.
  assert (Reference._ref object_root <> nullptr) as Hn by discriminate.
  assert (valid_reference host1 function_root) as Hvalid.
  { right. exists (4%nat, 1). reflexivity. }
  pose proof (Value_of_collected_or_empty_reference Reference_default host1)
    as (Hempty & _).
  pose proof (Value_of_collected_or_empty_reference object_root host1)
    as (_ & _ & Hcollect & _).
  pose proof (Value_of_collected_or_empty_reference object_root
                (host_collect 5%nat host1)) as (_ & Hvalue & _).
  pose proof (Value_of_collected_or_empty_reference function_root host1)
    as (_ & _ & _ & _ & Hlive).
  specialize (Hcollect 5%nat Hn eq_refl eq_refl).
  split; [split; [reflexivity | apply Hempty; reflexivity] |].
  split; [| split; [exact Hvalid | apply Hlive; exact Hvalid]].
  split; [reflexivity |]. split; [reflexivity |].
  split; [exact Hcollect | apply Hvalue; exact Hcollect].
Defined.

Lemma CallbackInfo_index_spec_witness :
  (exists this w1,
     CallbackInfo_ctor 6 env0 frame2 host2 = (Ok this, w1) /\
     CallbackInfo._argv this = argv_static /\
     CallbackInfo_Length this <= 2 /\
     (exists w', CallbackInfo_index this 2 w1
                 = (Ok (Value.mk (CallbackInfo._env this) h_undefined), w')) /\
     0 <= 1 < CallbackInfo_Length this /\
     CallbackInfo_index this 1 w1 = (Ok (Value.mk env0 5%nat), w1)) /\
  (exists this w1,
     CallbackInfo_ctor 1 env0 frame2 host2 = (Ok this, w1) /\
     CallbackInfo._argv this = argv_dynamic /\
     0 <= 0 < CallbackInfo_Length this /\
     CallbackInfo_index this 0 w1 = (Ok (Value.mk env0 4%nat), w1)).
Proof.
  split.
  - destruct (proj2 (CallbackInfo_index_spec 6) env0 frame2 host2)
      as (this & w1 & Hrun & Hlen & Hin).
    exists this, w1.
    assert (CallbackInfo._argv this = argv_static) as Hargv.
    { vm_compute in Hrun. by injection Hrun as <- <-. }
    change (Z.of_nat (length (cb_args frame2))) with 2 in Hlen.
    assert (0 <= 1 < CallbackInfo_Length this) as Hrange by (rewrite Hlen; lia).
    assert (CallbackInfo_Length this <= 2) as Hout by (rewrite Hlen; lia).
    destruct (Hin 1 w1 Hrange eq_refl) as (v & Hv & Hidx).
    injection Hv as <-.
    destruct (proj1 (CallbackInfo_index_spec 6) this 2 w1 Hout)
      as (_ & w' & Hundef & _).
    repeat split; try assumption; try lia. by exists w'.
  - destruct (proj2 (CallbackInfo_index_spec 1) env0 frame2 host2)
      as (this & w1 & Hrun & Hlen & Hin).
    exists this, w1.
    assert (CallbackInfo._argv this = argv_dynamic) as Hargv.
    { vm_compute in Hrun. by injection Hrun as <- <-. }
    change (Z.of_nat (length (cb_args frame2))) with 2 in Hlen.
    assert (0 <= 0 < CallbackInfo_Length this) as Hrange by (rewrite Hlen; lia).
    destruct (Hin 0 w1 Hrange eq_refl) as (v & Hv & Hidx).
    injection Hv as <-.
    repeat split; try assumption; lia.
Defined.

Lemma Error_New_classification_witness :
  (pending host_pending <> nullptr /\
   exists w', Error_New env0 host_pending
                = (Ok (Error.mk env0 5%nat EmptyString), w') /\
              pending w' = nullptr) /\
  (pending host_failed = nullptr /\
   exists e m w',
     Error_New env0 host_failed = (Ok (Error.mk env0 e EmptyString), w') /\
     lookup_value w' e = Some (JsError type_error m) /\
     lookup_value w' m = Some (JsString "A string was expected")) /\
  (pending host1 = nullptr /\
   exists e m w',
     Error_New env0 host1 = (Ok (Error.mk env0 e EmptyString), w') /\
     lookup_value w' e = Some (JsError generic_error m) /\
     lookup_value w' m = Some (JsString "Error in native callback")).
Proof.
  assert (pending host_pending <> nullptr) as Hp by discriminate.
  split; [| split].
  - split; [exact Hp |].
    destruct (proj1 (Error_New_classification env0 host_pending) Hp)
      as (w' & Hrun & Hnone & _).
    exists w'. by split.
  - split; [reflexivity |].
    destruct (proj1 (proj2 (Error_New_classification env0 host_failed)) eq_refl)
      as (e & m & w' & Hrun & _ & _ & He & Hm & _).
    exists e, m, w'. repeat split; assumption.
  - split; [reflexivity |].
    destruct (proj1 (proj2 (Error_New_classification env0 host1)) eq_refl)
      as (e & m & w' & Hrun & _ & _ & He & Hm & _).
    exists e, m, w'. repeat split; assumption.
Defined.

Lemma Error_caught_at_boundary_witness :
  (throwing_registration wrapping_error env0 (Value.mk env0 4%nat)
       (Value.mk env0 5%nat) host1 = (Throw wrapping_error, host1) /\
   exists wf,
     RegisterModule env0 4%nat 5%nat (throwing_registration wrapping_error) host1
       = (Ok tt, wf) /\
     handled_at_boundary wrapping_error host1 wf) /\
  (exists callbackInfo wc,
     CallbackInfo_ctor 6 env0 frame2 host2 = (Ok callbackInfo, wc) /\
     native wc !! cb_data frame2 = Some (NCallbackData 1%nat nullptr) /\
     throwing_function wrapping_error 1%nat callbackInfo wc
       = (Throw wrapping_error, wc) /\
     CallbackInfo_dtor callbackInfo wc = (Ok tt, wc) /\
     exists wf,
       FunctionCallbackWrapper 6 (throwing_function wrapping_error) env0 frame2 host2
         = (Ok tt, wf) /\
       handled_at_boundary wrapping_error wc wf) /\
  (exists callbackInfo wc,
     CallbackInfo_ctor 6 env0 frame2 host2 = (Ok callbackInfo, wc) /\
     native wc !! cb_data frame2 = Some (NCallbackData 1%nat nullptr) /\
     cb_this frame2 <> nullptr /\
     wrapped wc !! cb_this frame2 = Some 8%nat /\
     throwing_method wrapping_error 1%nat 8%nat
         (CallbackInfo_SetData callbackInfo nullptr) (add_log "napi_unwrap" wc)
       = (Throw wrapping_error, add_log "napi_unwrap" wc) /\
     CallbackInfo_dtor callbackInfo (add_log "napi_unwrap" wc)
       = (Ok tt, add_log "napi_unwrap" wc) /\
     exists wf,
       InstanceMethodCallbackWrapper 6 (throwing_method wrapping_error) env0 frame2
           host2 = (Ok tt, wf) /\
       handled_at_boundary wrapping_error (add_log "napi_unwrap" wc) wf) /\
  (exists callbackInfo wc w1,
     cb_is_construct_call construct_call = true /\
     CallbackInfo_ctor 6 env0 construct_call
         (add_log "napi_is_construct_call" host1) = (Ok callbackInfo, wc) /\
     new_T (throwing_constructor wrapping_error) callbackInfo wc
       = (Throw wrapping_error, w1) /\
     CallbackInfo_dtor callbackInfo w1 = (Ok tt, w1) /\
     exists wf,
       ConstructorCallbackWrapper 6 false (throwing_constructor wrapping_error)
           env0 construct_call host1 = (Ok tt, wf) /\
       handled_at_boundary wrapping_error w1 wf /\
       wrapped wf = wrapped w1).
Proof.
  pose proof (Error_caught_at_boundary 6 false (throwing_function wrapping_error)
                (throwing_method wrapping_error) plain_constructor env0
                wrapping_error)
    as (Hreg & Hfun & Hmeth & _).
  pose proof (Error_caught_at_boundary 6 false (throwing_function wrapping_error)
                (throwing_method wrapping_error)
                (throwing_constructor wrapping_error) env0 wrapping_error)
    as (_ & _ & _ & Hctor).
  assert (cb_this frame2 <> nullptr) as Hthis by discriminate.
  split; [| split; [| split]].
  - split; [reflexivity |].
    apply (Hreg 4%nat 5%nat (throwing_registration wrapping_error) host1 host1).
    reflexivity.
  - eexists _, _. split; [vm_compute; reflexivity |].
    split; [vm_compute; reflexivity |].
    split; [reflexivity |].
    split; [vm_compute; reflexivity |].
    eapply (Hfun frame2); [vm_compute | vm_compute | .. ]; reflexivity.
  - eexists _, _. split; [vm_compute; reflexivity |].
    split; [vm_compute; reflexivity |].
    split; [exact Hthis |].
    split; [vm_compute; reflexivity |].
    split; [reflexivity |].
    split; [vm_compute; reflexivity |].
    eapply (Hmeth frame2); [vm_compute; reflexivity | vm_compute; reflexivity
                           | exact Hthis | vm_compute; reflexivity | .. ];
      reflexivity.
  - eexists _, _, _. split; [reflexivity |].
    split; [vm_compute; reflexivity |].
    split; [vm_compute; reflexivity |].
    split; [vm_compute; reflexivity |].
    eapply (Hctor construct_call);
      [reflexivity | vm_compute; reflexivity | vm_compute; reflexivity
      | vm_compute; reflexivity].
Defined.

(** C4, as the specification words it, fails: a function callback throws
    an error without underlying host value while no host exception is
    pending; the trampoline returns to the host without having thrown
    anything. *)
Lemma unwrapped_error_is_not_thrown :
  exists callbackInfo wc wf,
    CallbackInfo_ctor 6 env0 frame2 host2 = (Ok callbackInfo, wc) /\
    throwing_function unwrapped_error 1%nat callbackInfo wc
      = (Throw unwrapped_error, wc) /\
    pending wc = nullptr /\
    FunctionCallbackWrapper 6 (throwing_function unwrapped_error) env0 frame2 host2
      = (Ok tt, wf) /\
    pending wf = nullptr /\
    ~ thrown_iff_none_pending wc wf.
Proof.
  eexists _, _, _.
  split; [vm_compute; reflexivity |].
  split; [reflexivity |].
  split; [reflexivity |].
  split; [vm_compute; reflexivity |].
  split; [reflexivity |].
  intros (l & Hlog & Hiff).
  unfold logged_since in Hlog. simpl in Hlog.
  change (?a :: ?b :: ?c :: ?d :: ?e) with ([a; b; c; d] ++ e) in Hlog.
  apply app_inv_head in Hlog. subst l.
  apply (throw_not_logged). apply Hiff. reflexivity.
Qed.

Lemma WorkComplete_invokes_callback_witness :
  Reference._ref (AsyncWorker._callback (worker "boom")) <> nullptr /\
  references host1 !! Reference._ref (AsyncWorker._callback (worker "boom"))
    = Some (4%nat, 1) /\
  lookup_value host1 4%nat = Some JsScriptFunction /\
  is_js_function JsScriptFunction = true /\
  (exists w',
     AsyncWorker_OnWorkComplete (worker "") host1 = (Ok tt, w') /\
     calls w' = [(4%nat, h_global, [])]) /\
  (exists e m w',
     AsyncWorker_OnWorkComplete (worker "boom") host1 = (Ok tt, w') /\
     calls w' = [(4%nat, h_global, [e])] /\
     lookup_value w' e = Some (JsError generic_error m) /\
     lookup_value w' m = Some (JsString "boom")).
Proof.
  assert (Reference._ref function_root <> nullptr) as Hn by discriminate.
  split; [exact Hn |]. split; [reflexivity |]. split; [reflexivity |].
  split; [reflexivity |]. split.
  - destruct (WorkComplete_invokes_callback (worker "") 4%nat 1 JsScriptFunction
                host1 Hn eq_refl eq_refl eq_refl)
      as (args & w' & Hrun & Hcalls & Hempty & _).
    exists w'. split; [exact Hrun |]. by rewrite Hcalls, (Hempty eq_refl).
  - destruct (WorkComplete_invokes_callback (worker "boom") 4%nat 1 JsScriptFunction
                host1 Hn eq_refl eq_refl eq_refl)
      as (args & w' & Hrun & Hcalls & _ & Hfail).
    destruct Hfail as (e & m & -> & _ & He & Hm); [discriminate |].
    exists e, m, w'. repeat split; assumption.
Defined.

Lemma Constructor_requires_new_and_wraps_witness :
  (cb_is_construct_call bare_call = false /\
   exists e m w',
     ConstructorCallbackWrapper 6 false plain_constructor env0 bare_call host1
       = (Ok tt, w') /\
     e <> nullptr /\
     pending w' = e /\
     lookup_value w' e = Some (JsError type_error m) /\
     native w' = native host1 /\
     wrapped w' = wrapped host1) /\
  (exists callbackInfo instance base wc w1,
     cb_is_construct_call construct_call = true /\
     cb_this construct_call <> nullptr /\
     CallbackInfo_ctor 6 env0 construct_call
         (add_log "napi_is_construct_call" host1) = (Ok callbackInfo, wc) /\
     new_T plain_constructor callbackInfo wc = (Ok instance, w1) /\
     CallbackInfo_dtor callbackInfo w1 = (Ok tt, w1) /\
     lookup_value w1 (cb_this construct_call) = Some JsObject /\
     is_js_object JsObject = true /\
     wrapped w1 !! cb_this construct_call = None /\
     native w1 !! instance = Some (NInstance base) /\
     exists wf wu,
       ConstructorCallbackWrapper 6 false plain_constructor env0 construct_call host1
         = (Ok tt, wf) /\
       wrapped wf !! cb_this construct_call = Some instance /\
       return_value wf = cb_this construct_call /\
       ObjectWrap_Unwrap (Value.mk env0 (cb_this construct_call)) wf
         = (Ok instance, wu)).
Proof.
  pose proof (Constructor_requires_new_and_wraps 6 false plain_constructor env0)
    as (Hbare & Hnew).
  assert (cb_this construct_call <> nullptr) as Hthis by discriminate.
  split.
  - split; [reflexivity |].
    destruct (Hbare bare_call host1 eq_refl)
      as (e & m & w' & Hrun & He & Hp & _ & Hk & Hnat & Hwr).
    exists e, m, w'. repeat split; assumption.
  - eexists _, _, _, _, _.
    split; [reflexivity |]. split; [exact Hthis |].
    split; [vm_compute; reflexivity |].
    split; [vm_compute; reflexivity |].
    split; [vm_compute; reflexivity |].
    split; [vm_compute; reflexivity |].
    split; [reflexivity |].
    split; [vm_compute; reflexivity |].
    split; [vm_compute; reflexivity |].
    eapply (Hnew construct_call);
      [ reflexivity | exact Hthis | vm_compute; reflexivity
      | vm_compute; reflexivity | vm_compute; reflexivity
      | vm_compute; reflexivity | reflexivity | vm_compute; reflexivity
      | vm_compute; reflexivity ].
Defined.

Lemma move_assignment_drops_suppression_witness :
  (1%nat <> nullptr) /\
  references host1 !! 1%nat = Some (4%nat, 1) /\
  Reference_dtor (Reference_SuppressDestruct (Reference_ctor false env0 1%nat)) host1
    = (Ok tt, host1) /\
  exists w',
    Reference_dtor
      (Reference_move_assign Reference_default
         (Reference_SuppressDestruct (Reference_ctor false env0 1%nat))).1 host1
      = (Ok tt, w') /\
    references w' !! 1%nat = None.
Proof.
  assert (1%nat <> nullptr) as Hn by discriminate.
  destruct (move_assignment_drops_suppression false env0 1%nat (4%nat, 1) host1
              Hn eq_refl) as (_ & _ & _ & Hsource & _ & Htarget & _).
  repeat split; assumption.
Defined.

Lemma CallbackData_outlives_owner_witness :
  exists f p w1,
    Function_New env0 1%nat "f" nullptr host1 = (Ok (Value.mk env0 f), w1) /\
    native w1 !! p = Some (NCallbackData 1%nat nullptr) /\
    strongly_held w1 f = false /\
    lookup_value (host_collect f w1) f = None /\
    native (host_collect f w1) !! p = Some (NCallbackData 1%nat nullptr).
Proof.
  destruct (proj1 (CallbackData_outlives_owner env0 1%nat "f" nullptr 0 host1))
    as (f & p & w1 & Hrun & _ & _ & Hdata & Hcollected).
  assert (strongly_held w1 f = false) as Hfree.
  { vm_compute in Hrun. injection Hrun as <- <-. vm_compute. reflexivity. }
  destruct (Hcollected Hfree) as [Hgone Hleak].
  exists f, p, w1. repeat split; assumption.
Defined.

Lemma Reference_New_then_Value_witness :
  Value._value (Value.mk env0 4%nat) <> nullptr /\
  lookup_value host1 4%nat = Some JsScriptFunction /\
  exists r w1 w2,
    Reference_New false (Value.mk env0 4%nat) 1 host1 = (Ok r, w1) /\
    Reference_IsEmpty r = false /\
    references host1 !! Reference._ref r = None /\
    Reference_Value r w1 = (Ok (Value.mk env0 4%nat), w2).
Proof.
  assert (Value._value (Value.mk env0 4%nat) <> nullptr) as Hn by discriminate.
  split; [exact Hn |]. split; [reflexivity |].
  destruct (Reference_New_then_Value false (Value.mk env0 4%nat) 1
              JsScriptFunction host1 Hn eq_refl)
    as (r & w1 & w2 & Hrun & He & Hnew & _ & Hv & _).
  exists r, w1, w2. repeat split; assumption.
Defined.

Lemma Persistent_holds_Weak_does_not_witness :
  Value._value (Value.mk env0 5%nat) <> nullptr /\
  lookup_value host1 5%nat = Some JsObject /\
  strongly_held host1 5%nat = false /\
  (exists r w1 w2,
     Persistent false (Value.mk env0 5%nat) host1 = (Ok r, w1) /\
     host_collect 5%nat w1 = w1 /\
     Reference_Value r w1 = (Ok (Value.mk env0 5%nat), w2)) /\
  (exists r w1 w2,
     Weak false (Value.mk env0 5%nat) host1 = (Ok r, w1) /\
     values (host_collect 5%nat w1) !! 5%nat = None /\
     Reference_Value r (host_collect 5%nat w1)
       = (Ok (Value.mk env0 nullptr), w2)).
Proof.
  assert (Value._value (Value.mk env0 5%nat) <> nullptr) as Hn by discriminate.
  destruct (Persistent_holds_Weak_does_not false (Value.mk env0 5%nat) JsObject
              host1 Hn eq_refl) as [Hstrong Hweak].
  split; [exact Hn |]. split; [reflexivity |]. split; [reflexivity |].
  split; [exact Hstrong | exact (Hweak eq_refl)].
Defined.

Lemma Unref_releases_Ref_holds_witness :
  Reference._ref function_root <> nullptr /\
  references host1 !! Reference._ref function_root = Some (4%nat, 1) /\
  Reference._ref object_root <> nullptr /\
  references host1 !! Reference._ref object_root = Some (5%nat, 0) /\
  (exists w1 w2,
     Reference_Unref function_root host1 = (Ok 0, w1) /\
     strongly_held w1 4%nat = false /\
     Reference_Value function_root (host_collect 4%nat w1)
       = (Ok (Value.mk env0 nullptr), w2)) /\
  (exists w1 w2,
     Reference_Ref object_root host1 = (Ok 1, w1) /\
     host_collect 5%nat w1 = w1 /\
     Reference_Value object_root w1 = (Ok (Value.mk env0 5%nat), w2)).
Proof.
  assert (Reference._ref function_root <> nullptr) as Hf by discriminate.
  assert (Reference._ref object_root <> nullptr) as Ho by discriminate.
  split; [exact Hf |]. split; [reflexivity |].
  split; [exact Ho |]. split; [reflexivity |]. split.
  - apply (proj1 (Unref_releases_Ref_holds function_root 4%nat host1 Hf));
      [reflexivity |].
    intros r rc Hr Hl. unfold host1 in Hl. simpl in Hl.
    apply lookup_insert_Some in Hl as [[Heq _] | [_ Hl]];
      [exfalso; apply Hr; symmetry; exact Heq |].
    apply lookup_insert_Some in Hl as [[_ <-] | [_ Hl]];
      [simpl; lia | by rewrite lookup_empty in Hl].
  - apply (proj2 (Unref_releases_Ref_holds object_root 5%nat host1 Ho)).
    reflexivity.
Defined.

Lemma Reference_failures_throw_witness :
  pending host1 = nullptr /\
  references host1 !! Reference._ref object_root = Some (5%nat, 0) /\
  references host1 !! Reference._ref (Reference.mk env0 3%nat false) = None /\
  (exists e w',
     Reference_Unref object_root host1 = (Throw e, w') /\
     is_host_error w' e generic_error "Unknown failure") /\
  (exists e w',
     Reference_Ref (Reference.mk env0 3%nat false) host1 = (Throw e, w') /\
     is_host_error w' e generic_error "Invalid pointer passed as argument") /\
  (exists e w',
     Reference_Value (Reference.mk env0 3%nat false) host1 = (Throw e, w') /\
     is_host_error w' e generic_error "Invalid pointer passed as argument").
Proof.
  split; [reflexivity |]. split; [reflexivity |]. split; [reflexivity |].
  destruct (Reference_failures_throw object_root host1 eq_refl) as [Hzero _].
  destruct (Reference_failures_throw (Reference.mk env0 3%nat false) host1 eq_refl)
    as [_ Hunknown].
  destruct (Hzero 5%nat eq_refl) as (e & w' & Hrun & Herr & _).
  destruct (Hunknown eq_refl) as ((e1 & w1 & Hrun1 & Herr1 & _) & _ & Hrest).
  assert (Reference._ref (Reference.mk env0 3%nat false) <> nullptr) as Hn
    by discriminate.
  destruct (Hrest Hn) as ((e2 & w2 & Hrun2 & Herr2 & _) & _).
  split; [by exists e, w' |]. split; [by exists e1, w1 | by exists e2, w2].
Defined.

Lemma Reset_releases_once_witness :
  Reference._ref function_root <> nullptr /\
  references host1 !! Reference._ref function_root = Some (4%nat, 1) /\
  exists this' w',
    Reference_Reset function_root host1 = (Ok this', w') /\
    Reference_IsEmpty this' = true /\
    references w' = delete 1%nat (references host1) /\
    Reference_Reset this' w' = (Ok this', w') /\
    Reference_dtor this' w' = (Ok tt, w').
Proof.
  assert (Reference._ref function_root <> nullptr) as Hn by discriminate.
  split; [exact Hn |]. split; [reflexivity |].
  destruct (Reset_releases_once function_root (4%nat, 1) host1 Hn eq_refl)
    as (this' & w' & Hrun & He & Hrefs & _ & Hagain & Hdtor).
  exists this', w'. repeat split; assumption.
Defined.

Lemma Reset_value_replaces_root_witness :
  Reference._ref function_root <> nullptr /\
  references host1 !! Reference._ref function_root = Some (4%nat, 1) /\
  Value._value (Value.mk env0 5%nat) <> nullptr /\
  lookup_value host1 5%nat = Some JsObject /\
  exists this' w1 w2,
    Reference_Reset_value function_root (Value.mk env0 5%nat) 1 host1
      = (Ok this', w1) /\
    Reference_IsEmpty this' = false /\
    references w1
      = <[Reference._ref this' := (5%nat, 1)]> (delete 1%nat (references host1)) /\
    Reference_Value this' w1 = (Ok (Value.mk env0 5%nat), w2).
Proof.
  assert (Reference._ref function_root <> nullptr) as Hn by discriminate.
  assert (Value._value (Value.mk env0 5%nat) <> nullptr) as Hv by discriminate.
  split; [exact Hn |]. split; [reflexivity |].
  split; [exact Hv |]. split; [reflexivity |].
  destruct (Reset_value_replaces_root function_root (4%nat, 1)
              (Value.mk env0 5%nat) 1 JsObject host1 Hn eq_refl Hv eq_refl)
    as (this' & w1 & w2 & Hrun & He & Hrefs & _ & Hval).
  exists this', w1, w2. repeat split; assumption.
Defined.

Lemma move_assignment_abandons_old_root_witness :
  Reference._ref function_root <> nullptr /\
  Reference._ref object_root <> nullptr /\
  Reference._ref function_root <> Reference._ref object_root /\
  references host1 !! Reference._ref function_root = Some (4%nat, 1) /\
  references host1 !! Reference._ref object_root = Some (5%nat, 0) /\
  Reference._suppressDestruct function_root = false /\
  exists w1,
    Reference_dtor (Reference_move_assign function_root object_root).1 host1
      = (Ok tt, w1) /\
    Reference_dtor (Reference_move_assign function_root object_root).2 w1
      = (Ok tt, w1) /\
    references w1 !! 2%nat = None /\
    references w1 !! 1%nat = Some (4%nat, 1).
Proof.
  assert (Reference._ref function_root <> nullptr) as Hf by discriminate.
  assert (Reference._ref object_root <> nullptr) as Ho by discriminate.
  assert (Reference._ref function_root <> Reference._ref object_root) as Hd
    by discriminate.
  split; [exact Hf |]. split; [exact Ho |]. split; [exact Hd |].
  split; [reflexivity |]. split; [reflexivity |]. split; [reflexivity |].
  exact (move_assignment_abandons_old_root function_root object_root
           (4%nat, 1) (5%nat, 0) host1 Hf Ho Hd eq_refl eq_refl eq_refl).
Defined.

Lemma Function_New_then_call_witness :
  exists f p w1 callbackInfo wc wf,
    Function_New env0 1%nat "f" nullptr host1 = (Ok (Value.mk env0 f), w1) /\
    native w1 !! p = Some (NCallbackData 1%nat nullptr) /\
    CallbackInfo_ctor 6 env0 (mk_callback_info 5%nat [4%nat; 5%nat] p false) w1
      = (Ok callbackInfo, wc) /\
    returning_function 4%nat 1%nat callbackInfo wc = (Ok 4%nat, wc) /\
    CallbackInfo_dtor callbackInfo wc = (Ok tt, wc) /\
    CallbackInfo_Data callbackInfo = p /\
    FunctionCallbackWrapper 6 (returning_function 4%nat) env0
        (mk_callback_info 5%nat [4%nat; 5%nat] p false) w1 = (Ok tt, wf) /\
    return_value wf = 4%nat.
Proof.
  destruct (Function_New_then_call 6 (returning_function 4%nat) env0 1%nat "f"
              nullptr host1) as (f & p & w1 & Hrun & _ & Hdata & Hcall).
  set (info := mk_callback_info 5%nat [4%nat; 5%nat] p false).
  set (callbackInfo :=
         CallbackInfo.mk env0 5%nat 2 argv_static [4%nat; 5%nat] nullptr p).
  assert (exists wc,
            CallbackInfo_ctor 6 env0 info w1 = (Ok callbackInfo, wc) /\
            CallbackInfo_dtor callbackInfo wc = (Ok tt, wc))
    as (wc & Hctor & Hdtor).
  { eexists. split; [vm_compute; reflexivity | reflexivity]. }
  destruct (Hcall info callbackInfo 4%nat w1 wc wc wc eq_refl Hdata Hctor eq_refl
              Hdtor) as (Hp & wf & Hwrap & Hret & _).
  exists f, p, w1, callbackInfo, wc, wf.
  repeat split; assumption.
Defined.

Lemma FunctionCallbackWrapper_releases_arguments_witness :
  exists callbackInfo wc wf,
    native host2 !! cb_data frame2 = Some (NCallbackData 1%nat nullptr) /\
    CallbackInfo_ctor 1 env0 frame2 host2 = (Ok callbackInfo, wc) /\
    CallbackInfo._dynamicArgs callbackInfo <> nullptr /\
    throwing_function wrapping_error 1%nat callbackInfo wc
      = (Throw wrapping_error, wc) /\
    FunctionCallbackWrapper 1 (throwing_function wrapping_error) env0 frame2 host2
      = (Ok tt, wf) /\
    native wf = native host2.
Proof.
  assert (native host2 !! cb_data frame2 = Some (NCallbackData 1%nat nullptr))
    as Hdata by (vm_compute; reflexivity).
  assert (Throw wrapping_error <> @Fault nat) as Hne by discriminate.
  eassert (CallbackInfo_ctor 1 env0 frame2 host2 = (Ok _, _)) as Hctor
    by (vm_compute; reflexivity).
  destruct (FunctionCallbackWrapper_releases_arguments 1
              (throwing_function wrapping_error) env0 frame2 _ 1%nat nullptr
              (Throw wrapping_error) host2 _ _ Hdata Hctor eq_refl Hne eq_refl)
    as (wf & Hrun & Hnative).
  eexists _, _, wf.
  split; [exact Hdata |]. split; [exact Hctor |].
  split; [intros H; vm_compute in H; discriminate H |].
  split; [reflexivity |]. split; assumption.
Defined.

Lemma Constructor_failure_releases_instance_witness :
  exists callbackInfo wc w1 wf,
    cb_is_construct_call construct_call = true /\
    CallbackInfo_ctor 6 env0 construct_call
        (add_log "napi_is_construct_call" host1) = (Ok callbackInfo, wc) /\
    throwing_constructor wrapping_error (fresh_ptr wc) callbackInfo
        (upd_native <[fresh_ptr wc := NInstance Reference_default]> wc)
      = (Throw wrapping_error, w1) /\
    native w1 = <[fresh_ptr wc := NInstance Reference_default]> (native wc) /\
    ConstructorCallbackWrapper 6 false (throwing_constructor wrapping_error) env0
        construct_call host1 = (Ok tt, wf) /\
    native wf = native host1 /\
    handled_at_boundary wrapping_error w1 wf.
Proof.
  eassert (CallbackInfo_ctor 6 env0 construct_call
             (add_log "napi_is_construct_call" host1) = (Ok _, _)) as Hctor
    by (vm_compute; reflexivity).
  destruct (Constructor_failure_releases_instance 6 false
              (throwing_constructor wrapping_error) env0 construct_call _
              wrapping_error host1 _ _ eq_refl Hctor eq_refl eq_refl)
    as (wf & Hrun & Hnative & _ & Hhandled).
  eexists _, _, _, wf.
  split; [reflexivity |]. split; [exact Hctor |].
  split; [reflexivity |]. split; [reflexivity |].
  split; [exact Hrun |]. split; assumption.
Defined.

Lemma InstanceMethod_then_call_witness :
  exists desc w1 callbackInfo wc wf,
    ObjectWrap_InstanceMethod "m" 1%nat 0 11%nat host2 = (Ok desc, w1) /\
    native w1 !! desc_data desc = Some (NCallbackData 1%nat 11%nat) /\
    cb_this (mk_callback_info 5%nat [4%nat; 5%nat] (desc_data desc) false)
      <> nullptr /\
    wrapped w1 !! 5%nat = Some 8%nat /\
    CallbackInfo_ctor 6 env0
        (mk_callback_info 5%nat [4%nat; 5%nat] (desc_data desc) false) w1
      = (Ok callbackInfo, wc) /\
    returning_method 4%nat 1%nat 8%nat (CallbackInfo_SetData callbackInfo 11%nat)
        (add_log "napi_unwrap" wc) = (Ok 4%nat, add_log "napi_unwrap" wc) /\
    CallbackInfo_dtor callbackInfo (add_log "napi_unwrap" wc)
      = (Ok tt, add_log "napi_unwrap" wc) /\
    CallbackInfo_Data (CallbackInfo_SetData callbackInfo 11%nat) = 11%nat /\
    InstanceMethodCallbackWrapper 6 (returning_method 4%nat) env0
        (mk_callback_info 5%nat [4%nat; 5%nat] (desc_data desc) false) w1
      = (Ok tt, wf) /\
    return_value wf = 4%nat.
Proof.
  destruct (InstanceMethod_then_call 6 (returning_method 4%nat) "m" 1%nat 0
              11%nat host2) as (desc & w1 & Hrun & _ & _ & Hdata & Hcall).
  set (info := mk_callback_info 5%nat [4%nat; 5%nat] (desc_data desc) false).
  assert (cb_this info <> nullptr) as Hthis by discriminate.
  assert (wrapped w1 !! 5%nat = Some 8%nat) as Hwrapped.
  { vm_compute in Hrun. injection Hrun as <- <-. vm_compute. reflexivity. }
  eassert (CallbackInfo_ctor 6 env0 info w1 = (Ok _, _)) as Hctor
    by (vm_compute; reflexivity).
  destruct (Hcall env0 info _ 8%nat 4%nat _ _ _ _ eq_refl Hdata Hthis Hwrapped
              Hctor eq_refl eq_refl) as (Hd & wf & Hwrap & Hret & _).
  eexists _, _, _, _, wf.
  split; [exact Hrun |]. split; [exact Hdata |]. split; [exact Hthis |].
  split; [exact Hwrapped |]. split; [exact Hctor |].
  split; [reflexivity |]. split; [reflexivity |]. split; [exact Hd |].
  split; assumption.
Defined.

Lemma InstanceMethod_on_unwrapped_receiver_witness :
  pending host_unwrapped = nullptr /\
  cb_this frame2 <> nullptr /\
  wrapped host_unwrapped !! cb_this frame2 = None /\
  native host_unwrapped !! cb_data frame2 = Some (NCallbackData 1%nat nullptr) /\
  exists e wf,
    InstanceMethodCallbackWrapper 6 (returning_method 4%nat) env0 frame2
        host_unwrapped = (Ok tt, wf) /\
    pending wf = Error._value e /\
    Error._value e <> nullptr /\
    is_host_error wf e generic_error "Invalid pointer passed as argument" /\
    return_value wf = return_value host_unwrapped.
Proof.
  assert (cb_this frame2 <> nullptr) as Hthis by discriminate.
  assert (native host_unwrapped !! cb_data frame2
          = Some (NCallbackData 1%nat nullptr)) as Hdata
    by (vm_compute; reflexivity).
  split; [reflexivity |]. split; [exact Hthis |]. split; [reflexivity |].
  split; [exact Hdata |].
  destruct (InstanceMethod_on_unwrapped_receiver 6 (returning_method 4%nat) env0
              frame2 1%nat nullptr host_unwrapped eq_refl Hthis eq_refl Hdata)
    as (e & wf & Hrun & Hp & Hn & Herr & Hret & _).
  exists e, wf. repeat split; assumption.
Defined.

Lemma FinalizeCallback_releases_instance_witness :
  8%nat <> nullptr /\
  wrapped host3 !! 5%nat = Some 8%nat /\
  native host3 !! 8%nat = Some (NInstance object_root) /\
  Reference._ref object_root <> nullptr /\
  Reference._suppressDestruct object_root = false /\
  references host3 !! Reference._ref object_root = Some (5%nat, 0) /\
  strongly_held host3 5%nat = false /\
  pending host3 = nullptr /\
  exists w2 e w3,
    FinalizeCallback 8%nat nullptr (host_collect 5%nat host3) = (Ok tt, w2) /\
    native w2 = delete 8%nat (native host3) /\
    references w2 !! 2%nat = None /\
    wrapped w2 !! 5%nat = None /\
    ObjectWrap_Unwrap (Value.mk env0 5%nat) w2 = (Throw e, w3) /\
    is_host_error w3 e generic_error "Invalid pointer passed as argument".
Proof.
  assert (8%nat <> nullptr) as Hi by discriminate.
  assert (Reference._ref object_root <> nullptr) as Hr by discriminate.
  assert (wrapped host3 !! 5%nat = Some 8%nat) as Hw by (vm_compute; reflexivity).
  assert (native host3 !! 8%nat = Some (NInstance object_root)) as Hn
    by (vm_compute; reflexivity).
  assert (references host3 !! Reference._ref object_root = Some (5%nat, 0)) as Hc
    by (vm_compute; reflexivity).
  assert (strongly_held host3 5%nat = false) as Hs by (vm_compute; reflexivity).
  split; [exact Hi |]. split; [exact Hw |]. split; [exact Hn |].
  split; [exact Hr |]. split; [reflexivity |]. split; [exact Hc |].
  split; [exact Hs |]. split; [reflexivity |].
  exact (FinalizeCallback_releases_instance env0 5%nat 8%nat nullptr object_root
           host3 Hi Hw Hn Hr eq_refl Hc Hs eq_refl).
Defined.

Lemma thrown_native_errors_reach_host_witness :
  pending host1 = nullptr /\
  (exists e wf,
     RegisterModule env0 4%nat 5%nat (throws_new Error_New_message "boom") host1
       = (Ok tt, wf) /\
     pending wf = Error._value e /\
     is_host_error wf e generic_error "boom") /\
  (exists e wf,
     RegisterModule env0 4%nat 5%nat (throws_new TypeError_New "boom") host1
       = (Ok tt, wf) /\
     pending wf = Error._value e /\
     is_host_error wf e type_error "boom") /\
  (exists e wf,
     RegisterModule env0 4%nat 5%nat (throws_new RangeError_New "boom") host1
       = (Ok tt, wf) /\
     pending wf = Error._value e /\
     is_host_error wf e range_error "boom").
Proof.
  split; [reflexivity |].
  destruct (thrown_native_errors_reach_host env0 4%nat 5%nat "boom" host1 eq_refl)
    as ((e1 & w1 & H1 & Hp1 & _ & _ & He1)
        & (e2 & w2 & H2 & Hp2 & _ & _ & He2)
        & (e3 & w3 & H3 & Hp3 & _ & _ & He3)).
  split; [by exists e1, w1 |]. split; [by exists e2, w2 | by exists e3, w3].
Defined.

Lemma pending_exception_is_relayed_witness :
  pending host_pending <> nullptr /\
  exists wf,
    RegisterModule env0 4%nat 5%nat throws_last_error host_pending = (Ok tt, wf) /\
    pending wf = 5%nat /\
    values wf = values host_pending.
Proof.
  assert (pending host_pending <> nullptr) as Hp by discriminate.
  split; [exact Hp |].
  destruct (pending_exception_is_relayed env0 4%nat 5%nat host_pending Hp)
    as (wf & Hrun & Hpend & Hvals & _).
  exists wf. repeat split; assumption.
Defined.

Lemma moved_worker_has_no_callback_witness :
  pending host1 = nullptr /\
  lookup_value host1 nullptr = None /\
  Reference_IsEmpty
    (AsyncWorker._callback (AsyncWorker_move_ctor "" (worker "boom")).1) = true /\
  AsyncWorker._callback (AsyncWorker_move_ctor "" (worker "boom")).2
    = function_root /\
  exists e w',
    AsyncWorker_OnWorkComplete (AsyncWorker_move_ctor "" (worker "boom")).1 host1
      = (Throw e, w') /\
    calls w' = calls host1 /\
    scopes w' = scopes host1 /\
    is_host_error w' e generic_error "Invalid pointer passed as argument".
Proof.
  split; [reflexivity |]. split; [reflexivity |].
  destruct (moved_worker_has_no_callback "" (worker "boom") host1 eq_refl eq_refl)
    as (Hempty & Hkept & _ & _ & Hrun).
  split; [exact Hempty |]. split; [exact Hkept | exact Hrun].
Defined.
